(** * wrapanapi/systems/openstack.py: a shallow embedding

    The OpenStack management system talks to a remote compute backend
    through novaclient.  Every backend request is an explicit [Call]; a
    program is a function from the state of the world to an outcome, the new
    state and the trace of the calls it made.  The backend (and whoever
    shares it with us) is an arbitrary handler of the calls, so it may answer
    differently each time it is asked. *)

From Stdlib Require Import ZArith Structures.OrderedTypeEx Sorting.Sorted.
From stdpp Require Import base option list strings.

Local Open Scope string_scope.
Local Open Scope Z_scope.
Local Open Scope list_scope.

(** ** Backend resources

    The attributes of the novaclient resources that the module reads. *)

Module Fault.
Record t := mk { code : Z; message : string; created : string }.
End Fault.

Module Nic.
(** One entry of [server._info['addresses'][network]];
    [type] is the key ['OS-EXT-IPS:type']. *)
Record t := mk { type : string; addr : string }.
End Nic.

Module Server.
(** [fault] is [None] when the resource has no [fault] attribute;
    [addresses] lists the networks in the order [dict.values()] yields. *)
Record t := mk {
  id : string;
  name : string;
  status : string;
  tenant_id : string;
  addresses : list (string * list Nic.t);
  fault : option Fault.t
}.
End Server.

Module FloatingIP.
Record t := mk {
  id : string;
  ip : string;
  fixed_ip : option string;
  pool : string
}.
End FloatingIP.

Module Image.
Record t := mk { id : string; name : string; status : string }.
End Image.

Module User.
Record t := mk { name : string }.
End User.

Module Tenant.
Record t := mk { id : string; name : string }.
End Tenant.

(** wrapanapi.entities.VmState: the members the module names, and the
    terminal failure state. *)
Inductive VmState := RUNNING | STOPPED | SUSPENDED | PAUSED | ERROR.

Global Instance VmState_eq_dec : EqDecision VmState.
Proof. solve_decision. Defined.

(** ** Exceptions *)

(** The arguments of a [str.format] call or of a logging call; the message is
    kept as the template and its arguments. *)
Inductive Arg :=
| AStr (s : string)
| AInt (z : Z)
| ADict (kv : list (string * string)).

Inductive Msg :=
| Plain (s : string)
| Fmt (template : string) (args : list Arg).

Inductive Exn :=
(* novaclient.exceptions, all subclasses of ClientException *)
| BadRequest
| NotFound (code : Z)
| OverLimit
| Conflict
| ClientException (what : string)
(* requests.exceptions.Timeout and wait_for's TimedOutError *)
| RequestsTimeout
| TimedOutError
(* wrapanapi.exceptions *)
| VMError (m : Msg)
| VMInstanceNotFound (m : Msg)
| MultipleInstancesError (m : Msg)
| NoMoreFloatingIPs (m : Msg)
(* builtins *)
| ValueError (m : Msg)
| AssertionError (m : Msg)
| AttributeError
| IndexError
| TypeError
| UnboundLocalError
| RuntimeError
| Exception (m : Msg).

Definition is_ClientException (e : Exn) : bool :=
  match e with
  | BadRequest | NotFound _ | OverLimit | Conflict | ClientException _ => true
  | _ => false
  end.

Inductive result (A : Type) :=
| Ok (a : A)
| Err (e : Exn).
Arguments Ok {A} a.
Arguments Err {A} e.

(** ** Backend calls *)

(** The keyword arguments the module passes to [floating_ips.findall]. *)
Inductive FipFilter :=
| ByIp (ip : string)
| FreeInPool (pool : string).

Inductive Call : Type -> Type :=
| ServersGet (id : string) : Call Server.t
| ServersList (marker : option string) : Call (list Server.t)
| ServerUpdate (id new_name : string) : Call unit
| ServerStart (id : string) : Call unit
| ServerStop (id : string) : Call unit
| ServerResume (id : string) : Call unit
| ServerUnpause (id : string) : Call unit
| ServerSuspend (id : string) : Call unit
| ServerPause (id : string) : Call unit
| ServerDelete (id : string) : Call unit
| ServerCreateImage (id image_name : string) : Call string
| ServerAddFloatingIp (id : string) (fip : FloatingIP.t) : Call unit
| ServerRemoveFloatingIp (id : string) (fip : FloatingIP.t) : Call unit
| ImagesGet (uuid : string) : Call Image.t
| FloatingIpsFindall (criteria : FipFilter) : Call (list FloatingIP.t)
| FloatingIpsCreate (pool : string) : Call FloatingIP.t
| FloatingIpDelete (fip : FloatingIP.t) : Call unit
| TenantsList : Call (list Tenant.t)
| TenantListUsers (tenant : Tenant.t) : Call (list User.t)
| Sleep (seconds : nat) : Call unit.

Inductive Level := INFO | ERROR_ | EXCEPTION.

Inductive LogArg :=
| LArg (a : Arg)
| LExn (e : Exn).

Inductive Event :=
| Ev {T : Type} (c : Call T) (r : result T)
| Logged (lvl : Level) (template : string) (args : list LogArg).

(** ** Programs *)

Inductive outcome (A : Type) :=
| Return (a : A)
| Raise (e : Exn)
| OutOfFuel.
Arguments Return {A} a.
Arguments Raise {A} e.
Arguments OutOfFuel {A}.

Definition M (W A : Type) : Type := W -> outcome A * W * list Event.

Definition ret {W A} (a : A) : M W A := fun w => (Return a, w, []).

Definition bind {W A B} (m : M W A) (k : A -> M W B) : M W B :=
  fun w =>
    match m w with
    | (Return a, w1, t1) =>
        let '(r, w2, t2) := k a w1 in (r, w2, t1 ++ t2)
    | (Raise e, w1, t1) => (Raise e, w1, t1)
    | (OutOfFuel, w1, t1) => (OutOfFuel, w1, t1)
    end.

Global Instance M_ret W : MRet (M W) := @ret W.
Global Instance M_bind W : MBind (M W) := fun A B k m => bind m k.

Definition raise {W A} (e : Exn) : M W A := fun w => (Raise e, w, []).

Definition out_of_fuel {W A} : M W A := fun w => (OutOfFuel, w, []).

(** [try: m except e: h e]. *)
Definition catch {W A} (m : M W A) (h : Exn -> M W A) : M W A :=
  fun w =>
    match m w with
    | (Raise e, w1, t1) =>
        let '(r, w2, t2) := h e w1 in (r, w2, t1 ++ t2)
    | other => other
    end.

Definition log {W} (lvl : Level) (template : string) (args : list LogArg) : M W unit :=
  fun w => (Return tt, w, [Logged lvl template args]).

Definition of_result {W A} (r : result A) : M W A :=
  match r with
  | Ok a => ret a
  | Err e => raise e
  end.

(** ** The environment

    The backend answers the calls.  The rest is what the module takes from
    code that lives elsewhere: the interpreter's recursion limit, and the
    members of the base class wrapanapi.entities.Instance it relies on. *)

Class Env (W : Type) := {
  handle : forall T, Call T -> W -> result T * W;
  (* how many nested [_get_myself] frames the interpreter allows *)
  recursion_limit : nat;
  (* wait_for's defaults for [num_sec] and [delay] *)
  default_num_sec : nat;
  default_delay : nat;
  (* wrapanapi.entities.Instance *)
  _api_state_to_vmstate : string -> result VmState;
  wait_for_steady_state : string -> M W unit
}.

(** ** Python helpers *)

(** Truth value of an optional string argument: [None] and [''] are false. *)
Definition truthy (s : option string) : bool :=
  match s with
  | Some s => negb (String.eqb s "")
  | None => false
  end.

(** [sorted(l, key=key)] on string keys.  Python's sort is stable: an element
    is placed before the first one, among those that followed it in [l],
    whose key is not smaller. *)
Fixpoint insert_sorted {A} (key : A -> string) (x : A) (l : list A) : list A :=
  match l with
  | [] => [x]
  | y :: l' =>
      if String.leb (key x) (key y) then x :: y :: l'
      else y :: insert_sorted key x l'
  end.

Definition sorted {A} (key : A -> string) (l : list A) : list A :=
  foldr (insert_sorted key) [] l.

(** The first floating address in [_info['addresses']], as the two nested
    loops of [ip] find it. *)
Definition floating_addr (networks : list (string * list Nic.t)) : option string :=
  match filter (fun nic => Nic.type nic = "floating") (concat (map snd networks)) with
  | nic :: _ => Some (Nic.addr nic)
  | [] => None
  end.

(** ** The objects *)

Module OpenstackSystem.
Record t := mk {
  tenant : string;
  username : string;
  password : string;
  auth_url : string;
  keystone_version : Z
}.
End OpenstackSystem.

Module OpenstackInstance.
Record t := mk {
  system : OpenstackSystem.t;
  id : string;
  _raw : option Server.t
}.
End OpenstackInstance.

Module OpenstackImage.
Record t := mk {
  system : OpenstackSystem.t;
  id : string;
  _raw : option Image.t
}.
End OpenstackImage.

(** What [delete_floating_ip] may be given. *)
Inductive FipArg :=
| FipNone
| FipObject (fip : FloatingIP.t)
| FipAddress (addr : string).

(** What [wait_for] is handed as [func]: a lambda, or the value that an
    expression evaluated to. *)
Inductive Func (W : Type) :=
| Lambda (body : M W bool)
| Value (b : bool).
Arguments Lambda {W} body.
Arguments Value {W} b.

Section Programs.
Context {W : Type} `{Env W}.

Definition call {T} (c : Call T) : M W T :=
  fun w =>
    let '(r, w1) := handle T c w in
    (match r with Ok a => Return a | Err e => Raise e end, w1, [Ev c r]).

(** [l[0]]. *)
Definition first {A} (l : list A) : M W A :=
  match l with
  | x :: _ => ret x
  | [] => raise IndexError
  end.

(** *** wait_for

    [wait_for(func, num_sec=, delay=)] of the wait_for package: call [func]
    until it answers true, sleeping [delay] between two tries, and give up
    with TimedOutError once more than [num_sec] have been slept.  Only
    sleeping takes time here, which leaves [num_sec / delay + 1] tries.
    A [func] that is not callable cannot be polled: the wait fails at once,
    and TypeError stands for that failure. *)

Fixpoint wait_for_tries (tries delay : nat) (func : M W bool) : M W unit :=
  match tries with
  | O => raise TimedOutError
  | S n =>
      out ← func;
      if out : bool then ret tt
      else call (Sleep delay);; wait_for_tries n delay func
  end.

Definition wait_for (func : Func W) (num_sec delay : nat) : M W unit :=
  match func with
  | Lambda body => wait_for_tries (num_sec / delay + 1) delay body
  | Value _ => raise TypeError
  end.

(** *** OpenstackInstance *)

Import OpenstackInstance.

(** [_get_myself]: the argument of [VMInstanceNotFound(self.name)] refreshes
    the instance, which calls [_get_myself] again; when the interpreter
    allows no further call it raises RuntimeError (RecursionError, a
    subclass of it). *)
Fixpoint _get_myself_at (depth : nat) (self : OpenstackInstance.t) : M W Server.t :=
  catch (call (ServersGet (id self)))
    (fun e =>
       match e with
       | NotFound code =>
           if bool_decide (code = 404) then
             match depth with
             | O => raise RuntimeError
             | S d =>
                 raw ← _get_myself_at d self;
                 raise (VMInstanceNotFound (Plain (Server.name raw)))
             end
           else raise e
       | _ => raise e
       end).

Definition _get_myself (self : OpenstackInstance.t) : M W Server.t :=
  _get_myself_at recursion_limit self.

(** [refresh] stores the answer in [self._raw]; it is returned here. *)
Definition refresh (self : OpenstackInstance.t) : M W Server.t :=
  _get_myself self.

Definition name (self : OpenstackInstance.t) : M W string :=
  raw ← refresh self;
  ret (Server.name raw).

Definition exists_ (self : OpenstackInstance.t) : M W bool :=
  catch (_get_myself self;; ret true)
    (fun e =>
       match e with
       | AssertionError _ | VMInstanceNotFound _ => ret false
       | _ => raise e
       end).

Definition state (self : OpenstackInstance.t) : M W VmState :=
  inst ← refresh self;
  if negb (String.eqb (Server.status inst) "ERROR") then
    of_result (_api_state_to_vmstate (Server.status inst))
  else
    match Server.fault inst with
    | None =>
        n ← name self;
        raise (VMError (Fmt "Instance {} in error state!" [AStr n]))
    | Some fault =>
        n ← name self;
        raise (VMError (Fmt "Instance {} error {}: {} | {}"
                 [AStr n; AInt (Fault.code fault);
                  AStr (Fault.message fault); AStr (Fault.created fault)]))
    end.

Definition _get_networks (self : OpenstackInstance.t) : M W (list (string * list Nic.t)) :=
  raw ← refresh self;
  ret (Server.addresses raw).

Definition ip (self : OpenstackInstance.t) : M W (option string) :=
  networks ← _get_networks self;
  ret (floating_addr networks).

(** [self._raw.update(new_name)].  The request carries the identifier of
    the instance; the only caller has read [self.name] before, which set
    [self._raw]. *)
Definition rename (self : OpenstackInstance.t) (new_name : string) : M W unit :=
  call (ServerUpdate (id self) new_name).

(** A request on [instance], the value [self._raw] had when the method was
    entered: AttributeError when it was [None]. *)
Definition on_instance {T} (instance : option Server.t) (c : Call T) : M W T :=
  match instance with
  | Some _ => call c
  | None => raise AttributeError
  end.

(** Modelled from the spec: wrapanapi.entities.Instance is not part of the
    sources.  [is_running], [is_stopped], [is_suspended] and [is_paused]
    compare the state with the one they name; the module reads them as
    truth values, that is as properties. *)
Definition is_state (s : VmState) (self : OpenstackInstance.t) : M W bool :=
  st ← state self;
  ret (bool_decide (st = s)).

Definition is_running := is_state RUNNING.
Definition is_stopped := is_state STOPPED.
Definition is_suspended := is_state SUSPENDED.
Definition is_paused := is_state PAUSED.

(** *** Floating addresses *)

Definition free_fips (sys : OpenstackSystem.t) (pool : string) : M W (list FloatingIP.t) :=
  found ← call (FloatingIpsFindall (FreeInPool pool));
  ret (sorted FloatingIP.ip found).

(** [lambda: len(self.api.floating_ips.findall(ip=floating_ip.ip)) == 0]. *)
Definition no_longer_listed (addr : string) : M W bool :=
  found ← call (FloatingIpsFindall (ByIp addr));
  ret (bool_decide (length found = 0%nat)).

Definition delete_floating_ip (sys : OpenstackSystem.t) (floating_ip : FipArg) : M W bool :=
  match floating_ip with
  | FipNone => ret false
  | _ =>
      resolved ← match floating_ip with
                 | FipAddress addr =>
                     found ← call (FloatingIpsFindall (ByIp addr));
                     match found with
                     | [] => ret None
                     | _ => fip ← first found; ret (Some fip)
                     end
                 | FipObject fip => ret (Some fip)
                 | FipNone => ret None
                 end;
      match resolved with
      | None => ret false
      | Some fip =>
          log INFO "Deleting floating IP %s/%s"
            [LArg (AStr (FloatingIP.id fip)); LArg (AStr (FloatingIP.ip fip))];;
          call (FloatingIpDelete fip);;
          wait_for (Lambda (no_longer_listed (FloatingIP.ip fip))) 60 1;;
          ret true
      end
  end.

(** Lines 194 to 221 of [assign_floating_ip]: the address one round of the
    loop settles on. *)
Definition choose_floating_ip (self : OpenstackInstance.t) (floating_ip_pool : string)
  : M W FloatingIP.t :=
  free_ips ← free_fips (system self) floating_ip_pool;
  if bool_decide (1 < length free_ips)%nat then
    fip ← first free_ips;
    log INFO "Reusing %s from pool %s"
      [LArg (AStr (FloatingIP.ip fip)); LArg (AStr floating_ip_pool)];;
    ret fip
  else
    fip ← catch (call (FloatingIpsCreate floating_ip_pool))
          (fun e =>
             if is_ClientException e then
               log ERROR_ "Probably no more FIP slots available: %s" [LExn e];;
               free_ips ← free_fips (system self) floating_ip_pool;
               match free_ips with
               | _ :: _ =>
                   fip ← first free_ips;
                   log INFO "Reused %s from pool %s because no more free spaces for new ips"
                     [LArg (AStr (FloatingIP.ip fip)); LArg (AStr floating_ip_pool)];;
                   ret fip
               | [] =>
                   raise (NoMoreFloatingIPs
                            (Fmt "Provider {} ran out of FIPs"
                               [AStr (OpenstackSystem.auth_url (system self))]))
               end
             else raise e);
    log INFO "Created %s in pool %s"
      [LArg (AStr (FloatingIP.ip fip)); LArg (AStr floating_ip_pool)];;
    ret fip.

(** The body of the [while] loop. *)
Definition assign_floating_ip_round (self : OpenstackInstance.t) (instance : option Server.t)
    (floating_ip_pool : string) (safety_timer : nat) : M W FloatingIP.t :=
  fip ← choose_floating_ip self floating_ip_pool;
  on_instance instance (ServerAddFloatingIp (id self) fip);;
  call (Sleep safety_timer);;
  ret fip.

(** [while self.ip is None]; [fip] is the local variable [ip], unbound until
    the body has run once. *)
Fixpoint assign_floating_ip_loop (fuel : nat) (self : OpenstackInstance.t)
    (instance : option Server.t) (floating_ip_pool : string) (safety_timer : nat)
    (fip : option FloatingIP.t) : M W (option FloatingIP.t) :=
  match fuel with
  | O => out_of_fuel
  | S n =>
      observed ← ip self;
      match observed with
      | None =>
          fip' ← assign_floating_ip_round self instance floating_ip_pool safety_timer;
          assign_floating_ip_loop n self instance floating_ip_pool safety_timer (Some fip')
      | Some _ => ret fip
      end
  end.

(** What follows the loop: the log line, the assertion (assertions are taken
    to be enabled) and the return. *)
Definition assign_floating_ip_end (self : OpenstackInstance.t) (fip : option FloatingIP.t)
  : M W (option string) :=
  n ← name self;
  match fip with
  | None => raise UnboundLocalError
  | Some fip =>
      log INFO "Instance %s got a floating IP %s"
        [LArg (AStr n); LArg (AStr (FloatingIP.ip fip))];;
      observed ← ip self;
      if bool_decide (observed = Some (FloatingIP.ip fip)) then
        ret (Some (FloatingIP.ip fip))
      else
        raise (AssertionError (Plain "Current IP does not match reserved floating IP!"))
  end.

Definition assign_floating_ip (fuel : nat) (self : OpenstackInstance.t)
    (floating_ip_pool : string) (safety_timer : nat) : M W (option string) :=
  let instance := _raw self in
  observed ← ip self;
  match observed with
  | Some _ =>
      n ← name self;
      log INFO "Instance %s already has a floating IP" [LArg (AStr n)];;
      ip self
  | None =>
      fip ← assign_floating_ip_loop fuel self instance floating_ip_pool safety_timer None;
      assign_floating_ip_end self fip
  end.

Definition unassign_floating_ip (self : OpenstackInstance.t) : M W (option FloatingIP.t) :=
  let instance := _raw self in
  ip_addr ← ip self;
  match ip_addr with
  | None => ret None
  | Some ip_addr =>
      floating_ips ← call (FloatingIpsFindall (ByIp ip_addr));
      match floating_ips with
      | [] => ret None
      | _ =>
          floating_ip ← first floating_ips;
          match instance with
          | None => raise AttributeError
          | Some server =>
              log INFO "Detaching floating IP %s/%s from %s"
                [LArg (AStr (FloatingIP.id floating_ip));
                 LArg (AStr (FloatingIP.ip floating_ip));
                 LArg (AStr (Server.name server))]
          end;;
          on_instance instance (ServerRemoveFloatingIp (id self) floating_ip);;
          wait_for
            (Lambda (observed ← ip self; ret (bool_decide (observed = None))))
            60 1;;
          ret (Some floating_ip)
      end
  end.

(** *** Power states and deletion *)

Definition delete (self : OpenstackInstance.t) (delete_fip : bool) : M W bool :=
  n ← name self;
  log INFO " Deleting OpenStack instance %s" [LArg (AStr n)];;
  n ← name self;
  log INFO " Unassigning floating IP instance %s" [LArg (AStr n)];;
  (if delete_fip then
     fip ← unassign_floating_ip self;
     delete_floating_ip (system self)
       (match fip with Some fip => FipObject fip | None => FipNone end);;
     ret tt
   else
     unassign_floating_ip self;; ret tt);;
  n ← name self;
  log INFO " Delete in progress instance %s" [LArg (AStr n)];;
  call (ServerDelete (id self));;
  wait_for (Lambda (e ← exists_ self; ret (negb e))) 180 5;;
  ret true.

(** [self.is_running] is read as a truth value in the [if] at the top, so it
    is a property.  In [wait_for(self.is_running,
    message='start {}'.format(self.name))] the arguments are evaluated, first
    the property, then the name, and [wait_for] receives the value of the
    property, a bool, where the other waits of the module pass a lambda. *)
Definition start (self : OpenstackInstance.t) : M W bool :=
  n ← name self;
  log INFO " Starting OpenStack instance %s" [LArg (AStr n)];;
  running ← is_running self;
  if running : bool then ret true
  else
    suspended ← is_suspended self;
    (if suspended : bool then call (ServerResume (id self))
     else
       paused ← is_paused self;
       if paused : bool then call (ServerUnpause (id self))
       else call (ServerStart (id self)));;
    func ← is_running self;
    _ ← name self;
    wait_for (Value func) default_num_sec default_delay;;
    ret true.

Definition stop (self : OpenstackInstance.t) : M W bool :=
  n ← name self;
  log INFO " Stopping OpenStack instance %s" [LArg (AStr n)];;
  stopped ← is_stopped self;
  if stopped : bool then ret true
  else
    call (ServerStop (id self));;
    func ← is_stopped self;
    _ ← name self;
    wait_for (Value func) default_num_sec default_delay;;
    ret true.


(** *** mark_as_template

    The bare [raise] that ends the handler re-raises the exception the
    clause [except Exception as e] is handling, the failure of the [try]
    body: the inner [try] has dealt with a failure of the rename back by
    the time the [raise] is reached. *)
(** The body of the [try]. *)
Definition mark_as_template_steps (self : OpenstackInstance.t) (original_name : string)
  : M W string :=
  wait_for_steady_state (id self);;
  stopped ← is_stopped self;
  (if negb stopped then stop self;; ret tt else ret tt);;
  uuid ← call (ServerCreateImage (id self) original_name);
  wait_for
    (Lambda (image ← call (ImagesGet uuid);
             ret (String.eqb (Image.status image) "ACTIVE")))
    900 5;;
  delete self false;;
  wait_for (Lambda (e ← exists_ self; ret (negb e))) 180 5;;
  ret uuid.

(** The [except Exception as e] clause. *)
Definition mark_as_template_rollback {A} (self : OpenstackInstance.t)
    (original_name copy_name : string) (e : Exn) : M W A :=
  log ERROR_ "Could not mark %s as a OpenStack template! (%s)"
    [LArg (AStr original_name); LExn e];;
  catch (rename self original_name)
    (fun _ =>
       log EXCEPTION "Failed to rename %s back to original name (%s)"
         [LArg (AStr copy_name); LArg (AStr original_name)]);;
  raise e.

Definition mark_as_template (self : OpenstackInstance.t) : M W OpenstackImage.t :=
  n ← name self;
  log INFO "Marking %s as OpenStack template" [LArg (AStr n)];;
  original_name ← name self;
  let copy_name := String.append original_name "_copytemplate" in
  rename self copy_name;;
  uuid ← catch (mark_as_template_steps self original_name)
           (mark_as_template_rollback self original_name copy_name);
  ret (OpenstackImage.mk (system self) uuid None).

(** *** OpenstackSystem: listing and lookup *)

(** The [for ... else] of [_generic_paginator]: the markers are tried in
    turn; [None] when the loop ran to its end without a [break]. *)
Fixpoint try_markers (f : option string -> M W (list Server.t)) (markers : list string)
  : M W (option (list Server.t)) :=
  match markers with
  | [] => ret None
  | marker :: rest =>
      r ← catch (temp_list ← f (Some marker); ret (Some temp_list))
            (fun e =>
               match e with
               | BadRequest => ret None
               | _ => raise e
               end);
      match r with
      | Some temp_list => ret (Some temp_list)
      | None => try_markers f rest
      end
  end.

(** [lists[-(i + 1)].id] for [i] in [range(min(10, len(lists)))]. *)
Definition last_markers (lists : list Server.t) : list string :=
  Server.id <$> take 10 (reverse lists).

(** One turn of the [while True] loop, up to the assignment of [temp_list]. *)
Definition next_page (f : option string -> M W (list Server.t)) (lists : list Server.t)
  : M W (list Server.t) :=
  match lists with
  | [] => f None
  | _ =>
      r ← try_markers f (last_markers lists);
      match r with
      | Some temp_list => ret temp_list
      | None =>
          raise (Exception
                   (Plain "Could not get list, maybe mass deletion after 10 marker tries"))
      end
  end.

Fixpoint _generic_paginator_from (fuel : nat) (f : option string -> M W (list Server.t))
    (lists : list Server.t) : M W (list Server.t) :=
  match fuel with
  | O => out_of_fuel
  | S n =>
      temp_list ← next_page f lists;
      match temp_list with
      | [] => ret lists
      | _ => _generic_paginator_from n f (lists ++ temp_list)
      end
  end.

Definition _generic_paginator (fuel : nat) (f : option string -> M W (list Server.t))
  : M W (list Server.t) :=
  _generic_paginator_from fuel f [].

Fixpoint real_tenants (sys : OpenstackSystem.t) (tenants : list Tenant.t)
  : M W (list Tenant.t) :=
  match tenants with
  | [] => ret []
  | tenant :: rest =>
      users ← call (TenantListUsers tenant);
      let user_list := User.name <$> users in
      others ← real_tenants sys rest;
      ret (if bool_decide (OpenstackSystem.username sys ∈ user_list)
           then tenant :: others else others)
  end.

Definition _get_tenants (sys : OpenstackSystem.t) : M W (list Tenant.t) :=
  if bool_decide (OpenstackSystem.keystone_version sys = 3) then call TenantsList
  else
    tenants ← call TenantsList;
    real_tenants sys tenants.

Definition list_vms (fuel : nat) (sys : OpenstackSystem.t) (filter_tenants : bool)
  : M W (list OpenstackInstance.t) :=
  instances ← _generic_paginator fuel (fun marker => call (ServersList marker));
  instances ← (if filter_tenants then
                 tenants ← _get_tenants sys;
                 let ids := Tenant.id <$> tenants in
                 ret (filter (fun i => Server.tenant_id i ∈ ids) instances)
               else ret instances);
  ret ((fun i => OpenstackInstance.mk sys (Server.id i) (Some i)) <$> instances).

(** The [if / elif / elif] of [find_vms] for one instance. *)
Definition vm_matches (name_ id_ ip_ : option string) (instance : OpenstackInstance.t)
  : M W bool :=
  by_name ← (if truthy name_ then n ← name instance; ret (bool_decide (Some n = name_))
             else ret false);
  if by_name : bool then ret true
  else
    by_ip ← (if truthy ip_ then a ← ip instance; ret (bool_decide (a = ip_))
             else ret false);
    if by_ip : bool then ret true
    else ret (truthy id_ && bool_decide (Some (id instance) = id_)).

Fixpoint find_matches (name_ id_ ip_ : option string) (instances : list OpenstackInstance.t)
  : M W (list OpenstackInstance.t) :=
  match instances with
  | [] => ret []
  | instance :: rest =>
      m ← vm_matches name_ id_ ip_ instance;
      matches ← find_matches name_ id_ ip_ rest;
      ret (if m : bool then instance :: matches else matches)
  end.

Definition find_vms (fuel : nat) (sys : OpenstackSystem.t) (name_ id_ ip_ : option string)
  : M W (list OpenstackInstance.t) :=
  if negb (truthy name_) && negb (truthy ip_) then
    raise (ValueError (Plain "Must find by name, ip, or both"))
  else
    instances ← list_vms fuel sys true;
    find_matches name_ id_ ip_ instances.

(** The keyword arguments that are not [None], for the messages. *)
Definition criteria (name_ id_ ip_ : option string) : list (string * string) :=
  omap (fun '(key, val) => (fun v => (key, v)) <$> val)
    [("name", name_); ("id", id_); ("ip", ip_)].

(** The body of [get_vm] ends after the [elif]: with exactly one match the
    function runs off its end and returns Python's [None]. *)
Definition get_vm (fuel : nat) (sys : OpenstackSystem.t) (name_ id_ ip_ : option string)
  : M W (option OpenstackInstance.t) :=
  let kwargs := criteria name_ id_ ip_ in
  matches ← find_vms fuel sys name_ id_ ip_;
  match matches with
  | [] => raise (VMInstanceNotFound (Fmt "match criteria: {}" [ADict kwargs]))
  | _ :: _ :: _ => raise (MultipleInstancesError (Fmt "match criteria: {}" [ADict kwargs]))
  | [_] => ret None
  end.

End Programs.

(** ** Where the listing resumes

    The states in which [_generic_paginator] goes back to the backend with a
    marker, and what it means that the backend accepts one of the markers it
    is offered there. *)

Section Resumption.
Context {W : Type} `{Env W}.

Fixpoint resumptions (fuel : nat) (f : option string -> M W (list Server.t))
    (lists : list Server.t) (w : W) : list (W * list Server.t) :=
  match fuel with
  | O => []
  | S n =>
      match lists with [] => [] | _ => [(w, lists)] end ++
      match next_page f lists w with
      | (Return (x :: temp_list), w', _) => resumptions n f (lists ++ x :: temp_list) w'
      | _ => []
      end
  end.

(** One of the markers, tried in turn, gets a page; those before it were
    refused with BadRequest. *)
Inductive accepts (f : option string -> M W (list Server.t)) : W -> list string -> Prop :=
| accepts_here w marker rest page w' t :
    f (Some marker) w = (Return page, w', t) ->
    accepts f w (marker :: rest)
| accepts_later w marker rest w' t :
    f (Some marker) w = (Raise BadRequest, w', t) ->
    accepts f w' rest ->
    accepts f w (marker :: rest).

(** Every one of the markers, tried in turn, is refused with BadRequest. *)
Inductive refuses (f : option string -> M W (list Server.t)) : W -> list string -> Prop :=
| refuses_nil w : refuses f w []
| refuses_cons w marker rest w' t :
    f (Some marker) w = (Raise BadRequest, w', t) ->
    refuses f w' rest ->
    refuses f w (marker :: rest).

End Resumption.

(** The servers that follow the one with identifier [marker]. *)
Fixpoint after (marker : string) (l : list Server.t) : list Server.t :=
  match l with
  | [] => []
  | s :: l' => if bool_decide (Server.id s = marker) then l' else after marker l'
  end.

(** ** The listing service

    The compute listing API is an external collaborator.  As the paginator
    expects of it, it keeps the servers in a fixed order and answers a
    request with the page that follows the marker, or with BadRequest when
    the server the marker names no longer exists; other clients delete
    servers between two requests. *)

Module Listing.

Record backend := mk {
  collection : list Server.t;
  requests : nat
}.

Section Service.
(** The length of a page, and the identifiers that other clients delete just
    before the request of a given number is answered. *)
Variable page_size : nat.
Variable deleted_before : nat -> list string.

Definition survivors (n : nat) (l : list Server.t) : list Server.t :=
  filter (fun s => Server.id s ∉ deleted_before n) l.

Definition list_servers (marker : option string) (b : backend)
  : result (list Server.t) * backend :=
  let live := survivors (requests b) (collection b) in
  (match marker with
   | None => Ok (take page_size live)
   | Some m =>
       if bool_decide (m ∈ Server.id <$> live) then Ok (take page_size (after m live))
       else Err BadRequest
   end, mk live (S (requests b))).

Definition respond (T : Type) (c : Call T) (b : backend) : result T * backend :=
  match c in Call T return result T * backend with
  | ServersList marker => list_servers marker b
  | _ => (Err (ClientException "not a listing request"), b)
  end.

Definition env : Env backend :=
  {| handle := respond;
     recursion_limit := 0;
     default_num_sec := 120;
     default_delay := 1;
     _api_state_to_vmstate := fun _ => Err TypeError;
     wait_for_steady_state := fun _ => ret tt |}.

End Service.
End Listing.

(** [state_map] of OpenstackInstance. *)
Definition state_map : list (string * VmState) :=
  [("PAUSED", PAUSED); ("ACTIVE", RUNNING); ("SHUTOFF", STOPPED); ("SUSPENDED", SUSPENDED)].

(** ** A simulated cloud

    A backend to run the programs on: a handful of servers, a pool of
    floating addresses and power commands that take effect at once.  The
    calls are counted; [faults] names the calls that fail and with which
    exception, and [thefts] the calls before which another client moves a
    floating address away from its server, which is left with another
    one. *)

Module Sim.

Record cloud := mk {
  servers : list Server.t;
  floating_ips : list FloatingIP.t;
  images : list Image.t;
  tenants : list (Tenant.t * list User.t);
  spare_addresses : list string;
  page_size : nat;
  clock : nat;
  faults : list (nat * Exn);
  thefts : list (nat * (string * string))
}.

Definition set_servers (l : list Server.t) (w : cloud) : cloud :=
  mk l (floating_ips w) (images w) (tenants w) (spare_addresses w) (page_size w)
    (clock w) (faults w) (thefts w).

Definition set_floating_ips (l : list FloatingIP.t) (w : cloud) : cloud :=
  mk (servers w) l (images w) (tenants w) (spare_addresses w) (page_size w)
    (clock w) (faults w) (thefts w).

Definition set_images (l : list Image.t) (w : cloud) : cloud :=
  mk (servers w) (floating_ips w) l (tenants w) (spare_addresses w) (page_size w)
    (clock w) (faults w) (thefts w).

Definition set_spare_addresses (l : list string) (w : cloud) : cloud :=
  mk (servers w) (floating_ips w) (images w) (tenants w) l (page_size w)
    (clock w) (faults w) (thefts w).

Definition tick (w : cloud) : cloud :=
  mk (servers w) (floating_ips w) (images w) (tenants w) (spare_addresses w) (page_size w)
    (S (clock w)) (faults w) (thefts w).

Definition find_server (i : string) (w : cloud) : option Server.t :=
  head (filter (fun s => Server.id s = i) (servers w)).

Definition update_server (i : string) (f : Server.t -> Server.t) (w : cloud) : cloud :=
  set_servers ((fun s => if bool_decide (Server.id s = i) then f s else s) <$> servers w) w.

Definition with_status (st : string) (s : Server.t) : Server.t :=
  Server.mk (Server.id s) (Server.name s) st (Server.tenant_id s)
    (Server.addresses s) (Server.fault s).

Definition with_name (n : string) (s : Server.t) : Server.t :=
  Server.mk (Server.id s) n (Server.status s) (Server.tenant_id s)
    (Server.addresses s) (Server.fault s).

Definition with_addresses (a : list (string * list Nic.t)) (s : Server.t) : Server.t :=
  Server.mk (Server.id s) (Server.name s) (Server.status s) (Server.tenant_id s)
    a (Server.fault s).

Definition with_fixed_ip (fixed : option string) (f : FloatingIP.t) : FloatingIP.t :=
  FloatingIP.mk (FloatingIP.id f) (FloatingIP.ip f) fixed (FloatingIP.pool f).

(** A command on a server: unknown servers answer 404. *)
Definition on_server (i : string) (f : Server.t -> Server.t) (w : cloud)
  : result unit * cloud :=
  match find_server i w with
  | Some _ => (Ok tt, update_server i f w)
  | None => (Err (NotFound 404), w)
  end.

Definition set_fixed_ip (addr : string) (fixed : option string) (w : cloud) : cloud :=
  set_floating_ips
    ((fun f => if bool_decide (FloatingIP.ip f = addr) then with_fixed_ip fixed f else f)
       <$> floating_ips w) w.

Definition drop_floating (addr : string) (s : Server.t) : Server.t :=
  with_addresses
    ((fun '(net, nics) =>
        (net, filter (fun nic => ¬ (Nic.type nic = "floating" ∧ Nic.addr nic = addr)) nics))
       <$> Server.addresses s) s.

Definition answer (T : Type) (c : Call T) (w : cloud) : result T * cloud :=
  match c in Call T return result T * cloud with
  | ServersGet i =>
      (match find_server i w with Some s => Ok s | None => Err (NotFound 404) end, w)
  | ServersList marker =>
      (match marker with
       | None => Ok (take (page_size w) (servers w))
       | Some m =>
           match find_server m w with
           | Some _ => Ok (take (page_size w) (after m (servers w)))
           | None => Err BadRequest
           end
       end, w)
  | ServerUpdate i new_name => on_server i (with_name new_name) w
  | ServerStart i => on_server i (with_status "ACTIVE") w
  | ServerStop i => on_server i (with_status "SHUTOFF") w
  | ServerResume i => on_server i (with_status "ACTIVE") w
  | ServerUnpause i => on_server i (with_status "ACTIVE") w
  | ServerSuspend i => on_server i (with_status "SUSPENDED") w
  | ServerPause i => on_server i (with_status "PAUSED") w
  | ServerDelete i =>
      match find_server i w with
      | Some _ => (Ok tt, set_servers (filter (fun s => Server.id s ≠ i) (servers w)) w)
      | None => (Err (NotFound 404), w)
      end
  | ServerCreateImage i image_name =>
      match find_server i w with
      | Some _ =>
          let uuid := String.append "image-of-" i in
          (Ok uuid, set_images (Image.mk uuid image_name "ACTIVE" :: images w) w)
      | None => (Err (NotFound 404), w)
      end
  | ServerAddFloatingIp i fip =>
      on_server i
        (fun s => with_addresses
                    (Server.addresses s ++ [("public", [Nic.mk "floating" (FloatingIP.ip fip)])]) s)
        (set_fixed_ip (FloatingIP.ip fip) (Some "192.168.0.2") w)
  | ServerRemoveFloatingIp i fip =>
      on_server i (drop_floating (FloatingIP.ip fip))
        (set_fixed_ip (FloatingIP.ip fip) None w)
  | ImagesGet uuid =>
      (match head (filter (fun im => Image.id im = uuid) (images w)) with
       | Some im => Ok im
       | None => Err (NotFound 404)
       end, w)
  | FloatingIpsFindall (ByIp addr) =>
      (Ok (filter (fun f => FloatingIP.ip f = addr) (floating_ips w)), w)
  | FloatingIpsFindall (FreeInPool pool) =>
      (Ok (filter (fun f => FloatingIP.fixed_ip f = None ∧ FloatingIP.pool f = pool)
             (floating_ips w)), w)
  | FloatingIpsCreate pool =>
      match spare_addresses w with
      | addr :: rest =>
          let fip := FloatingIP.mk (String.append "fip-" addr) addr None pool in
          (Ok fip, set_spare_addresses rest (set_floating_ips (floating_ips w ++ [fip]) w))
      | [] => (Err OverLimit, w)
      end
  | FloatingIpDelete fip =>
      (Ok tt, set_floating_ips
                (filter (fun f => FloatingIP.id f ≠ FloatingIP.id fip) (floating_ips w)) w)
  | TenantsList => (Ok (fst <$> tenants w), w)
  | TenantListUsers tenant =>
      (Ok (concat (snd <$> filter (fun tu => Tenant.id (fst tu) = Tenant.id tenant) (tenants w))),
       w)
  | Sleep _ => (Ok tt, w)
  end.

Definition fault_at (n : nat) (l : list (nat * Exn)) : option Exn :=
  snd <$> head (filter (fun ne => fst ne = n) l).

Definition steal (swap : string * string) (s : Server.t) : Server.t :=
  with_addresses
    ((fun network : string * list Nic.t =>
        (network.1,
         (fun nic => if bool_decide (Nic.type nic = "floating" ∧ Nic.addr nic = swap.1)
                     then Nic.mk "floating" swap.2 else nic) <$> network.2))
       <$> Server.addresses s) s.

Definition interfere (w : cloud) : cloud :=
  match snd <$> head (filter (fun ns => fst ns = clock w) (thefts w)) with
  | Some swap => set_servers (steal swap <$> servers w) w
  | None => w
  end.

Definition respond (T : Type) (c : Call T) (w : cloud) : result T * cloud :=
  let w := interfere w in
  match fault_at (clock w) (faults w) with
  | Some e => (Err e, tick w)
  | None => answer T c (tick w)
  end.

(** Modelled from the spec: wrapanapi.entities.Instance is not part of the
    sources.  The status is looked up in [state_map]; the default case is the
    error state. *)
Definition lookup_state (status : string) : result VmState :=
  match head (filter (fun kv => fst kv = status) state_map) with
  | Some kv => Ok (snd kv)
  | None => Ok ERROR
  end.

(** The cloud under a given mapping of the statuses; its transitions are
    immediate, so every state is steady. *)
Definition env_with (mapping : string -> result VmState) : Env cloud :=
  {| handle := respond;
     recursion_limit := 300;
     default_num_sec := 120;
     default_delay := 1;
     _api_state_to_vmstate := mapping;
     wait_for_steady_state := fun _ => ret tt |}.

Definition env : Env cloud := env_with lookup_state.

End Sim.

(** ** Reading a trace *)

Definition is_read (e : Event) : bool :=
  match e with
  | Ev c _ => match c with ServersGet _ => true | _ => false end
  | Logged _ _ _ => true
  end.

(** The power commands. *)
Definition is_command (e : Event) : bool :=
  match e with
  | Ev c _ =>
      match c with
      | ServerStart _ | ServerStop _ | ServerResume _ | ServerUnpause _
      | ServerSuspend _ | ServerPause _ => true
      | _ => false
      end
  | Logged _ _ _ => false
  end.

Definition is_detach (e : Event) : bool :=
  match e with
  | Ev c _ => match c with ServerRemoveFloatingIp _ _ => true | _ => false end
  | Logged _ _ _ => false
  end.

Definition is_create_address (e : Event) : bool :=
  match e with
  | Ev c _ => match c with FloatingIpsCreate _ => true | _ => false end
  | Logged _ _ _ => false
  end.

(** Every event of every run of [m] satisfies [P]. *)
Definition emits {W A} (P : Event -> Prop) (m : M W A) : Prop :=
  forall w r w' tr, m w = (r, w', tr) -> Forall P tr.

(** The exceptions the backend answered with, in order. *)
Definition failures (tr : list Event) : list Exn :=
  omap (fun e => match e with Ev _ (Err x) => Some x | _ => None end) tr.

(** The names the instance was given, in order. *)
Definition renames (tr : list Event) : list string :=
  omap (fun e =>
          match e with
          | Ev c _ => match c with ServerUpdate _ n => Some n | _ => None end
          | Logged _ _ _ => None
          end) tr.

(** The polls of a wait that found the address [addr] still listed: each
    scan of the addresses equal to [addr], answered with one of [listings],
    and the sleep of [delay] seconds that follows it. *)
Fixpoint polls (addr : string) (delay : nat) (listings : list (list FloatingIP.t))
  : list Event :=
  match listings with
  | [] => []
  | listed :: rest =>
      Ev (FloatingIpsFindall (ByIp addr)) (Ok listed)
      :: Ev (Sleep delay) (Ok tt) :: polls addr delay rest
  end.

(** The order [sorted] sorts by. *)
Definition key_le {A} (key : A -> string) (x y : A) : Prop :=
  String.leb (key x) (key y) = true.

(** ** What the paginator knows of the listing service

    [lists] is what has been accumulated and [coll] what the service still
    holds: the servers of [lists] that are still there, in the order of
    [lists], and then those that have not been seen yet. *)

Definition alive (coll : list Server.t) (s : Server.t) : Prop :=
  Server.id s ∈ Server.id <$> coll.

Global Instance alive_dec coll s : Decision (alive coll s).
Proof. unfold alive. apply _. Defined.

Definition consistent (servers coll lists unseen : list Server.t) : Prop :=
  NoDup (Server.id <$> lists)
  /\ NoDup (Server.id <$> coll)
  /\ coll = filter (alive coll) lists ++ unseen
  /\ (forall s, s ∈ unseen -> Server.id s ∉ Server.id <$> lists)
  /\ (forall s, s ∈ coll -> s ∈ servers)
  /\ (forall s, s ∈ lists -> s ∈ servers).

(** ** Concrete clouds *)

Module Scenario.

Definition sys0 : OpenstackSystem.t :=
  OpenstackSystem.mk "qe" "admin" "secret" "http://keystone.example:5000/v2.0" 2.

Definition tenant1 : Tenant.t := Tenant.mk "tenant-1" "qe".

Definition private_nic : list (string * list Nic.t) :=
  [("private", [Nic.mk "fixed" "192.168.0.2"])].

Definition server (i n st : string) (fault : option Fault.t) : Server.t :=
  Server.mk i n st "tenant-1" private_nic fault.

Definition vm1 : Server.t := server "id-1" "vm1" "SHUTOFF" None.
Definition vm2 : Server.t := server "id-2" "vm2" "ACTIVE" None.

Definition cloud_of (l : list Server.t) (fips : list FloatingIP.t) : Sim.cloud :=
  Sim.mk l fips [] [(tenant1, [User.mk "admin"])] [] 50 0 [] [].

Definition cloud_two_vms : Sim.cloud := cloud_of [vm1; vm2] [].

Definition instance_of (s : Server.t) : OpenstackInstance.t :=
  OpenstackInstance.mk sys0 (Server.id s) (Some s).

(** A server that is being built, with and without a fault record, and one
    in the ERROR status. *)
Definition no_host : Fault.t :=
  Fault.mk 500 "No valid host was found." "2018-06-01T10:00:00Z".
Definition building : Server.t := server "id-3" "vm3" "BUILD" None.
Definition building_with_fault : Server.t := server "id-3" "vm3" "BUILD" (Some no_host).
Definition failed : Server.t := server "id-4" "vm4" "ERROR" (Some no_host).
Definition failed_silently : Server.t := server "id-5" "vm5" "ERROR" None.

(** A suspended server and a paused one. *)
Definition asleep : Server.t := server "id-6" "vm6" "SUSPENDED" None.
Definition frozen : Server.t := server "id-8" "vm8" "PAUSED" None.

(** The stopped server [vm1] in a cloud where taking the snapshot fails (the
    fifth request), and in one where the rename that follows fails as well. *)
Definition cloud_without_snapshots : Sim.cloud :=
  Sim.mk [vm1] [] [] [(tenant1, [User.mk "admin"])] [] 50 0
    [(4%nat, ClientException "snapshot failed")] [].

Definition cloud_without_snapshots_nor_renames : Sim.cloud :=
  Sim.mk [vm1] [] [] [(tenant1, [User.mk "admin"])] [] 50 0
    [(4%nat, ClientException "snapshot failed"); (5%nat, Conflict)] [].

(** A running server with the floating address 10.0.0.5 attached. *)
Definition vm_public : Server.t :=
  Server.mk "id-7" "vm7" "ACTIVE" "tenant-1"
    [("private", [Nic.mk "fixed" "192.168.0.7"]);
     ("public", [Nic.mk "floating" "10.0.0.5"])] None.

Definition fip5 : FloatingIP.t :=
  FloatingIP.mk "fip-5" "10.0.0.5" (Some "192.168.0.7") "ext-net".

Definition cloud_with_attached_address : Sim.cloud := cloud_of [vm_public] [fip5].

(** Floating addresses of the pool ext-net, and a server without one. *)
Definition fip1 : FloatingIP.t := FloatingIP.mk "fip-1" "10.0.0.1" None "ext-net".
Definition fip2 : FloatingIP.t := FloatingIP.mk "fip-2" "10.0.0.2" None "ext-net".

Definition cloud_two_free : Sim.cloud := cloud_of [vm2] [fip2; fip1].
Definition cloud_one_free : Sim.cloud := cloud_of [vm2] [fip2].

(** The pool has one free address and hands out no new one. *)
Definition cloud_exhausted : Sim.cloud := cloud_of [vm2] [fip5].

(** Two free addresses; while the instance sleeps after the attachment (the
    fifth request), 10.0.0.1 is taken away and the server is left with
    10.0.0.9. *)
Definition cloud_with_thief : Sim.cloud :=
  Sim.mk [vm2] [fip2; fip1] [] [(tenant1, [User.mk "admin"])] [] 50 0 []
    [(4%nat, ("10.0.0.1", "10.0.0.9"))].

(** Four servers listed two at a time; the second is deleted by someone else
    just before the second request. *)
Definition four_servers : list Server.t :=
  (fun i => server i i "ACTIVE" None) <$> ["a"; "b"; "c"; "d"].

Definition second_goes (n : nat) : list string :=
  if bool_decide (n = 1%nat) then ["b"] else [].

(** Eleven servers have been accumulated, and the ten newest are gone. *)
Definition eleven_servers : list Server.t :=
  (fun i => server i i "ACTIVE" None) <$>
    ["s01"; "s02"; "s03"; "s04"; "s05"; "s06"; "s07"; "s08"; "s09"; "s10"; "s11"].

Definition only_first_left : Listing.backend := Listing.mk (take 1 eleven_servers) 7.

Definition nobody_deletes (n : nat) : list string := [].

End Scenario.

(** ** More of the module *)

Section More_programs.
Context {W : Type} `{Env W}.
Import OpenstackInstance.

(** [cleanup] of OpenstackInstance. *)
Definition cleanup (self : OpenstackInstance.t) : M W bool :=
  delete self true.



(** [_request_timeout_handler], the [request] method the module installs on
    the client of the compute API.  [c] is the request as
    [SessionClient.request] sends it; [self.request] is the handler itself,
    and the fuel bounds the depth of these calls. *)
Fixpoint _request_timeout_handler (fuel : nat) {T} (c : Call T) (retry_count : Z) : M W T :=
  match fuel with
  | O => out_of_fuel
  | S n =>
      catch (call c)
        (fun e =>
           match e with
           | RequestsTimeout =>
               if bool_decide (3 <= retry_count)%Z then
                 log ERROR_ "nova request timed out after {} retries"
                   [LArg (AInt retry_count)];;
                 raise e
               else
                 let retry_count := (retry_count + 1)%Z in
                 log INFO "nova request timed out; retry {}" [LArg (AInt retry_count)];;
                 _request_timeout_handler n c retry_count
           | _ => raise e
           end)
  end.

End More_programs.

(** ** More to read in a trace *)

(** The requests that ask and change nothing. *)
Definition is_query (e : Event) : bool :=
  match e with
  | Ev c _ =>
      match c with
      | ServersGet _ | ServersList _ | TenantsList | TenantListUsers _ => true
      | _ => false
      end
  | Logged _ _ _ => true
  end.

(** The floating addresses the backend was asked to delete, and those it
    has detached from a server, in order. *)
Definition released (tr : list Event) : list FloatingIP.t :=
  omap (fun e =>
          match e with
          | Ev c _ => match c with FloatingIpDelete fip => Some fip | _ => None end
          | Logged _ _ _ => None
          end) tr.

Definition detached (tr : list Event) : list FloatingIP.t :=
  omap (fun e =>
          match e with
          | Ev c r =>
              match c in Call T return result T -> option FloatingIP.t with
              | ServerRemoveFloatingIp _ fip =>
                  fun r => match r with Ok _ => Some fip | Err _ => None end
              | _ => fun _ => None
              end r
          | Logged _ _ _ => None
          end) tr.

(** The tenants whose users were listed, each with the names of the users
    the backend answered, in order. *)
Definition memberships (tr : list Event) : list (Tenant.t * list string) :=
  omap (fun e =>
          match e with
          | Ev c r =>
              match c in Call T return result T -> option (Tenant.t * list string) with
              | TenantListUsers tenant =>
                  fun r => match r with
                           | Ok users => Some (tenant, User.name <$> users)
                           | Err _ => None
                           end
              | _ => fun _ => None
              end r
          | Logged _ _ _ => None
          end) tr.

(** An event that neither deletes nor detaches a floating address. *)
Definition keeps_addresses (e : Event) : Prop :=
  released [e] = [] /\ detached [e] = [].

(** The trace of [n] attempts at the request [c] that timed out and were
    tried again, the first of them with [retry_count] retries behind it. *)
Fixpoint retried {T} (c : Call T) (retry_count : Z) (n : nat) : list Event :=
  match n with
  | O => []
  | S n =>
      Ev c (Err RequestsTimeout)
      :: Logged INFO "nova request timed out; retry {}" [LArg (AInt (retry_count + 1))]
      :: retried c (retry_count + 1) n
  end.

(** ** A scripted backend

    A backend that follows a script: the lookups of a server and the scans
    of the floating addresses are answered from two lists, in order, and
    with 404 and the empty list once these are used up; every command is
    acknowledged, and no new address is handed out. *)

Module Script.

Record backend := mk {
  lookups : list (result Server.t);
  scans : list (list FloatingIP.t);
  snapshot : result Image.t
}.

Definition respond (T : Type) (c : Call T) (b : backend) : result T * backend :=
  match c in Call T return result T * backend with
  | ServersGet _ =>
      match lookups b with
      | r :: rest => (r, mk rest (scans b) (snapshot b))
      | [] => (Err (NotFound 404), b)
      end
  | FloatingIpsFindall _ =>
      match scans b with
      | found :: rest => (Ok found, mk (lookups b) rest (snapshot b))
      | [] => (Ok [], b)
      end
  | ImagesGet _ => (snapshot b, b)
  | ServersList _ => (Ok [], b)
  | ServerCreateImage i _ => (Ok (String.append "image-of-" i), b)
  | FloatingIpsCreate _ => (Err OverLimit, b)
  | TenantsList => (Ok [], b)
  | TenantListUsers _ => (Ok [], b)
  | ServerUpdate _ _ | ServerStart _ | ServerStop _ | ServerResume _ | ServerUnpause _
  | ServerSuspend _ | ServerPause _ | ServerDelete _ | ServerAddFloatingIp _ _
  | ServerRemoveFloatingIp _ _ | FloatingIpDelete _ | Sleep _ => (Ok tt, b)
  end.

Definition env : Env backend :=
  {| handle := respond;
     recursion_limit := 300;
     default_num_sec := 120;
     default_delay := 1;
     _api_state_to_vmstate := Sim.lookup_state;
     wait_for_steady_state := fun _ => ret tt |}.

End Script.

(** ** More clouds *)

Module Cases.
Import Scenario.




(** Instances built from their identifier alone. *)
Definition bare (i : string) : OpenstackInstance.t := OpenstackInstance.mk sys0 i None.

(** A cloud whose pool is empty and can hand out one new address. *)
Definition cloud_with_spare : Sim.cloud :=
  Sim.mk [vm2] [] [] [(tenant1, [User.mk "admin"])] ["10.0.0.3"] 50 0 [] [].

(** The script of a server that is seen without a floating address once,
    and with 10.0.0.5 from then on. *)
Definition vm7_private : Server.t :=
  Server.mk "id-7" "vm7" "ACTIVE" "tenant-1" [("private", [Nic.mk "fixed" "192.168.0.7"])] None.

Definition address_appears : Script.backend :=
  Script.mk [Ok vm7_private; Ok vm_public; Ok vm_public] [] (Err (NotFound 404)).

(** The script of a server that is still shown after a lookup was answered
    with 404. *)
Definition lingering : Script.backend :=
  Script.mk [Ok vm1; Ok vm1; Ok vm1; Ok vm1; Err (NotFound 404); Ok vm1] []
    (Err (NotFound 404)).


(** Two tenants, of which the user admin belongs to the first only, with a
    server each; and the same user under version 3 of the identity API. *)
Definition tenant2 : Tenant.t := Tenant.mk "tenant-2" "dev".

Definition vm9 : Server.t := Server.mk "id-9" "vm9" "ACTIVE" "tenant-2" private_nic None.

Definition cloud_two_tenants : Sim.cloud :=
  Sim.mk [vm1; vm9] [] [] [(tenant1, [User.mk "admin"]); (tenant2, [User.mk "bob"])]
    [] 50 0 [] [].

Definition sys3 : OpenstackSystem.t :=
  OpenstackSystem.mk "qe" "admin" "secret" "http://keystone.example:5000/v3" 3.

(** The scripts of a floating address that is listed, and still listed at
    two polls after it was deleted; and of one that is listed for ever. *)
Definition listed_twice : Script.backend :=
  Script.mk [] [[fip5]; [fip5]; [fip5]; []] (Err (NotFound 404)).

Definition listed_for_ever : Script.backend :=
  Script.mk [] (replicate 62 [fip5]) (Err (NotFound 404)).

(** A cloud whose first two answers are timeouts, and one whose first four
    are. *)
Definition cloud_slow : Sim.cloud :=
  Sim.mk [vm1] [] [] [(tenant1, [User.mk "admin"])] [] 50 0
    [(0%nat, RequestsTimeout); (1%nat, RequestsTimeout)] [].

Definition cloud_stuck : Sim.cloud :=
  Sim.mk [vm1] [] [] [(tenant1, [User.mk "admin"])] [] 50 0
    [(0%nat, RequestsTimeout); (1%nat, RequestsTimeout);
     (2%nat, RequestsTimeout); (3%nat, RequestsTimeout)] [].

End Cases.


(** * Properties *)

Section Monad_facts.
Context {W : Type}.

Lemma bind_Return {A B} (m : M W A) (k : A -> M W B) w a w1 t1 :
  m w = (Return a, w1, t1) ->
  (m ≫= k) w = (let '(r, w2, t2) := k a w1 in (r, w2, t1 ++ t2)).
Proof. intros E. unfold mbind, M_bind, bind. by rewrite E. Qed.

Lemma bind_Raise {A B} (m : M W A) (k : A -> M W B) w e w1 t1 :
  m w = (Raise e, w1, t1) -> (m ≫= k) w = (Raise e, w1, t1).
Proof. intros E. unfold mbind, M_bind, bind. by rewrite E. Qed.

Lemma bind_OutOfFuel {A B} (m : M W A) (k : A -> M W B) w w1 t1 :
  m w = (OutOfFuel, w1, t1) -> (m ≫= k) w = (OutOfFuel, w1, t1).
Proof. intros E. unfold mbind, M_bind, bind. by rewrite E. Qed.

Lemma bind_Return_inv {A B} (m : M W A) (k : A -> M W B) w b w2 tr :
  (m ≫= k) w = (Return b, w2, tr) ->
  exists a w1 t1 t2,
    m w = (Return a, w1, t1) /\ k a w1 = (Return b, w2, t2) /\ tr = t1 ++ t2.
Proof.
  unfold mbind, M_bind, bind.
  destruct (m w) as [[[a | e |] w1] t1]; try discriminate.
  destruct (k a w1) as [[r w3] t2] eqn:E. intros [= -> -> <-].
  by exists a, w1, t1, t2.
Qed.

(** The trace of a program goes on from the trace of its first part. *)
Lemma bind_extends {A B} (m : M W A) (k : A -> M W B) w r0 w0 t0 :
  m w = (r0, w0, t0) -> exists r w' t', (m ≫= k) w = (r, w', t0 ++ t').
Proof.
  intros E. unfold mbind, M_bind, bind. rewrite E.
  destruct r0 as [a | e |]; [| exists (Raise e), w0, []; by rewrite app_nil_r
                                | exists OutOfFuel, w0, []; by rewrite app_nil_r].
  destruct (k a w0) as [[r w'] t']. by exists r, w', t'.
Qed.

Lemma catch_extends {A} (m : M W A) (h : Exn -> M W A) w r0 w0 t0 :
  m w = (r0, w0, t0) -> exists r w' t', catch m h w = (r, w', t0 ++ t').
Proof.
  intros E. unfold catch. rewrite E.
  destruct r0 as [a | e |]; [exists (Return a), w0, []; by rewrite app_nil_r
                            | | exists OutOfFuel, w0, []; by rewrite app_nil_r].
  destruct (h e w0) as [[r w'] t']. by exists r, w', t'.
Qed.

End Monad_facts.

Section Trace_facts.
Context {W : Type} `{Env W}.
Variable P : Event -> Prop.

Lemma bind_inv {A B} (m : M W A) (k : A -> M W B) w r w' tr :
  (m ≫= k) w = (r, w', tr) ->
  (exists a w1 t1 t2, m w = (Return a, w1, t1) /\ k a w1 = (r, w', t2) /\ tr = t1 ++ t2)
  \/ (exists e, m w = (Raise e, w', tr) /\ r = Raise e)
  \/ (m w = (OutOfFuel, w', tr) /\ r = OutOfFuel).
Proof.
  unfold mbind, M_bind, bind.
  destruct (m w) as [[[a | e |] w1] t1].
  - destruct (k a w1) as [[r2 w2] t2] eqn:E. intros [= <- <- <-].
    left. by exists a, w1, t1, t2.
  - intros [= <- <- <-]. right; left. by exists e.
  - intros [= <- <- <-]. by right; right.
Qed.

Lemma catch_inv {A} (m : M W A) (h : Exn -> M W A) w r w' tr :
  catch m h w = (r, w', tr) ->
  (exists e w1 t1 t2, m w = (Raise e, w1, t1) /\ h e w1 = (r, w', t2) /\ tr = t1 ++ t2)
  \/ (m w = (r, w', tr) /\ forall e, r <> Raise e).
Proof.
  unfold catch.
  destruct (m w) as [[[a | e |] w1] t1].
  - intros [= <- <- <-]. by right.
  - destruct (h e w1) as [[r2 w2] t2] eqn:E. intros [= <- <- <-].
    left. by exists e, w1, t1, t2.
  - intros [= <- <- <-]. by right.
Qed.

Lemma emits_ret {A} (a : A) : emits P (ret a : M W A).
Proof. intros w r w' tr [= <- <- <-]. constructor. Qed.

Lemma emits_raise {A} e : emits P (raise e : M W A).
Proof. intros w r w' tr [= <- <- <-]. constructor. Qed.

Lemma emits_bind {A B} (m : M W A) (k : A -> M W B) :
  emits P m -> (forall a, emits P (k a)) -> emits P (m ≫= k).
Proof.
  intros Hm Hk w r w' tr E.
  apply bind_inv in E as [(a & w1 & t1 & t2 & E1 & E2 & ->) | [(e & E1 & _) | [E1 _]]];
    eauto using Forall_app_2.
  apply Forall_app_2; [by eapply Hm | by eapply Hk].
Qed.

Lemma emits_catch {A} (m : M W A) (h : Exn -> M W A) :
  emits P m -> (forall e, emits P (h e)) -> emits P (catch m h).
Proof.
  intros Hm Hh w r w' tr E.
  apply catch_inv in E as [(e & w1 & t1 & t2 & E1 & E2 & ->) | [E1 _]]; eauto.
  apply Forall_app_2; [by eapply Hm | by eapply Hh].
Qed.

Lemma emits_call {T} (c : Call T) : (forall r, P (Ev c r)) -> emits P (call c).
Proof.
  intros Hc w r w' tr. unfold call. destruct (handle T c w) as [r0 w1].
  intros [= <- <- <-]. by repeat constructor.
Qed.

Lemma emits_log lvl template args :
  P (Logged lvl template args) -> emits P (log lvl template args : M W unit).
Proof. intros Hl w r w' tr [= <- <- <-]. by repeat constructor. Qed.

Lemma emits_of_result {A} (r : result A) : emits P (of_result r : M W A).
Proof. destruct r; [apply emits_ret | apply emits_raise]. Qed.

End Trace_facts.

(** ** Reading the instance *)

Section Reading.
Context {W : Type} `{Env W}.
Import OpenstackInstance.

(** A refresh that returns has asked the backend once, and succeeded. *)
Lemma _get_myself_at_Return depth self w raw w1 t1 :
  _get_myself_at depth self w = (Return raw, w1, t1) ->
  handle _ (ServersGet (id self)) w = (Ok raw, w1)
  /\ t1 = [Ev (ServersGet (id self)) (Ok raw)].
Proof.
  destruct depth as [|d]; cbn [_get_myself_at]; unfold catch, call;
    destruct (handle _ (ServersGet (id self)) w) as [[a | e] w0] eqn:E;
    try (intros [= <- <- <-]; by split).
  - destruct e; try case_bool_decide; cbn; intros [=].
  - destruct e; try case_bool_decide; try (cbn; intros [=]; fail).
    unfold mbind, M_bind, bind.
    destruct (_get_myself_at d self w0) as [[[? | ? |] ?] ?]; cbn; intros [=].
Qed.

Lemma refresh_Return self w raw w1 t1 :
  refresh self w = (Return raw, w1, t1) ->
  handle _ (ServersGet (id self)) w = (Ok raw, w1)
  /\ t1 = [Ev (ServersGet (id self)) (Ok raw)].
Proof. apply _get_myself_at_Return. Qed.

Lemma emits_get_myself_at depth self :
  emits (fun e => is_read e = true) (_get_myself_at depth self).
Proof.
  induction depth as [|d IH]; cbn [_get_myself_at].
  - apply emits_catch; [by apply emits_call |].
    intros []; try case_bool_decide; apply emits_raise.
  - apply emits_catch; [by apply emits_call |].
    intros []; try case_bool_decide; try apply emits_raise.
    apply emits_bind; [done | intros; apply emits_raise].
Qed.

Lemma emits_refresh self : emits (fun e => is_read e = true) (refresh self).
Proof. apply emits_get_myself_at. Qed.

Lemma emits_name self : emits (fun e => is_read e = true) (name self).
Proof. apply emits_bind; [apply emits_refresh | intros; apply emits_ret]. Qed.

Lemma emits_ip self : emits (fun e => is_read e = true) (ip self).
Proof.
  apply emits_bind; [| intros; apply emits_ret].
  apply emits_bind; [apply emits_refresh | intros; apply emits_ret].
Qed.

Lemma emits_state self : emits (fun e => is_read e = true) (state self).
Proof.
  apply emits_bind; [apply emits_refresh |].
  intros inst. destruct (negb _); [apply emits_of_result |].
  destruct (Server.fault inst);
    (apply emits_bind; [apply emits_name | intros; apply emits_raise]).
Qed.

Lemma emits_is_state s self : emits (fun e => is_read e = true) (is_state s self).
Proof. apply emits_bind; [apply emits_state | intros; apply emits_ret]. Qed.

(** A status other than ERROR goes to the mapping, whatever the fault. *)
Lemma state_not_ERROR self w inst w1 t1 :
  refresh self w = (Return inst, w1, t1) ->
  Server.status inst <> "ERROR" ->
  state self w =
    (match _api_state_to_vmstate (Server.status inst) with
     | Ok st => Return st
     | Err e => Raise e
     end, w1, t1).
Proof.
  intros E Hs. unfold state. rewrite (bind_Return _ _ _ _ _ _ E).
  apply String.eqb_neq in Hs. rewrite Hs. cbn [negb].
  destruct (_api_state_to_vmstate _); cbn; by rewrite app_nil_r.
Qed.

Lemma state_ERROR self w inst w1 t1 n w2 t2 :
  refresh self w = (Return inst, w1, t1) ->
  Server.status inst = "ERROR" ->
  name self w1 = (Return n, w2, t2) ->
  state self w =
    (Raise (VMError
              match Server.fault inst with
              | None => Fmt "Instance {} in error state!" [AStr n]
              | Some fault =>
                  Fmt "Instance {} error {}: {} | {}"
                    [AStr n; AInt (Fault.code fault);
                     AStr (Fault.message fault); AStr (Fault.created fault)]
              end), w2, t1 ++ t2).
Proof.
  intros E Hs En. unfold state. rewrite (bind_Return _ _ _ _ _ _ E).
  rewrite Hs. cbn [String.eqb Ascii.eqb Bool.eqb negb].
  destruct (Server.fault inst); rewrite (bind_Return _ _ _ _ _ _ En);
    cbn; by rewrite app_nil_r.
Qed.

(** C9, as amended: the status ERROR, and only it, makes [state] raise a
    VMError, with the code, the message and the time of the fault when the
    server carries one and with the plain message when it carries none; any
    other status, mapped or not, is handed to the mapping of the statuses and
    the fault is not looked at. *)
Theorem state_raises_on_ERROR_only self w inst w1 t1 :
  refresh self w = (Return inst, w1, t1) ->
  (Server.status inst = "ERROR" ->
   forall n w2 t2,
     name self w1 = (Return n, w2, t2) ->
     state self w =
       (Raise (VMError
                 match Server.fault inst with
                 | None => Fmt "Instance {} in error state!" [AStr n]
                 | Some fault =>
                     Fmt "Instance {} error {}: {} | {}"
                       [AStr n; AInt (Fault.code fault);
                        AStr (Fault.message fault); AStr (Fault.created fault)]
                 end), w2, t1 ++ t2))
  /\ (Server.status inst <> "ERROR" ->
      state self w =
        (match _api_state_to_vmstate (Server.status inst) with
         | Ok st => Return st
         | Err e => Raise e
         end, w1, t1)).
Proof.
  intros E. split.
  - intros Hs n w2 t2 En. by apply (state_ERROR _ _ _ w1).
  - intros Hs. by apply state_not_ERROR.
Qed.

End Reading.

Section Reading_examples.
Import Scenario.

(** C9 as stated fails: BUILD is not a key of [state_map], yet whatever the
    mapping of the statuses does with it, reading the state of the building
    server gives the same outcome with and without a fault record, so it
    cannot raise the descriptive error in one case and the plain one in the
    other. *)
Lemma state_of_unmapped_status_ignores_fault :
  ~ (exists mapping : string -> result VmState,
       (@state _ (Sim.env_with mapping) (instance_of building_with_fault)
          (cloud_of [building_with_fault] [])).1.1
       = Raise (VMError (Fmt "Instance {} error {}: {} | {}"
                           [AStr "vm3"; AInt 500; AStr "No valid host was found.";
                            AStr "2018-06-01T10:00:00Z"]))
       /\ (@state _ (Sim.env_with mapping) (instance_of building)
             (cloud_of [building] [])).1.1
          = Raise (VMError (Fmt "Instance {} in error state!" [AStr "vm3"]))).
Proof.
  intros (mapping & E1 & E2).
  rewrite (@state_not_ERROR _ (Sim.env_with mapping) _ _ building_with_fault
             (Sim.tick (cloud_of [building_with_fault] []))
             [Ev (ServersGet "id-3") (Ok building_with_fault)]) in E1 by done.
  rewrite (@state_not_ERROR _ (Sim.env_with mapping) _ _ building
             (Sim.tick (cloud_of [building] []))
             [Ev (ServersGet "id-3") (Ok building)]) in E2 by done.
  cbn in E1, E2. destruct (mapping "BUILD"); congruence.
Qed.

Lemma state_raises_on_ERROR_only_witness :
  (@state _ Sim.env (instance_of failed) (cloud_of [failed] [])).1.1
  = Raise (VMError (Fmt "Instance {} error {}: {} | {}"
                      [AStr "vm4"; AInt 500; AStr "No valid host was found.";
                       AStr "2018-06-01T10:00:00Z"]))
  /\ (@state _ Sim.env (instance_of failed_silently) (cloud_of [failed_silently] [])).1.1
     = Raise (VMError (Fmt "Instance {} in error state!" [AStr "vm5"]))
  /\ (@state _ Sim.env (instance_of building_with_fault)
        (cloud_of [building_with_fault] [])).1.1
     = Return ERROR.
Proof.
  split; [| split].
  - erewrite (proj1 (@state_raises_on_ERROR_only _ Sim.env (instance_of failed)
                       (cloud_of [failed] []) failed _ _ ltac:(reflexivity)));
      [reflexivity | reflexivity | reflexivity].
  - erewrite (proj1 (@state_raises_on_ERROR_only _ Sim.env (instance_of failed_silently)
                       (cloud_of [failed_silently] []) failed_silently _ _
                       ltac:(reflexivity)));
      [reflexivity | reflexivity | reflexivity].
  - erewrite (proj2 (@state_raises_on_ERROR_only _ Sim.env (instance_of building_with_fault)
                       (cloud_of [building_with_fault] []) building_with_fault _ _
                       ltac:(reflexivity)));
      [reflexivity | done].
Defined.

End Reading_examples.

(** ** start *)

Section Start.
Context {W : Type} `{Env W}.
Import OpenstackInstance.

Lemma reads_are_no_commands tr :
  Forall (fun e => is_read e = true) tr -> filter (fun e => is_command e = true) tr = [].
Proof.
  induction 1 as [|e tr He _ IH]; [done |].
  rewrite filter_cons, IH. case_decide as Hc; [| done].
  destruct e as [T c r | ]; [destruct c |]; discriminate.
Qed.

Lemma wait_for_Value_raises {A} b num_sec delay (k : unit -> M W A) w r w' tr :
  (wait_for (Value b) num_sec delay ≫= k) w = (r, w', tr) -> r = Raise TypeError.
Proof. cbn. by intros [= <- _ _]. Qed.

(** [start] answers [True] only when it found the instance running, and then
    it has sent no command: once a command is sent, the wait that follows
    cannot return. *)
Lemma start_returns_without_command self w b w' tr :
  start self w = (Return b, w', tr) ->
  b = true /\ filter (fun e => is_command e = true) tr = [].
Proof.
  unfold start. intros E.
  apply bind_Return_inv in E as (n & w1 & t1 & t2 & En & E & ->).
  apply bind_Return_inv in E as ([] & w2 & t3 & t4 & [= <- <-] & E & ->).
  apply bind_Return_inv in E as (running & w3 & t5 & t6 & Er & E & ->).
  destruct running.
  - injection E as <- <- <-. split; [done |].
    apply reads_are_no_commands. repeat apply Forall_app_2; try by constructor.
    + by eapply emits_name.
    + by eapply emits_is_state.
  - exfalso.
    apply bind_Return_inv in E as (suspended & w4 & t7 & t8 & _ & E & _).
    apply bind_Return_inv in E as ([] & w5 & t9 & t10 & _ & E & _).
    apply bind_Return_inv in E as (func & w6 & t11 & t12 & _ & E & _).
    apply bind_Return_inv in E as (n' & w7 & t13 & t14 & _ & E & _).
    by apply wait_for_Value_raises in E.
Qed.

End Start.

Section Start_examples.
Import Scenario.
Local Existing Instance Sim.env.

(** C5 fails on the code: [start] on a suspended instance sends resume, and
    nothing else, the server wakes up, and the call ends in an exception
    instead of waiting for the RUNNING state and answering [True]. *)
Theorem start_of_suspended_instance_raises :
  let '(r, w', tr) := start (instance_of asleep) (cloud_of [asleep] []) in
  (exists e, r = Raise e)
  /\ filter (fun e => is_command e = true) tr = [Ev (ServerResume "id-6") (Ok tt)]
  /\ Server.status <$> Sim.servers w' = ["ACTIVE"].
Proof. vm_compute. repeat split. by eexists. Qed.

(** On an instance that is running already, [start] answers [True] and has
    sent nothing but reads. *)
Example start_of_running_instance :
  let '(r, w', tr) := start (instance_of vm2) cloud_two_vms in
  r = Return true /\ forallb is_read tr = true.
Proof. vm_compute. by split. Qed.

(** The command depends on the state as intended; the wait that follows is
    what fails. *)
Example start_of_paused_instance :
  let '(r, w', tr) := start (instance_of frozen) (cloud_of [frozen] []) in
  (exists e, r = Raise e)
  /\ filter (fun e => is_command e = true) tr = [Ev (ServerUnpause "id-8") (Ok tt)].
Proof. vm_compute. split; [by eexists | done]. Qed.

Example start_of_stopped_instance :
  let '(r, w', tr) := start (instance_of vm1) cloud_two_vms in
  (exists e, r = Raise e)
  /\ filter (fun e => is_command e = true) tr = [Ev (ServerStart "id-1") (Ok tt)].
Proof. vm_compute. split; [by eexists | done]. Qed.

End Start_examples.

(** ** mark_as_template *)

Section Template.
Context {W : Type} `{Env W}.
Import OpenstackInstance.

(** The handler renames the instance back, logs the failure of that rename
    if it fails, and raises the exception it was entered with. *)
Lemma mark_as_template_rollback_raises {A} self original_name copy_name e w r w1 :
  handle _ (ServerUpdate (id self) original_name) w = (r, w1) ->
  @mark_as_template_rollback _ _ A self original_name copy_name e w =
    (Raise e, w1,
     [Logged ERROR_ "Could not mark %s as a OpenStack template! (%s)"
        [LArg (AStr original_name); LExn e];
      Ev (ServerUpdate (id self) original_name) r]
     ++ match r with
        | Ok _ => []
        | Err _ => [Logged EXCEPTION "Failed to rename %s back to original name (%s)"
                      [LArg (AStr copy_name); LArg (AStr original_name)]]
        end).
Proof.
  intros E. unfold mark_as_template_rollback, rename, catch, call, log, raise.
  unfold mbind, M_bind, bind, ret. cbn. rewrite E. by destruct r as [[] | e'].
Qed.

(** A failure of the snapshot is a failure of the [try] body. *)
Lemma mark_as_template_steps_snapshot_fails self original_name w wa ta wb tb cause w4 :
  wait_for_steady_state (id self) w = (Return tt, wa, ta) ->
  is_stopped self wa = (Return true, wb, tb) ->
  handle _ (ServerCreateImage (id self) original_name) wb = (Err cause, w4) ->
  mark_as_template_steps self original_name w
  = (Raise cause, w4,
     ta ++ tb ++ [Ev (ServerCreateImage (id self) original_name) (Err cause)]).
Proof.
  intros Es Ei Ec. unfold mark_as_template_steps.
  rewrite (bind_Return _ _ _ _ _ _ Es), (bind_Return _ _ _ _ _ _ Ei). cbn [negb].
  unfold call, mbind, M_bind, bind, ret. rewrite Ec. cbn. by rewrite ?app_nil_r.
Qed.

(** C6: [mark_as_template] reads the name of the instance and renames the
    instance to that name followed by _copytemplate; when a step that
    follows fails, whichever it is, it logs the failure, asks the backend
    to give the instance its original name back, logs a failure of that
    rename and goes on, and raises the failure of the step; and so it does
    when it is the snapshot that fails, where the rename back, once
    acknowledged, is the last request sent. *)
Theorem mark_as_template_renames_back_and_reraises
    self w n0 w1 t1 n w2 t2 w3 cause w4 t4 renamed w5 :
  name self w = (Return n0, w1, t1) ->
  name self w1 = (Return n, w2, t2) ->
  handle _ (ServerUpdate (id self) (String.append n "_copytemplate")) w2 = (Ok tt, w3) ->
  handle _ (ServerUpdate (id self) n) w4 = (renamed, w5) ->
  (mark_as_template_steps self n w3 = (Raise cause, w4, t4) ->
   mark_as_template self w
   = (Raise cause, w5,
      t1 ++ [Logged INFO "Marking %s as OpenStack template" [LArg (AStr n0)]]
      ++ t2 ++ [Ev (ServerUpdate (id self) (String.append n "_copytemplate")) (Ok tt)]
      ++ t4
      ++ [Logged ERROR_ "Could not mark %s as a OpenStack template! (%s)"
            [LArg (AStr n); LExn cause];
          Ev (ServerUpdate (id self) n) renamed]
      ++ match renamed with
         | Ok _ => []
         | Err _ => [Logged EXCEPTION "Failed to rename %s back to original name (%s)"
                       [LArg (AStr (String.append n "_copytemplate")); LArg (AStr n)]]
         end))
  /\ (forall wa ta wb tb,
        wait_for_steady_state (id self) w3 = (Return tt, wa, ta) ->
        is_stopped self wa = (Return true, wb, tb) ->
        handle _ (ServerCreateImage (id self) n) wb = (Err cause, w4) ->
        renamed = Ok tt ->
        mark_as_template self w
        = (Raise cause, w5,
           t1 ++ [Logged INFO "Marking %s as OpenStack template" [LArg (AStr n0)]]
           ++ t2 ++ [Ev (ServerUpdate (id self) (String.append n "_copytemplate")) (Ok tt)]
           ++ ta ++ tb
           ++ [Ev (ServerCreateImage (id self) n) (Err cause);
               Logged ERROR_ "Could not mark %s as a OpenStack template! (%s)"
                 [LArg (AStr n); LExn cause];
               Ev (ServerUpdate (id self) n) (Ok tt)])).
Proof.
  intros En0 En Er Eback.
  assert (forall t4,
            mark_as_template_steps self n w3 = (Raise cause, w4, t4) ->
            mark_as_template self w
            = (Raise cause, w5,
               t1 ++ [Logged INFO "Marking %s as OpenStack template" [LArg (AStr n0)]]
               ++ t2 ++ [Ev (ServerUpdate (id self) (String.append n "_copytemplate")) (Ok tt)]
               ++ t4
               ++ [Logged ERROR_ "Could not mark %s as a OpenStack template! (%s)"
                     [LArg (AStr n); LExn cause];
                   Ev (ServerUpdate (id self) n) renamed]
               ++ match renamed with
                  | Ok _ => []
                  | Err _ => [Logged EXCEPTION "Failed to rename %s back to original name (%s)"
                                [LArg (AStr (String.append n "_copytemplate"));
                                 LArg (AStr n)]]
                  end)) as Hfails.
  { intros t Es. unfold mark_as_template.
    rewrite (bind_Return _ _ _ _ _ _ En0).
    unfold mbind at 1, M_bind at 1, bind at 1. cbn [log].
    rewrite (bind_Return _ _ _ _ _ _ En).
    unfold mbind at 1, M_bind at 1, bind at 1. unfold rename at 1, call at 1. rewrite Er.
    unfold mbind at 1, M_bind at 1, bind at 1. unfold catch at 1. rewrite Es.
    rewrite (mark_as_template_rollback_raises _ _ _ _ _ _ _ Eback).
    by rewrite <- ?app_assoc. }
  split; [apply Hfails |].
  intros wa ta wb tb Es Ei Ec ->.
  pose proof (mark_as_template_steps_snapshot_fails _ _ _ _ _ _ _ _ _ Es Ei Ec) as Esteps.
  rewrite (Hfails _ Esteps). by rewrite ?app_nil_r, <- ?app_assoc.
Qed.

End Template.

Section Template_examples.
Import Scenario.
Local Existing Instance Sim.env.

(** The snapshot of [vm1] cannot be taken: the failure of the snapshot is
    raised, and the instance has its name again. *)
Example mark_as_template_rolls_back :
  let '(r, w', tr) := mark_as_template (instance_of vm1) cloud_without_snapshots in
  r = Raise (ClientException "snapshot failed")
  /\ failures tr = [ClientException "snapshot failed"]
  /\ renames tr = ["vm1_copytemplate"; "vm1"]
  /\ Server.name <$> Sim.servers w' = ["vm1"].
Proof. vm_compute. by repeat split. Qed.

(** When the rename back fails as well, its failure is logged and the
    failure of the snapshot is what is raised. *)
Example mark_as_template_swallows_the_rename_failure :
  let '(r, w', tr) := mark_as_template (instance_of vm1) cloud_without_snapshots_nor_renames in
  r = Raise (ClientException "snapshot failed")
  /\ failures tr = [ClientException "snapshot failed"; Conflict]
  /\ last tr = Some (Logged EXCEPTION "Failed to rename %s back to original name (%s)"
                       [LArg (AStr "vm1_copytemplate"); LArg (AStr "vm1")])
  /\ Server.name <$> Sim.servers w' = ["vm1_copytemplate"].
Proof. vm_compute. by repeat split. Qed.

Lemma mark_as_template_renames_back_and_reraises_witness :
  (mark_as_template (instance_of vm1) cloud_without_snapshots_nor_renames
   = (Raise (ClientException "snapshot failed"),
      Sim.tick (Sim.tick (Sim.tick
        (Sim.respond unit (ServerUpdate "id-1" "vm1_copytemplate")
           (Sim.tick (Sim.tick cloud_without_snapshots_nor_renames))).2)),
      [Ev (ServersGet "id-1") (Ok vm1)]
      ++ [Logged INFO "Marking %s as OpenStack template" [LArg (AStr "vm1")]]
      ++ [Ev (ServersGet "id-1") (Ok vm1)]
      ++ [Ev (ServerUpdate "id-1" "vm1_copytemplate") (Ok tt)]
      ++ [Ev (ServersGet "id-1") (Ok (Sim.with_name "vm1_copytemplate" vm1));
          Ev (ServerCreateImage "id-1" "vm1") (Err (ClientException "snapshot failed"))]
      ++ [Logged ERROR_ "Could not mark %s as a OpenStack template! (%s)"
            [LArg (AStr "vm1"); LExn (ClientException "snapshot failed")];
          Ev (ServerUpdate "id-1" "vm1") (Err Conflict)]
      ++ [Logged EXCEPTION "Failed to rename %s back to original name (%s)"
            [LArg (AStr "vm1_copytemplate"); LArg (AStr "vm1")]]))
  /\ (mark_as_template (instance_of vm1) cloud_without_snapshots).1.1
     = Raise (ClientException "snapshot failed")
  /\ Server.name <$>
       Sim.servers (mark_as_template (instance_of vm1) cloud_without_snapshots).1.2
     = ["vm1"].
Proof.
  split; [| split].
  - exact (proj1 (@mark_as_template_renames_back_and_reraises _ Sim.env (instance_of vm1)
                    cloud_without_snapshots_nor_renames
                    "vm1" (Sim.tick cloud_without_snapshots_nor_renames)
                    [Ev (ServersGet "id-1") (Ok vm1)]
                    "vm1" (Sim.tick (Sim.tick cloud_without_snapshots_nor_renames))
                    [Ev (ServersGet "id-1") (Ok vm1)]
                    (Sim.respond unit (ServerUpdate "id-1" "vm1_copytemplate")
                       (Sim.tick (Sim.tick cloud_without_snapshots_nor_renames))).2
                    (ClientException "snapshot failed")
                    (Sim.tick (Sim.tick
                       (Sim.respond unit (ServerUpdate "id-1" "vm1_copytemplate")
                          (Sim.tick (Sim.tick cloud_without_snapshots_nor_renames))).2))
                    [Ev (ServersGet "id-1") (Ok (Sim.with_name "vm1_copytemplate" vm1));
                     Ev (ServerCreateImage "id-1" "vm1")
                       (Err (ClientException "snapshot failed"))]
                    (Err Conflict)
                    (Sim.tick (Sim.tick (Sim.tick
                       (Sim.respond unit (ServerUpdate "id-1" "vm1_copytemplate")
                          (Sim.tick (Sim.tick cloud_without_snapshots_nor_renames))).2)))
                    ltac:(vm_compute; reflexivity) ltac:(vm_compute; reflexivity)
                    ltac:(vm_compute; reflexivity) ltac:(vm_compute; reflexivity))
             ltac:(vm_compute; reflexivity)).
  - rewrite (proj2 (@mark_as_template_renames_back_and_reraises _ Sim.env (instance_of vm1)
                      cloud_without_snapshots
                      "vm1" (Sim.tick cloud_without_snapshots)
                      [Ev (ServersGet "id-1") (Ok vm1)]
                      "vm1" (Sim.tick (Sim.tick cloud_without_snapshots))
                      [Ev (ServersGet "id-1") (Ok vm1)]
                      (Sim.respond unit (ServerUpdate "id-1" "vm1_copytemplate")
                         (Sim.tick (Sim.tick cloud_without_snapshots))).2
                      (ClientException "snapshot failed")
                      (Sim.tick (Sim.tick
                         (Sim.respond unit (ServerUpdate "id-1" "vm1_copytemplate")
                            (Sim.tick (Sim.tick cloud_without_snapshots))).2))
                      []
                      (Ok tt)
                      (Sim.respond unit (ServerUpdate "id-1" "vm1")
                         (Sim.tick (Sim.tick
                            (Sim.respond unit (ServerUpdate "id-1" "vm1_copytemplate")
                               (Sim.tick (Sim.tick cloud_without_snapshots))).2))).2
                      ltac:(vm_compute; reflexivity) ltac:(vm_compute; reflexivity)
                      ltac:(vm_compute; reflexivity) ltac:(vm_compute; reflexivity))
               (Sim.respond unit (ServerUpdate "id-1" "vm1_copytemplate")
                  (Sim.tick (Sim.tick cloud_without_snapshots))).2
               []
               (Sim.tick
                  (Sim.respond unit (ServerUpdate "id-1" "vm1_copytemplate")
                     (Sim.tick (Sim.tick cloud_without_snapshots))).2)
               [Ev (ServersGet "id-1") (Ok (Sim.with_name "vm1_copytemplate" vm1))]
               ltac:(vm_compute; reflexivity) ltac:(vm_compute; reflexivity)
               ltac:(vm_compute; reflexivity) eq_refl).
    reflexivity.
  - vm_compute. reflexivity.
Defined.

End Template_examples.

(** ** wait_for and delete_floating_ip *)

Section Waiting.
Context {W : Type} `{Env W}.

Lemma emits_wait_for_tries P tries delay (body : M W bool) :
  emits P body -> (forall r, P (Ev (Sleep delay) r)) ->
  emits P (wait_for_tries tries delay body).
Proof.
  intros Hb Hs. induction tries as [|n IH]; cbn [wait_for_tries].
  - apply emits_raise.
  - apply emits_bind; [done |]. intros [|]; [apply emits_ret |].
    apply emits_bind; [by apply emits_call | done].
Qed.

(** A wait that returns has just seen its condition hold. *)
Lemma wait_for_tries_Return tries delay (body : M W bool) w u w' tr :
  wait_for_tries tries delay body w = (Return u, w', tr) ->
  exists w0 tr0 t, body w0 = (Return true, w', t) /\ tr = tr0 ++ t.
Proof.
  revert w tr. induction tries as [|n IH]; intros w tr; cbn [wait_for_tries].
  - intros [=].
  - intros E. apply bind_Return_inv in E as (out & w1 & t1 & t2 & Eb & E & ->).
    destruct out.
    + injection E as <- <- <-. exists w, [], t1. by rewrite app_nil_r.
    + apply bind_Return_inv in E as ([] & w2 & t3 & t4 & _ & E & ->).
      apply IH in E as (w0 & tr0 & t & E & ->).
      exists w0, (t1 ++ t3 ++ tr0), t. by rewrite <- !app_assoc.
Qed.

(** A wait does not run forever when its condition does not. *)
Lemma wait_for_tries_ends tries delay (body : M W bool) :
  (forall w, (body w).1.1 <> OutOfFuel) ->
  forall w, (wait_for_tries tries delay body w).1.1 <> OutOfFuel.
Proof.
  intros Hb. induction tries as [|n IH]; intros w; cbn [wait_for_tries]; [done |].
  unfold mbind, M_bind, bind. specialize (Hb w).
  destruct (body w) as [[[[|] | e |] w1] t1]; cbn in *; try done.
  unfold call. destruct (handle _ (Sleep delay) w1) as [[[] | e] w2]; cbn; [| done].
  specialize (IH w2). by destruct (wait_for_tries n delay body w2) as [[[] ?] ?].
Qed.

End Waiting.

Section Release.
Context {W : Type} `{Env W}.

Lemma no_longer_listed_true addr w w' t :
  no_longer_listed addr w = (Return true, w', t) ->
  t = [Ev (FloatingIpsFindall (ByIp addr)) (Ok [])].
Proof.
  unfold no_longer_listed, call, mbind, M_bind, bind, ret.
  destruct (handle _ (FloatingIpsFindall (ByIp addr)) w) as [[found | e] w1]; [| intros [=]].
  intros [= Hl <- <-]. apply bool_decide_eq_true in Hl.
  by destruct found.
Qed.






End Release.

Section Release_examples.
Import Scenario Cases.
Local Existing Instance Sim.env.


(** Detaching is the business of [unassign_floating_ip], which hands the
    floating IP it detached to [delete_floating_ip] in [delete]. *)
Example unassign_floating_ip_detaches :
  let '(r, w', tr) := unassign_floating_ip (instance_of vm_public) cloud_with_attached_address in
  r = Return (Some fip5)
  /\ filter (fun e => is_detach e = true) tr = [Ev (ServerRemoveFloatingIp "id-7" fip5) (Ok tt)].
Proof. vm_compute. by split. Qed.

(** The address is still listed at two polls after its deletion, and gone
    at the third: two sleeps of a second, and [True]. *)
Example delete_floating_ip_polls_again :
  @delete_floating_ip _ Script.env sys0 (FipAddress "10.0.0.5") listed_twice
  = (Return true, Script.mk [] [] (Err (NotFound 404)),
     [Ev (FloatingIpsFindall (ByIp "10.0.0.5")) (Ok [fip5]);
      Logged INFO "Deleting floating IP %s/%s" [LArg (AStr "fip-5"); LArg (AStr "10.0.0.5")];
      Ev (FloatingIpDelete fip5) (Ok tt)]
     ++ polls "10.0.0.5" 1 [[fip5]; [fip5]]
     ++ [Ev (FloatingIpsFindall (ByIp "10.0.0.5")) (Ok [])]).
Proof. vm_compute. reflexivity. Qed.

(** The address stays listed: after 61 polls, each followed by a sleep of
    a second, the wait is given up. *)
Example delete_floating_ip_gives_up_after_a_minute :
  @delete_floating_ip _ Script.env sys0 (FipAddress "10.0.0.5") listed_for_ever
  = (Raise TimedOutError, Script.mk [] [] (Err (NotFound 404)),
     [Ev (FloatingIpsFindall (ByIp "10.0.0.5")) (Ok [fip5]);
      Logged INFO "Deleting floating IP %s/%s" [LArg (AStr "fip-5"); LArg (AStr "10.0.0.5")];
      Ev (FloatingIpDelete fip5) (Ok tt)]
     ++ polls "10.0.0.5" 1 (replicate 61 [fip5])).
Proof. vm_compute. reflexivity. Qed.


End Release_examples.

(** ** Sorting the free addresses *)

Section Sorting.
Context {A : Type} (key : A -> string).

Lemma leb_trans a b c :
  String.leb a b = true -> String.leb b c = true -> String.leb a c = true.
Proof.
  unfold String.leb.
  destruct (String.compare a b) eqn:Eab; [| | done].
  - apply String.compare_eq_iff in Eab as ->. done.
  - destruct (String.compare b c) eqn:Ebc; [| | done]; intros _ _.
    + apply String.compare_eq_iff in Ebc as <-. by rewrite Eab.
    + apply String_as_OT.cmp_lt in Eab, Ebc.
      pose proof (String_as_OT.lt_trans _ _ _ Eab Ebc) as Eac.
      apply String_as_OT.cmp_lt in Eac. unfold String_as_OT.cmp in Eac. by rewrite Eac.
Qed.

Lemma insert_sorted_Permutation x l : insert_sorted key x l ≡ₚ x :: l.
Proof.
  induction l as [|y l IH]; cbn; [done |].
  destruct (String.leb (key x) (key y)); [done |].
  rewrite IH. apply Permutation_swap.
Qed.

Lemma sorted_Permutation l : sorted key l ≡ₚ l.
Proof.
  induction l as [|x l IH]; cbn; [done |].
  fold (sorted key l). by rewrite insert_sorted_Permutation, IH.
Qed.

Lemma insert_sorted_StronglySorted x l :
  StronglySorted (key_le key) l -> StronglySorted (key_le key) (insert_sorted key x l).
Proof.
  induction 1 as [|y l Hs IH Hy]; cbn; [by repeat constructor |].
  destruct (String.leb (key x) (key y)) eqn:E.
  - constructor; [by constructor |].
    constructor; [done |].
    eapply Forall_impl; [exact Hy |]. intros z Hz. by eapply leb_trans.
  - constructor; [done |].
    rewrite insert_sorted_Permutation. constructor; [| done].
    destruct (String.leb_total (key x) (key y)); [congruence | done].
Qed.

Lemma sorted_StronglySorted l : StronglySorted (key_le key) (sorted key l).
Proof.
  induction l as [|x l IH]; cbn; [constructor |].
  by apply insert_sorted_StronglySorted.
Qed.

(** The head of the sorted list is an element with the least key. *)
Lemma sorted_head_least l m :
  head (sorted key l) = Some m ->
  m ∈ l /\ forall x, x ∈ l -> String.leb (key m) (key x) = true.
Proof.
  intros Hh. pose proof (sorted_StronglySorted l) as Hs.
  pose proof (sorted_Permutation l) as Hp.
  destruct (sorted key l) as [|m' rest]; [done |]. injection Hh as ->.
  split; [rewrite <- Hp; left |].
  intros x Hx. rewrite <- Hp in Hx. apply StronglySorted_inv in Hs as [_ Hm].
  apply elem_of_cons in Hx as [-> | Hx].
  - destruct (String.leb_total (key m) (key m)); done.
  - by eapply Forall_forall in Hm.
Qed.

Lemma sorted_length l : length (sorted key l) = length l.
Proof. by rewrite sorted_Permutation. Qed.

End Sorting.

(** ** Choosing an address *)

Section Allocator.
Context {W : Type} `{Env W}.
Import OpenstackInstance.

Lemma free_fips_answer sys pool w found w1 :
  handle _ (FloatingIpsFindall (FreeInPool pool)) w = (Ok found, w1) ->
  free_fips sys pool w
  = (Return (sorted FloatingIP.ip found), w1,
     [Ev (FloatingIpsFindall (FreeInPool pool)) (Ok found)]).
Proof.
  intros E. unfold free_fips, call, mbind, M_bind, bind, ret. by rewrite E.
Qed.

Lemma emits_free_fips sys pool :
  emits (fun e => is_create_address e = false) (free_fips sys pool).
Proof. apply emits_bind; [by apply emits_call | intros; apply emits_ret]. Qed.

(** C3: when the scan of the pool lists two free addresses or more, the round
    settles on the one with the least address, the first of [free_fips], and
    no request to create an address is sent in that round; when it lists one
    or none, the next request asks the backend for a new address. *)
Theorem choose_floating_ip_reuses_least self pool w found w1 :
  handle _ (FloatingIpsFindall (FreeInPool pool)) w = (Ok found, w1) ->
  ((2 <= length found)%nat ->
   exists fip,
     choose_floating_ip self pool w
     = (Return fip, w1,
        [Ev (FloatingIpsFindall (FreeInPool pool)) (Ok found);
         Logged INFO "Reusing %s from pool %s"
           [LArg (AStr (FloatingIP.ip fip)); LArg (AStr pool)]])
     /\ head (sorted FloatingIP.ip found) = Some fip
     /\ fip ∈ found
     /\ (forall other, other ∈ found ->
         String.leb (FloatingIP.ip fip) (FloatingIP.ip other) = true)
     /\ (forall instance safety_timer r w' tr,
         assign_floating_ip_round self instance pool safety_timer w = (r, w', tr) ->
         Forall (fun e => is_create_address e = false) tr))
  /\ ((length found <= 1)%nat ->
      exists r w' asked tr',
        choose_floating_ip self pool w
        = (r, w',
           [Ev (FloatingIpsFindall (FreeInPool pool)) (Ok found);
            Ev (FloatingIpsCreate pool) asked] ++ tr')).
Proof.
  intros E. pose proof (free_fips_answer (system self) pool _ _ _ E) as Ef.
  split; intros Hl.
  - destruct (sorted FloatingIP.ip found) as [|fip rest] eqn:Es.
    { apply (f_equal length) in Es. rewrite sorted_length in Es. cbn in Es. lia. }
    assert (choose_floating_ip self pool w
            = (Return fip, w1,
               [Ev (FloatingIpsFindall (FreeInPool pool)) (Ok found);
                Logged INFO "Reusing %s from pool %s"
                  [LArg (AStr (FloatingIP.ip fip)); LArg (AStr pool)]])) as Ec.
    { unfold choose_floating_ip. rewrite (bind_Return _ _ _ _ _ _ Ef), ?Es.
      rewrite bool_decide_true; [done |].
      apply (f_equal length) in Es. rewrite sorted_length in Es. cbn in *. lia. }
    exists fip. split; [done |]. split; [done |].
    destruct (sorted_head_least FloatingIP.ip found fip) as [Hin Hle]; [by rewrite Es |].
    split; [done |]. split; [done |].
    intros instance safety_timer r w' tr Er. unfold assign_floating_ip_round in Er.
    apply bind_inv in Er as [(a & w2 & t1 & t2 & E1 & Er & ->) | [(? & E1 & _) | [E1 _]]];
      rewrite Ec in E1; try discriminate.
    injection E1 as <- <- <-.
    apply Forall_app_2; [by repeat constructor |].
    revert Er. apply emits_bind.
    + destruct instance; [by apply emits_call | apply emits_raise].
    + intros _. apply emits_bind; [by apply emits_call | intros; apply emits_ret].
  - unfold choose_floating_ip. rewrite (bind_Return _ _ _ _ _ _ Ef).
    rewrite bool_decide_false by (rewrite sorted_length; lia).
    destruct (handle _ (FloatingIpsCreate pool) w1) as [asked w2] eqn:Ea.
    assert (call (FloatingIpsCreate pool) w1
            = (match asked with Ok a => Return a | Err e => Raise e end, w2,
               [Ev (FloatingIpsCreate pool) asked])) as Ecall.
    { unfold call. by rewrite Ea. }
    eapply catch_extends in Ecall as (r1 & w3 & t1 & Ecatch).
    eapply bind_extends in Ecatch as (r & w' & t' & ->).
    exists r, w', asked, (t1 ++ t'). by rewrite <- app_assoc.
Qed.

(** C4: when the request for a new address fails with OverLimit, or any other
    exception of the client, the free addresses of the pool are listed again;
    the first of them is taken when there is one, and nothing is raised;
    NoMoreFloatingIPs is raised when there is none. *)
Theorem choose_floating_ip_over_limit self pool w found w1 e w2 found2 w3 :
  handle _ (FloatingIpsFindall (FreeInPool pool)) w = (Ok found, w1) ->
  (length found <= 1)%nat ->
  handle _ (FloatingIpsCreate pool) w1 = (Err e, w2) ->
  is_ClientException e = true ->
  handle _ (FloatingIpsFindall (FreeInPool pool)) w2 = (Ok found2, w3) ->
  let scans :=
    [Ev (FloatingIpsFindall (FreeInPool pool)) (Ok found);
     Ev (FloatingIpsCreate pool) (Err e);
     Logged ERROR_ "Probably no more FIP slots available: %s" [LExn e];
     Ev (FloatingIpsFindall (FreeInPool pool)) (Ok found2)] in
  match head (sorted FloatingIP.ip found2) with
  | Some fip =>
      choose_floating_ip self pool w
      = (Return fip, w3,
         scans ++
         [Logged INFO "Reused %s from pool %s because no more free spaces for new ips"
            [LArg (AStr (FloatingIP.ip fip)); LArg (AStr pool)];
          Logged INFO "Created %s in pool %s"
            [LArg (AStr (FloatingIP.ip fip)); LArg (AStr pool)]])
  | None =>
      found2 = []
      /\ choose_floating_ip self pool w
         = (Raise (NoMoreFloatingIPs
                     (Fmt "Provider {} ran out of FIPs"
                        [AStr (OpenstackSystem.auth_url (system self))])), w3, scans)
  end.
Proof.
  intros E Hl Ec He E2 scans. subst scans.
  unfold choose_floating_ip, free_fips, catch, call, log, first, raise, ret,
    mbind, M_bind, bind.
  rewrite E. rewrite bool_decide_false by (rewrite sorted_length; lia).
  rewrite Ec, He, E2.
  destruct (sorted FloatingIP.ip found2) as [|fip rest] eqn:Es; cbn.
  - split; [| done].
    apply (f_equal length) in Es. rewrite sorted_length in Es. by destruct found2.
  - done.
Qed.

End Allocator.
Section Allocator_examples.
Import Scenario.

Lemma choose_floating_ip_reuses_least_witness :
  (@choose_floating_ip _ Sim.env (instance_of vm2) "ext-net" cloud_two_free).1.1
  = Return fip1
  /\ exists asked,
       (@choose_floating_ip _ Sim.env (instance_of vm2) "ext-net" cloud_one_free).2 !! 1%nat
       = Some (Ev (FloatingIpsCreate "ext-net") asked).
Proof.
  split.
  - destruct (proj1 (@choose_floating_ip_reuses_least _ Sim.env (instance_of vm2) "ext-net"
                       cloud_two_free [fip2; fip1] (Sim.tick cloud_two_free)
                       ltac:(vm_compute; reflexivity)) ltac:(cbn; lia))
      as (fip & Ec & Hh & _).
    rewrite Ec. vm_compute in Hh. by injection Hh as <-.
  - destruct (proj2 (@choose_floating_ip_reuses_least _ Sim.env (instance_of vm2) "ext-net"
                       cloud_one_free [fip2] (Sim.tick cloud_one_free)
                       ltac:(vm_compute; reflexivity)) ltac:(cbn; lia))
      as (r & w' & asked & tr' & Ec).
    rewrite Ec. by exists asked.
Defined.

Lemma choose_floating_ip_over_limit_witness :
  (@choose_floating_ip _ Sim.env (instance_of vm2) "ext-net" cloud_one_free).1.1
  = Return fip2
  /\ (@choose_floating_ip _ Sim.env (instance_of vm2) "ext-net" cloud_exhausted).1.1
     = Raise (NoMoreFloatingIPs
                (Fmt "Provider {} ran out of FIPs" [AStr "http://keystone.example:5000/v2.0"])).
Proof.
  split.
  - pose proof (@choose_floating_ip_over_limit _ Sim.env (instance_of vm2) "ext-net"
                  cloud_one_free [fip2] (Sim.tick cloud_one_free)
                  OverLimit (Sim.tick (Sim.tick cloud_one_free)) [fip2]
                  (Sim.tick (Sim.tick (Sim.tick cloud_one_free)))
                  ltac:(vm_compute; reflexivity) ltac:(cbn; lia)
                  ltac:(vm_compute; reflexivity) eq_refl
                  ltac:(vm_compute; reflexivity)) as Ec.
    cbn in Ec. by rewrite Ec.
  - pose proof (@choose_floating_ip_over_limit _ Sim.env (instance_of vm2) "ext-net"
                  cloud_exhausted [] (Sim.tick cloud_exhausted)
                  OverLimit (Sim.tick (Sim.tick cloud_exhausted)) []
                  (Sim.tick (Sim.tick (Sim.tick cloud_exhausted)))
                  ltac:(vm_compute; reflexivity) ltac:(cbn; lia)
                  ltac:(vm_compute; reflexivity) eq_refl
                  ltac:(vm_compute; reflexivity)) as Ec.
    cbn in Ec. destruct Ec as [_ Ec]. by rewrite Ec.
Defined.

End Allocator_examples.

(** ** assign_floating_ip *)

Section Assign.
Context {W : Type} `{Env W}.
Import OpenstackInstance.

(** An address that was read is the floating address of the server the
    backend has just returned. *)
Lemma ip_Return self w observed w1 t1 :
  ip self w = (Return observed, w1, t1) ->
  exists raw,
    t1 = [Ev (ServersGet (id self)) (Ok raw)]
    /\ floating_addr (Server.addresses raw) = observed.
Proof.
  unfold ip, _get_networks. intros E.
  apply bind_Return_inv in E as (networks & w2 & t2 & t3 & E & [= <- <- <-] & ->).
  apply bind_Return_inv in E as (raw & w3 & t4 & t5 & E & [= <- <- <-] & ->).
  apply refresh_Return in E as [_ ->]. by exists raw.
Qed.

Lemma assign_floating_ip_end_Return self fip w r w' tr :
  assign_floating_ip_end self fip w = (Return r, w', tr) ->
  exists tr0 raw,
    tr = tr0 ++ [Ev (ServersGet (id self)) (Ok raw)]
    /\ floating_addr (Server.addresses raw) = r.
Proof.
  unfold assign_floating_ip_end. intros E.
  apply bind_Return_inv in E as (n & w1 & t1 & t2 & _ & E & ->).
  destruct fip as [fip |]; [| discriminate].
  apply bind_Return_inv in E as ([] & w2 & t3 & t4 & _ & E & ->).
  apply bind_Return_inv in E as (observed & w3 & t5 & t6 & Eo & E & ->).
  case_bool_decide as Ho; [| discriminate]. injection E as <- <- <-.
  apply ip_Return in Eo as (raw & -> & Hr).
  exists (t1 ++ t3), raw. rewrite app_nil_r, <- !app_assoc. split; [done |].
  by rewrite Hr, Ho.
Qed.

Lemma call_Return {T} (c : Call T) w a w' t :
  call c w = (Return a, w', t) -> t = [Ev c (Ok a)].
Proof.
  unfold call. destruct (handle T c w) as [[a' | e] w1]; [| intros [=]].
  by intros [= <- <- <-].
Qed.

(** A round that ends has attached the address it returns and slept. *)
Lemma assign_floating_ip_round_Return self instance pool safety_timer w fip w' t :
  assign_floating_ip_round self instance pool safety_timer w = (Return fip, w', t) ->
  exists t0,
    t = t0 ++ [Ev (ServerAddFloatingIp (id self) fip) (Ok tt);
               Ev (Sleep safety_timer) (Ok tt)].
Proof.
  unfold assign_floating_ip_round. intros E.
  apply bind_Return_inv in E as (fip' & w1 & t1 & t2 & _ & E & ->).
  apply bind_Return_inv in E as ([] & w2 & t3 & t4 & Ea & E & ->).
  apply bind_Return_inv in E as ([] & w3 & t5 & t6 & Es & [= <- <- <-] & ->).
  destruct instance; [| discriminate].
  apply call_Return in Ea as ->. apply call_Return in Es as ->.
  exists t1. by rewrite app_nil_r.
Qed.

(** When the loop ends, the address it holds is the one it was entered with
    and nothing was sent, or it is the address attached in the last round,
    and since the sleep of that round the instance was only read. *)
Lemma assign_floating_ip_loop_Return fuel self instance pool safety_timer :
  forall held w res w' tr,
    assign_floating_ip_loop fuel self instance pool safety_timer held w
    = (Return res, w', tr) ->
    (res = held /\ Forall (fun e => is_read e = true) tr)
    \/ exists fip tr0 tr1,
         res = Some fip
         /\ tr = tr0 ++ [Ev (ServerAddFloatingIp (id self) fip) (Ok tt);
                         Ev (Sleep safety_timer) (Ok tt)] ++ tr1
         /\ Forall (fun e => is_read e = true) tr1.
Proof.
  induction fuel as [|n IH]; intros held w res w' tr; cbn [assign_floating_ip_loop];
    [intros [=] |].
  intros E. apply bind_Return_inv in E as (observed & w1 & t1 & t2 & Eo & E & ->).
  destruct observed as [a |].
  - injection E as <- <- <-. left. split; [done |].
    rewrite app_nil_r. by eapply emits_ip.
  - apply bind_Return_inv in E as (fip & w2 & t3 & t4 & Er & E & ->).
    apply assign_floating_ip_round_Return in Er as (t0 & ->).
    apply IH in E as [[-> Hreads] | (fip' & tr0 & tr1 & -> & -> & Hreads)]; right.
    + exists fip, (t1 ++ t0), t4. split; [done |]. split; [| done].
      by rewrite <- !app_assoc.
    + exists fip', (t1 ++ (t0 ++ [Ev (ServerAddFloatingIp (id self) fip) (Ok tt);
                                  Ev (Sleep safety_timer) (Ok tt)]) ++ tr0), tr1.
      split; [done |]. split; [| done]. by rewrite <- !app_assoc.
Qed.

(** C2: a call of [assign_floating_ip] that returns has, as its last step,
    fetched the instance again, and the floating address it saw there is the
    value it returns; and when the loop has ended, holding the address it
    attached last, and the address seen afterwards is another one, the
    assertion fails and AssertionError is raised instead. *)
Theorem assign_floating_ip_returns_observed_address self pool safety_timer fuel w :
  (forall r w' tr,
     assign_floating_ip fuel self pool safety_timer w = (Return r, w', tr) ->
     exists tr0 raw,
       tr = tr0 ++ [Ev (ServersGet (id self)) (Ok raw)]
       /\ floating_addr (Server.addresses raw) = r)
  /\ (forall w0 t0 fip w1 t1 n w2 t2 observed w3 t3,
        ip self w = (Return None, w0, t0) ->
        assign_floating_ip_loop fuel self (_raw self) pool safety_timer None w0
        = (Return (Some fip), w1, t1) ->
        name self w1 = (Return n, w2, t2) ->
        ip self w2 = (Return observed, w3, t3) ->
        observed <> Some (FloatingIP.ip fip) ->
        (exists tr0 tr1,
           t1 = tr0 ++ [Ev (ServerAddFloatingIp (id self) fip) (Ok tt);
                        Ev (Sleep safety_timer) (Ok tt)] ++ tr1
           /\ Forall (fun e => is_read e = true) tr1)
        /\ assign_floating_ip fuel self pool safety_timer w
           = (Raise (AssertionError (Plain "Current IP does not match reserved floating IP!")),
              w3,
              t0 ++ t1 ++ t2
              ++ [Logged INFO "Instance %s got a floating IP %s"
                    [LArg (AStr n); LArg (AStr (FloatingIP.ip fip))]]
              ++ t3)).
Proof.
  split.
  - intros r w' tr E. unfold assign_floating_ip in E.
    apply bind_Return_inv in E as (observed & w1 & t1 & t2 & _ & E & ->).
    destruct observed as [a |].
    + apply bind_Return_inv in E as (n & w2 & t3 & t4 & _ & E & ->).
      apply bind_Return_inv in E as ([] & w3 & t5 & t6 & _ & E & ->).
      apply ip_Return in E as (raw & -> & Hr).
      exists (t1 ++ t3 ++ t5), raw. by rewrite <- !app_assoc.
    + apply bind_Return_inv in E as (fip & w2 & t3 & t4 & _ & E & ->).
      apply assign_floating_ip_end_Return in E as (tr0 & raw & -> & Hr).
      exists (t1 ++ t3 ++ tr0), raw. by rewrite <- !app_assoc.
  - intros w0 t0 fip w1 t1 n w2 t2 observed w3 t3 E0 El En Eo Hne. split.
    { apply assign_floating_ip_loop_Return in El
        as [[[=] _] | (fip' & tr0 & tr1 & [= <-] & -> & Hreads)].
      by exists tr0, tr1. }
    unfold assign_floating_ip. rewrite (bind_Return _ _ _ _ _ _ E0).
    rewrite (bind_Return _ _ _ _ _ _ El).
    unfold assign_floating_ip_end. rewrite (bind_Return _ _ _ _ _ _ En).
    unfold log at 1, mbind at 1, M_bind, bind.
    rewrite (bind_Return _ _ _ _ _ _ Eo).
    rewrite bool_decide_false by done. cbn. by rewrite app_nil_r.
Qed.

End Assign.

Section Assign_examples.
Import Scenario.

Lemma assign_floating_ip_returns_observed_address_witness :
  (exists tr0 raw,
     (@assign_floating_ip _ Sim.env 5 (instance_of vm2) "ext-net" 5 cloud_two_free).2
     = tr0 ++ [Ev (ServersGet "id-2") (Ok raw)]
     /\ floating_addr (Server.addresses raw) = Some "10.0.0.1")
  /\ (@assign_floating_ip _ Sim.env 5 (instance_of vm2) "ext-net" 5 cloud_with_thief).1.1
     = Raise (AssertionError (Plain "Current IP does not match reserved floating IP!")).
Proof.
  split.
  - destruct (@assign_floating_ip _ Sim.env 5 (instance_of vm2) "ext-net" 5 cloud_two_free)
      as [[r w'] tr] eqn:E.
    assert (r = Return (Some "10.0.0.1")) as ->.
    { apply (f_equal (fun x => x.1.1)) in E. vm_compute in E. congruence. }
    exact (proj1 (@assign_floating_ip_returns_observed_address _ Sim.env (instance_of vm2)
                    "ext-net" 5%nat 5%nat cloud_two_free) _ _ _ E).
  - edestruct (proj2 (@assign_floating_ip_returns_observed_address _ Sim.env (instance_of vm2)
                        "ext-net" 5%nat 5%nat cloud_with_thief)) as [_ E].
    + vm_compute. reflexivity.
    + vm_compute. reflexivity.
    + vm_compute. reflexivity.
    + vm_compute. reflexivity.
    + vm_compute. discriminate.
    + by rewrite E.
Defined.

End Assign_examples.

(** ** find_vms and get_vm *)

Section Lookup.
Context {W : Type} `{Env W}.

(** What [get_vm] makes of the matches: two of the three cases raise, and the
    third returns [None]. *)
Lemma get_vm_of_matches fuel sys name_ id_ ip_ w matches w' tr :
  find_vms fuel sys name_ id_ ip_ w = (Return matches, w', tr) ->
  get_vm fuel sys name_ id_ ip_ w =
    (match matches with
     | [] => Raise (VMInstanceNotFound
                      (Fmt "match criteria: {}" [ADict (criteria name_ id_ ip_)]))
     | [_] => Return None
     | _ => Raise (MultipleInstancesError
                     (Fmt "match criteria: {}" [ADict (criteria name_ id_ ip_)]))
     end, w', tr).
Proof.
  intros E. unfold get_vm. rewrite (bind_Return _ _ _ _ _ _ E).
  destruct matches as [|? [|? ?]]; cbn; by rewrite app_nil_r.
Qed.

Lemma get_vm_never_returns_an_instance fuel sys name_ id_ ip_ w r w' tr :
  get_vm fuel sys name_ id_ ip_ w = (Return r, w', tr) -> r = None.
Proof.
  intros E. unfold get_vm in E.
  apply bind_Return_inv in E as (matches & w1 & t1 & t2 & _ & E & _).
  destruct matches as [|? [|? ?]]; unfold ret, raise in E; congruence.
Qed.

(** C10: without a name and without an address, [find_vms] raises ValueError
    before it asks the backend anything, whatever identifier it is given, and
    so does [get_vm]. *)
Theorem find_vms_needs_name_or_ip fuel sys id_ w :
  find_vms fuel sys None id_ None w
  = (Raise (ValueError (Plain "Must find by name, ip, or both")), w, [])
  /\ get_vm fuel sys None id_ None w
     = (Raise (ValueError (Plain "Must find by name, ip, or both")), w, []).
Proof. split; reflexivity. Qed.

End Lookup.

Section Lookup_examples.
Import Scenario.
Local Existing Instance Sim.env.

(** C7 fails on the code: exactly one instance is named vm1, [find_vms] finds
    it, and [get_vm] returns [None] instead of it. *)
Theorem get_vm_single_match_returns_None :
  (find_vms 3 sys0 (Some "vm1") None None cloud_two_vms).1.1 = Return [instance_of vm1]
  /\ (get_vm 3 sys0 (Some "vm1") None None cloud_two_vms).1.1 = Return None.
Proof. split; vm_compute; reflexivity. Qed.

(** No match and several matches raise, as documented. *)
Example get_vm_no_match :
  (get_vm 3 sys0 (Some "vm9") None None cloud_two_vms).1.1
  = Raise (VMInstanceNotFound (Fmt "match criteria: {}" [ADict [("name", "vm9")]])).
Proof. vm_compute. reflexivity. Qed.

Example get_vm_two_matches :
  (get_vm 3 sys0 (Some "vm1") (Some "id-2") None cloud_two_vms).1.1
  = Raise (MultipleInstancesError
             (Fmt "match criteria: {}" [ADict [("name", "vm1"); ("id", "id-2")]])).
Proof. vm_compute. reflexivity. Qed.

End Lookup_examples.

(** ** _generic_paginator *)

Section Paginator.
Context {W : Type} `{Env W}.
Variable f : option string -> M W (list Server.t).

Lemma try_markers_accepts w markers :
  accepts f w markers ->
  exists page w' t, try_markers f markers w = (Return (Some page), w', t).
Proof.
  induction 1 as [w marker rest page w' t E | w marker rest w' t E _ (page & w2 & t2 & IH)];
    cbn [try_markers]; unfold catch, mbind, M_bind, bind; rewrite E; cbn.
  - by eexists _, _, _.
  - rewrite IH. by eexists _, _, _.
Qed.

Lemma try_markers_refuses w markers :
  refuses f w markers ->
  exists w' t, try_markers f markers w = (Return None, w', t).
Proof.
  induction 1 as [w | w marker rest w' t E _ (w2 & t2 & IH)]; cbn [try_markers].
  - by eexists _, _.
  - unfold catch, mbind, M_bind, bind. rewrite E. cbn. rewrite IH. by eexists _, _.
Qed.

(** When the backend refuses every marker of the window, the listing is given
    up, whatever an older marker would have fetched. *)
Lemma _generic_paginator_gives_up fuel lists w :
  lists <> [] ->
  refuses f w (last_markers lists) ->
  exists w' t,
    _generic_paginator_from (S fuel) f lists w
    = (Raise (Exception
                (Plain "Could not get list, maybe mass deletion after 10 marker tries")),
       w', t).
Proof.
  intros Hl Hr. apply try_markers_refuses in Hr as (w' & t & E).
  cbn [_generic_paginator_from]. unfold next_page.
  destruct lists as [|s lists]; [done |].
  unfold mbind, M_bind, bind. rewrite E. cbn. by eexists _, _.
Qed.

End Paginator.

(** ** The paginator on the listing service *)

Section Lists.

Lemma filter_all {A} (P : A -> Prop) `{!forall x, Decision (P x)} (l : list A) :
  (forall x, x ∈ l -> P x) -> filter P l = l.
Proof.
  induction l as [|x l IH]; intros Hl; [done |].
  rewrite filter_cons_True by (apply Hl; left). f_equal. apply IH.
  intros y Hy. apply Hl. by right.
Qed.

Lemma filter_none {A} (P : A -> Prop) `{!forall x, Decision (P x)} (l : list A) :
  (forall x, x ∈ l -> ~ P x) -> filter P l = [].
Proof.
  induction l as [|x l IH]; intros Hl; [done |].
  rewrite filter_cons_False by (apply Hl; left). apply IH.
  intros y Hy. apply Hl. by right.
Qed.

Lemma id_in_filter (P : Server.t -> Prop) `{!forall x, Decision (P x)}
    (l : list Server.t) s :
  Server.id s ∈ Server.id <$> filter P l -> Server.id s ∈ Server.id <$> l.
Proof.
  intros (s' & E & Hs')%list_elem_of_fmap. apply list_elem_of_filter in Hs' as [_ Hs'].
  apply list_elem_of_fmap. by exists s'.
Qed.

Lemma after_app (l1 : list Server.t) x l2 :
  Server.id x ∉ Server.id <$> l1 -> after (Server.id x) (l1 ++ x :: l2) = l2.
Proof.
  induction l1 as [|y l1 IH]; cbn; intros Hn.
  - by rewrite bool_decide_true.
  - rewrite bool_decide_false.
    + apply IH. intros Hin. apply Hn. by right.
    + intros E. apply Hn. rewrite E. left.
Qed.

End Lists.

Section Consistency.
Implicit Types servers coll lists unseen : list Server.t.

(** Whatever other clients delete, the paginator's picture stays right. *)
Lemma consistent_shrinks servers coll lists unseen (dead : list string) :
  consistent servers coll lists unseen ->
  consistent servers (filter (fun s => Server.id s ∉ dead) coll) lists
    (filter (fun s => Server.id s ∉ dead) unseen).
Proof.
  intros (Hl & Hc & Hs & Hu & Hcs & Hls).
  split; [done |]. split; [| split; [| split; [| split; [| done]]]].
  - eapply sublist_NoDup; [exact Hc |]. apply fmap_sublist, sublist_filter.
  - rewrite Hs at 1. rewrite filter_app. f_equal.
    rewrite list_filter_filter. apply list_filter_iff. intros s. unfold alive.
    rewrite !list_elem_of_fmap. split.
    + intros [Hd (s' & E & Hs')]. exists s'. split; [done |].
      apply list_elem_of_filter. split; [by rewrite <- E | done].
    + intros (s' & E & [Hd Hs']%list_elem_of_filter).
      split; [by rewrite E | by exists s'].
  - intros s [_ Hin]%list_elem_of_filter. by apply Hu.
  - intros s [_ Hin]%list_elem_of_filter. by apply Hcs.
Qed.

(** A page taken from the servers not seen yet can be added to the list. *)
Lemma consistent_page servers coll lists unseen n :
  consistent servers coll lists unseen ->
  consistent servers coll (lists ++ take n unseen) (drop n unseen).
Proof.
  intros (Hl & Hc & Hs & Hu & Hcs & Hls).
  assert (NoDup (Server.id <$> unseen)) as Hnu.
  { eapply sublist_NoDup; [exact Hc |]. rewrite Hs at 1.
    apply fmap_sublist, sublist_inserts_l. done. }
  rewrite <- (take_drop n unseen), fmap_app in Hnu.
  apply NoDup_app in Hnu as (Hnt & Hdis & Hnd).
  assert (forall s, s ∈ unseen -> s ∈ coll) as Huc.
  { intros s Hin. rewrite Hs. apply elem_of_app. by right. }
  split; [| split; [done | split; [| split; [| split; [done |]]]]].
  - rewrite fmap_app. apply NoDup_app. split; [done |]. split; [| done].
    intros i Hi (s & -> & Hin)%list_elem_of_fmap.
    apply (Hu s); [| done]. by eapply subseteq_take.
  - rewrite filter_app, <- app_assoc. rewrite (filter_all _ (take n unseen)).
    + by rewrite take_drop.
    + intros s Hin. apply list_elem_of_fmap_2, Huc. by eapply subseteq_take.
  - intros s Hin. rewrite fmap_app, not_elem_of_app. split.
    + apply Hu. by eapply subseteq_drop.
    + intros Hi. apply (Hdis _ Hi). by apply list_elem_of_fmap_2.
  - intros s [Hin | Hin]%elem_of_app; [by apply Hls |].
    apply Hcs, Huc. by eapply subseteq_take.
Qed.

(** The marker that is accepted is the last server of the list that is still
    there; what follows it in the collection is what has not been seen. *)
Lemma consistent_after servers coll lists unseen markers1 marker markers2 :
  consistent servers coll lists unseen ->
  last_markers lists = markers1 ++ marker :: markers2 ->
  (forall m, m ∈ markers1 -> m ∉ Server.id <$> coll) ->
  marker ∈ Server.id <$> coll ->
  after marker coll = unseen.
Proof.
  intros (Hl & Hc & Hs & Hu & _ & _) Hm Hdead Hlive. unfold last_markers in Hm.
  apply fmap_app_inv in Hm as (r1 & r2' & -> & Hm2 & Hr). symmetry in Hm2.
  apply fmap_cons_inv in Hm2 as (x & r2 & -> & -> & ->).
  assert (lists = reverse (drop 10 (reverse lists)) ++ reverse r2 ++ x :: reverse r1) as El.
  { pose proof (take_drop 10 (reverse lists)) as Htd. rewrite Hr in Htd.
    apply (f_equal reverse) in Htd.
    rewrite reverse_involutive, !reverse_app, reverse_cons in Htd.
    rewrite <- Htd at 1. by rewrite <- !app_assoc. }
  set (l1 := reverse (drop 10 (reverse lists)) ++ reverse r2) in *.
  rewrite app_assoc in El. fold l1 in El.
  rewrite El in Hs, Hl. rewrite filter_app, filter_cons_True in Hs by done.
  rewrite (filter_none _ (reverse r1)) in Hs.
  - rewrite Hs at 1. rewrite <- app_assoc, <- cons_middle. apply after_app.
    rewrite fmap_app in Hl. apply NoDup_app in Hl as (_ & Hdis & _).
    intros Hin. apply id_in_filter in Hin. apply (Hdis _ Hin). left.
  - intros s Hin Ha. rewrite elem_of_reverse in Hin.
    apply (Hdead (Server.id s)); [by apply list_elem_of_fmap_2 | exact Ha].
Qed.

End Consistency.

Section Service.
Variable page_size : nat.
Variable deleted_before : nat -> list string.
Hypothesis page_size_positive : (0 < page_size)%nat.

Local Abbreviation service := (Listing.env page_size deleted_before).
Local Abbreviation list_page := (fun marker => @call _ service _ (ServersList marker)).
Local Abbreviation live b :=
  (Listing.survivors deleted_before (Listing.requests b) (Listing.collection b)).

Lemma list_page_answer marker b :
  exists t,
    list_page marker b
    = (match marker with
       | None => Return (take page_size (live b))
       | Some m =>
           if bool_decide (m ∈ Server.id <$> live b)
           then Return (take page_size (after m (live b)))
           else Raise BadRequest
       end, Listing.mk (live b) (S (Listing.requests b)), t).
Proof.
  unfold call. cbn. destruct marker as [m |]; [case_bool_decide |]; by eexists.
Qed.

(** What trying the markers in turn comes to: servers may have gone, every
    marker refused names a server that is gone, and the page is what follows
    the first marker that names a server still there. *)
Lemma try_markers_listing markers b r b' t :
  try_markers list_page markers b = (r, b', t) ->
  exists dead : list string,
    Listing.collection b' = filter (fun s => Server.id s ∉ dead) (Listing.collection b)
    /\ ((r = Return None /\ forall m, m ∈ markers -> m ∉ Server.id <$> Listing.collection b')
        \/ exists markers1 marker markers2,
             markers = markers1 ++ marker :: markers2
             /\ (forall m, m ∈ markers1 -> m ∉ Server.id <$> Listing.collection b')
             /\ marker ∈ Server.id <$> Listing.collection b'
             /\ r = Return (Some (take page_size (after marker (Listing.collection b'))))).
Proof.
  revert b t. induction markers as [|m markers IH]; intros b t; cbn [try_markers].
  - intros [= <- <- <-]. exists []. split.
    + symmetry. apply filter_all. intros s _. apply not_elem_of_nil.
    + left. split; [done |]. intros m Hm. by apply elem_of_nil in Hm.
  - destruct (list_page_answer (Some m) b) as (t1 & E1).
    unfold catch, mbind at 1 2, M_bind, bind. rewrite E1.
    case_bool_decide as Hm; cbn.
    + intros [= <- <- <-]. exists (deleted_before (Listing.requests b)).
      split; [done |]. right. exists [], m, markers.
      split; [done |]. split; [| done]. intros m' Hm'. by apply elem_of_nil in Hm'.
    + destruct (try_markers list_page markers
                  (Listing.mk (live b) (S (Listing.requests b)))) as [[r2 b2] t2] eqn:E2.
      intros [= <- <- <-].
      apply IH in E2 as (dead & Hc & Hcases). cbn in Hc.
      exists (dead ++ deleted_before (Listing.requests b)). split.
      * rewrite Hc. unfold Listing.survivors. rewrite list_filter_filter.
        apply list_filter_iff. intros s. rewrite not_elem_of_app. tauto.
      * assert (m ∉ Server.id <$> Listing.collection b2) as Hm2.
        { rewrite Hc. intros (s & -> & Hs)%list_elem_of_fmap. apply Hm.
          apply list_elem_of_filter in Hs as [_ Hs]. by apply list_elem_of_fmap_2. }
        destruct Hcases as [[-> Hall] | (ms1 & m1 & ms2 & -> & Hd & Hl & ->)].
        -- left. split; [done |]. intros m' [-> | Hm']%elem_of_cons; [done | by apply Hall].
        -- right. exists (m :: ms1), m1, ms2. split; [done |]. split; [| done].
           intros m' [-> | Hm']%elem_of_cons; [done | by apply Hd].
Qed.

(** One turn of the loop keeps the picture right, and its page is the first
    servers that had not been seen. *)
Lemma next_page_listing servers b lists unseen page b' t :
  consistent servers (Listing.collection b) lists unseen ->
  next_page list_page lists b = (Return page, b', t) ->
  exists unseen',
    consistent servers (Listing.collection b') lists unseen'
    /\ page = take page_size unseen'
    /\ (length unseen' <= length unseen)%nat.
Proof.
  intros Hc E. destruct lists as [|s lists]; cbn [next_page] in E.
  - destruct (list_page_answer None b) as (t1 & E1). rewrite E1 in E.
    injection E as <- <- <-. cbn [Listing.collection].
    pose proof (consistent_shrinks _ _ _ _ (deleted_before (Listing.requests b)) Hc) as Hc'.
    exists (filter (fun s => Server.id s ∉ deleted_before (Listing.requests b)) unseen).
    split; [done |]. split; [| apply length_filter].
    destruct Hc' as (_ & _ & Hs & _). unfold Listing.survivors. by rewrite Hs at 1.
  - apply bind_Return_inv in E as (r & b1 & t1 & t2 & E1 & E & ->).
    destruct r as [temp_list |]; [| discriminate]. injection E as <- <- <-.
    apply try_markers_listing in E1 as (dead & Hb & [[[=] _] | Hacc]).
    destruct Hacc as (ms1 & m & ms2 & Hm & Hd & Hl & [= ->]).
    pose proof (consistent_shrinks _ _ _ _ dead Hc) as Hc'. rewrite <- Hb in Hc'.
    exists (filter (fun s => Server.id s ∉ dead) unseen).
    split; [done |]. split; [| apply length_filter].
    f_equal. by eapply consistent_after.
Qed.

(** The loop on the listing service: it ends, and what it returns has no
    identifier twice, holds every server the service still has, and only
    servers the service had. *)
Lemma paginator_listing servers fuel :
  forall b lists unseen,
    consistent servers (Listing.collection b) lists unseen ->
    (length unseen < fuel)%nat ->
    Forall (fun p => accepts list_page p.1 (last_markers p.2))
      (resumptions fuel list_page lists b) ->
    exists res b' tr,
      _generic_paginator_from fuel list_page lists b = (Return res, b', tr)
      /\ NoDup (Server.id <$> res)
      /\ (forall s, s ∈ Listing.collection b' -> s ∈ res)
      /\ (forall s, s ∈ res -> s ∈ servers).
Proof.
  induction fuel as [|n IH]; intros b lists unseen Hc Hfuel Hacc; [lia |].
  assert (exists page b1 t1, next_page list_page lists b = (Return page, b1, t1))
    as (page & b1 & t1 & Enext).
  { destruct lists as [|s lists].
    - destruct (list_page_answer None b) as (t1 & E1). by eexists _, _, _.
    - cbn [resumptions] in Hacc. apply Forall_app in Hacc as [Hacc _].
      apply Forall_cons in Hacc as [Hacc _]. cbn [fst snd] in Hacc.
      apply try_markers_accepts in Hacc as (page & b1 & t1 & E1).
      exists page, b1, (t1 ++ []). cbn [next_page].
      by rewrite (bind_Return _ _ _ _ _ _ E1). }
  destruct (next_page_listing _ _ _ _ _ _ _ Hc Enext) as (unseen' & Hc' & Hpage & Hlen).
  cbn [_generic_paginator_from]. rewrite (bind_Return _ _ _ _ _ _ Enext).
  destruct page as [|x temp_list].
  - exists lists, b1, (t1 ++ []). split; [done |].
    destruct Hc' as (Hl & _ & Hs & _ & _ & Hls). split; [done |]. split; [| done].
    symmetry in Hpage. apply take_nil_inv in Hpage as [? | ->]; [lia |].
    intros s. rewrite Hs, app_nil_r. by intros [_ ?]%list_elem_of_filter.
  - cbn [resumptions] in Hacc. rewrite Enext in Hacc. apply Forall_app in Hacc as [_ Hacc].
    pose proof (consistent_page _ _ _ _ page_size Hc') as Hc''. rewrite <- Hpage in Hc''.
    destruct (IH b1 (lists ++ x :: temp_list) (drop page_size unseen') Hc'')
      as (res & b' & tr & -> & Hres); [| done |].
    + rewrite length_drop. destruct unseen'; [by rewrite take_nil in Hpage |]. cbn in *. lia.
    + by exists res, b', (t1 ++ tr).
Qed.

End Service.

(** C1: on a listing service that loses servers to other clients between two
    requests, a listing in which, every time the paginator resumes, one of the
    markers of the ten servers accumulated last is accepted, returns a list
    without a repeated identifier that holds every server the service still
    has; and everywhere, when all the markers tried at a resumption are
    refused, at most ten and the newest first, the listing is given up with
    an exception, whatever an older marker would have fetched. *)
Theorem _generic_paginator_recovers_within_ten_markers :
  (forall page_size deleted_before servers,
     (0 < page_size)%nat ->
     NoDup (Server.id <$> servers) ->
     let list_page :=
       fun marker => @call _ (Listing.env page_size deleted_before) _ (ServersList marker) in
     Forall (fun p => accepts list_page p.1 (last_markers p.2))
       (resumptions (S (length servers)) list_page [] (Listing.mk servers 0)) ->
     exists lists b tr,
       _generic_paginator (S (length servers)) list_page (Listing.mk servers 0)
       = (Return lists, b, tr)
       /\ NoDup (Server.id <$> lists)
       /\ (forall s, s ∈ Listing.collection b -> s ∈ lists)
       /\ (forall s, s ∈ lists -> s ∈ servers))
  /\ (forall W (f : option string -> M W (list Server.t)) fuel lists w,
        lists <> [] ->
        refuses f w (last_markers lists) ->
        length (last_markers lists) = (10 `min` length lists)%nat
        /\ exists w' t,
             _generic_paginator_from (S fuel) f lists w
             = (Raise (Exception
                         (Plain "Could not get list, maybe mass deletion after 10 marker tries")),
                w', t)).
Proof.
  split.
  - intros page_size deleted_before servers Hp Hnd list_page Hacc.
    apply (paginator_listing page_size deleted_before Hp servers _ _ _ servers);
      [| cbn; lia | done].
    split; [constructor |]. split; [done |]. split; [done |].
    split; [intros s _; apply not_elem_of_nil |].
    split; [done |]. intros s Hs. by apply elem_of_nil in Hs.
  - intros W f fuel lists w Hl Hr. split.
    + unfold last_markers. by rewrite length_fmap, length_take, length_reverse.
    + by apply _generic_paginator_gives_up.
Qed.


Ltac accepted :=
  first [ eapply accepts_here; reflexivity
        | eapply accepts_later; [reflexivity | accepted] ].

Ltac refused :=
  first [ apply refuses_nil
        | eapply refuses_cons; [reflexivity | refused] ].

Section Paginator_examples.
Import Scenario.

Lemma _generic_paginator_recovers_within_ten_markers_witness :
  (exists lists b tr,
     _generic_paginator 5 (fun marker => @call _ (Listing.env 2 second_goes) _ (ServersList marker))
       (Listing.mk four_servers 0)
     = (Return lists, b, tr)
     /\ NoDup (Server.id <$> lists)
     /\ (forall s, s ∈ Listing.collection b -> s ∈ lists)
     /\ (forall s, s ∈ lists -> s ∈ four_servers))
  /\ (exists page b t,
        @call _ (Listing.env 2 nobody_deletes) _ (ServersList (Some "s01")) only_first_left
        = (Return page, b, t))
  /\ exists b t,
       _generic_paginator_from 1
         (fun marker => @call _ (Listing.env 2 nobody_deletes) _ (ServersList marker))
         eleven_servers only_first_left
       = (Raise (Exception
                   (Plain "Could not get list, maybe mass deletion after 10 marker tries")),
          b, t).
Proof.
  split; [| split].
  - apply (proj1 _generic_paginator_recovers_within_ten_markers 2%nat second_goes four_servers).
    + lia.
    + apply (bool_decide_unpack _). by vm_compute.
    + match goal with
      | |- Forall ?P ?l => let l' := eval vm_compute in l in change (Forall P l')
      end.
      repeat (apply Forall_cons; split; [cbn [fst snd]; accepted |]). constructor.
  - by eexists _, _, _.
  - apply (proj2 _generic_paginator_recovers_within_ten_markers _ _ 0%nat eleven_servers
             only_first_left).
    + discriminate.
    + refused.
Defined.

End Paginator_examples.

(** ** Programs that end *)

(** No run of [m] stops for want of fuel. *)
Section Ending.
Context {W : Type} `{Env W}.

Lemma ends_bind {A B} (m : M W A) (k : A -> M W B) :
  (forall w, (m w).1.1 <> OutOfFuel) -> (forall a w, (k a w).1.1 <> OutOfFuel) ->
  forall w, ((m ≫= k) w).1.1 <> OutOfFuel.
Proof.
  intros Hm Hk w. unfold mbind, M_bind, bind. specialize (Hm w).
  destruct (m w) as [[[a | e |] w1] t1]; cbn in *; try done.
  specialize (Hk a w1). by destruct (k a w1) as [[r w2] t2].
Qed.

Lemma ends_catch {A} (m : M W A) (h : Exn -> M W A) :
  (forall w, (m w).1.1 <> OutOfFuel) -> (forall e w, (h e w).1.1 <> OutOfFuel) ->
  forall w, (catch m h w).1.1 <> OutOfFuel.
Proof.
  intros Hm Hh w. unfold catch. specialize (Hm w).
  destruct (m w) as [[[a | e |] w1] t1]; cbn in *; try done.
  specialize (Hh e w1). by destruct (h e w1) as [[r w2] t2].
Qed.

Lemma ends_call {T} (c : Call T) w : (call c w).1.1 <> OutOfFuel.
Proof. unfold call. by destruct (handle T c w) as [[a | e] w1]. Qed.

Lemma ends_get_myself_at depth self w : (_get_myself_at depth self w).1.1 <> OutOfFuel.
Proof.
  revert w. induction depth as [|d IH]; cbn [_get_myself_at]; intros w.
  - apply ends_catch; [apply ends_call |]. intros []; try case_bool_decide; done.
  - apply ends_catch; [apply ends_call |]. intros []; try case_bool_decide; try done.
    apply ends_bind; [done | done].
Qed.

Lemma ends_name self w : (name self w).1.1 <> OutOfFuel.
Proof. apply ends_bind; [apply ends_get_myself_at | done]. Qed.

Lemma ends_ip self w : (ip self w).1.1 <> OutOfFuel.
Proof.
  apply ends_bind; [| done]. apply ends_bind; [apply ends_get_myself_at | done].
Qed.



Lemma ends_exists_ self w : (exists_ self w).1.1 <> OutOfFuel.
Proof.
  apply ends_catch.
  - apply ends_bind; [apply ends_get_myself_at | done].
  - by intros [].
Qed.

End Ending.

(** ** exists *)

Section Existence.
Context {W : Type} `{Env W}.
Import OpenstackInstance.

(** Where a VMInstanceNotFound that leaves [_get_myself] comes from: the
    lookup answered 404 and the one made for the message found the server,
    or the backend raised it. *)
Lemma _get_myself_at_VMInstanceNotFound depth self w m w' tr :
  _get_myself_at depth self w = (Raise (VMInstanceNotFound m), w', tr) ->
  exists tr0,
    (exists raw,
       tr = tr0 ++ [Ev (ServersGet (id self)) (Err (NotFound 404));
                    Ev (ServersGet (id self)) (Ok raw)])
    \/ tr = tr0 ++ [Ev (ServersGet (id self)) (Err (VMInstanceNotFound m))].
Proof.
  revert w tr. induction depth as [|d IH]; intros w tr; cbn [_get_myself_at];
    unfold catch, call;
    destruct (handle _ (ServersGet (id self)) w) as [[a | e] w0] eqn:E; try discriminate.
  - destruct e; try case_bool_decide; cbn; intros [=]; subst.
    exists []. by right.
  - destruct e; try case_bool_decide; try (cbn; intros [=]; subst; exists []; by right).
    subst. unfold mbind, M_bind, bind.
    destruct (_get_myself_at d self w0) as [[[raw | e |] w1] t1] eqn:En; cbn.
    + intros [= <- <- <-]. apply _get_myself_at_Return in En as [_ ->].
      exists []. left. by exists raw.
    + intros [= -> <- <-]. apply IH in En as (tr0 & [(raw & ->) | ->]);
        exists (Ev (ServersGet (id self)) (Err (NotFound 404)) :: tr0);
        [left; by exists raw | by right].
    + intros [=].
Qed.

Lemma _get_myself_at_AssertionError depth self w m w' tr :
  _get_myself_at depth self w = (Raise (AssertionError m), w', tr) ->
  exists tr0, tr = tr0 ++ [Ev (ServersGet (id self)) (Err (AssertionError m))].
Proof.
  revert w tr. induction depth as [|d IH]; intros w tr; cbn [_get_myself_at];
    unfold catch, call;
    destruct (handle _ (ServersGet (id self)) w) as [[a | e] w0] eqn:E; try discriminate.
  - destruct e; try case_bool_decide; cbn; intros [=]; subst. by exists [].
  - destruct e; try case_bool_decide; try (cbn; intros [=]; subst; by exists []).
    subst. unfold mbind, M_bind, bind.
    destruct (_get_myself_at d self w0) as [[[raw | e |] w1] t1] eqn:En; cbn.
    + intros [=].
    + intros [= -> <- <-]. apply IH in En as (tr0 & ->).
      by exists (Ev (ServersGet (id self)) (Err (NotFound 404)) :: tr0).
    + intros [=].
Qed.

(** What [exists] has seen last when it answers [False]. *)
Lemma exists_False self w w' tr :
  exists_ self w = (Return false, w', tr) ->
  exists tr0,
    (exists raw,
       tr = tr0 ++ [Ev (ServersGet (id self)) (Err (NotFound 404));
                    Ev (ServersGet (id self)) (Ok raw)])
    \/ (exists m, tr = tr0 ++ [Ev (ServersGet (id self)) (Err (VMInstanceNotFound m))])
    \/ (exists m, tr = tr0 ++ [Ev (ServersGet (id self)) (Err (AssertionError m))]).
Proof.
  unfold exists_. intros E.
  apply catch_inv in E as [(e & w1 & t1 & t2 & E1 & E2 & ->) | [E1 _]].
  - apply bind_inv in E1 as [(a & w2 & t3 & t4 & _ & [=] & _) | [(e' & E1 & [= <-]) | [_ [=]]]].
    destruct e; try discriminate; injection E2 as <- <-; rewrite app_nil_r.
    + apply _get_myself_at_VMInstanceNotFound in E1 as (tr0 & [? | ?]);
        exists tr0; [by left | right; left; by exists m].
    + apply _get_myself_at_AssertionError in E1 as (tr0 & ->).
      exists tr0. right; right. by exists m.
  - apply bind_Return_inv in E1 as (a & w2 & t3 & t4 & _ & [=] & _).
Qed.

(** On a backend that answers the lookup with 404 and goes on doing so, the
    lookup is repeated until the interpreter allows no further call. *)
Lemma _get_myself_at_gone (gone : W -> Prop) self :
  (forall w, gone w ->
     exists w', handle _ (ServersGet (id self)) w = (Err (NotFound 404), w') /\ gone w') ->
  forall depth w, gone w ->
    exists w',
      _get_myself_at depth self w
      = (Raise RuntimeError, w',
         replicate (S depth) (Ev (ServersGet (id self)) (Err (NotFound 404))))
      /\ gone w'.
Proof.
  intros Hgone. induction depth as [|d IH]; intros w Hw; cbn [_get_myself_at];
    destruct (Hgone w Hw) as (w1 & E & Hw1); unfold catch, call; rewrite E;
    rewrite bool_decide_true by done.
  - by eexists.
  - destruct (IH w1 Hw1) as (w2 & E2 & Hw2).
    unfold mbind, M_bind, bind. rewrite E2. by exists w2.
Qed.


(** X2: On a backend that answers every lookup of the instance with 404, as
    for a server that was deleted, [exists] does not answer [False]: the
    lookup is sent once more than the interpreter allows nested calls, and
    RuntimeError is raised; and so ends the wait for [not self.exists] of
    [delete] and [mark_as_template], at its first try. *)
Theorem exists_of_missing_instance_raises (gone : W -> Prop) self w :
  (forall w, gone w ->
     exists w', handle _ (ServersGet (id self)) w = (Err (NotFound 404), w') /\ gone w') ->
  gone w ->
  exists w',
    gone w'
    /\ exists_ self w
       = (Raise RuntimeError, w',
          replicate (S recursion_limit) (Ev (ServersGet (id self)) (Err (NotFound 404))))
    /\ forall num_sec delay,
         wait_for (Lambda (e ← exists_ self; ret (negb e))) num_sec delay w
         = (Raise RuntimeError, w',
            replicate (S recursion_limit) (Ev (ServersGet (id self)) (Err (NotFound 404)))).
Proof.
  intros Hgone Hw.
  destruct (_get_myself_at_gone gone self Hgone recursion_limit w Hw) as (w' & E & Hw').
  assert (exists_ self w
          = (Raise RuntimeError, w',
             replicate (S recursion_limit) (Ev (ServersGet (id self)) (Err (NotFound 404)))))
    as Ee.
  { unfold exists_, _get_myself, catch, mbind, M_bind, bind. rewrite E.
    unfold raise. by rewrite app_nil_r. }
  exists w'. split; [done |]. split; [done |].
  intros num_sec delay. unfold wait_for. rewrite Nat.add_1_r. cbn [wait_for_tries].
  unfold mbind at 1, M_bind at 1, bind at 1.
  unfold mbind at 1, M_bind at 1, bind at 1. by rewrite Ee.
Qed.

End Existence.

(** The simulated cloud goes on answering 404 for a server it does not
    hold, as long as no fault and no theft is scheduled. *)
Lemma Sim_gone i (w : Sim.cloud) :
  Sim.find_server i w = None /\ Sim.faults w = [] /\ Sim.thefts w = [] ->
  exists w',
    Sim.respond _ (ServersGet i) w = (Err (NotFound 404), w')
    /\ (Sim.find_server i w' = None /\ Sim.faults w' = [] /\ Sim.thefts w' = []).
Proof.
  intros (Hs & Hf & Ht). exists (Sim.tick w).
  unfold Sim.respond, Sim.interfere. rewrite Ht. cbn [head fmap option_fmap option_map filter list_filter].
  rewrite Hf. cbn. unfold Sim.find_server in *. cbn. by rewrite Hs.
Qed.

Section Existence_examples.
Import Scenario Cases.


Lemma exists_of_missing_instance_raises_witness :
  exists w',
    (Sim.find_server "id-1" w' = None /\ Sim.faults w' = [] /\ Sim.thefts w' = [])
    /\ @exists_ _ Sim.env (instance_of vm1) (cloud_of [vm2] [])
       = (Raise RuntimeError, w',
          replicate 301 (Ev (ServersGet "id-1") (Err (NotFound 404))))
    /\ forall num_sec delay,
         @wait_for _ Sim.env
           (Lambda (e ← @exists_ _ Sim.env (instance_of vm1); ret (negb e))) num_sec delay
           (cloud_of [vm2] [])
         = (Raise RuntimeError, w',
            replicate 301 (Ev (ServersGet "id-1") (Err (NotFound 404)))).
Proof.
  apply (@exists_of_missing_instance_raises _ Sim.env
           (fun w => Sim.find_server "id-1" w = None /\ Sim.faults w = [] /\ Sim.thefts w = [])
           (instance_of vm1) (cloud_of [vm2] [])).
  - intros w. apply Sim_gone.
  - by vm_compute.
Defined.

End Existence_examples.

(** ** stop, suspend, pause and restart *)

Section Power.
Context {W : Type} `{Env W}.
Import OpenstackInstance.













End Power.

Section Power_examples.
Import Scenario Cases.



End Power_examples.

(** ** Floating addresses *)

Section Addresses.
Context {W : Type} `{Env W}.
Import OpenstackInstance.

(** X5: [free_fips] sends one request; what it returns is what the backend
    listed as free in the pool, each address as often as it was listed, in
    ascending order of the addresses read as strings, the order of the
    backend being kept among equal ones; a failure of the request is
    raised as it is. *)
Theorem free_fips_sorted sys pool w r w1 :
  handle _ (FloatingIpsFindall (FreeInPool pool)) w = (r, w1) ->
  match r with
  | Ok found =>
      exists free_ips,
        free_fips sys pool w
        = (Return free_ips, w1, [Ev (FloatingIpsFindall (FreeInPool pool)) (Ok found)])
        /\ free_ips ≡ₚ found
        /\ StronglySorted (key_le FloatingIP.ip) free_ips
  | Err e =>
      free_fips sys pool w
      = (Raise e, w1, [Ev (FloatingIpsFindall (FreeInPool pool)) (Err e)])
  end.
Proof.
  intros E. destruct r as [found | e].
  - exists (sorted FloatingIP.ip found). split; [by apply free_fips_answer |].
    split; [apply sorted_Permutation | apply sorted_StronglySorted].
  - unfold free_fips, call, mbind, M_bind, bind. by rewrite E.
Qed.

(** The wait of [unassign_floating_ip] returns after a lookup that showed no
    floating address. *)
Lemma wait_for_no_address self tries delay w u w' tr :
  wait_for_tries tries delay (observed ← ip self; ret (bool_decide (observed = None))) w
  = (Return u, w', tr) ->
  exists tr0 raw,
    tr = tr0 ++ [Ev (ServersGet (id self)) (Ok raw)]
    /\ floating_addr (Server.addresses raw) = None
    /\ Forall (fun e => is_detach e = false) tr.
Proof.
  intros E.
  assert (Forall (fun e => is_detach e = false) tr) as Hd.
  { eapply emits_wait_for_tries; [| | exact E]; [| done].
    apply emits_bind; [| intros; apply emits_ret].
    intros w0 r0 w0' tr0 E0. eapply Forall_impl; [by eapply emits_ip |].
    intros [T c r1 |]; [by destruct c | done]. }
  apply wait_for_tries_Return in E as (w0 & tr0 & t & E & ->).
  apply bind_Return_inv in E as (observed & w1 & t1 & t2 & Eo & [= Hb <- <-] & ->).
  apply bool_decide_eq_true in Hb as ->.
  apply ip_Return in Eo as (raw & -> & Hr).
  exists tr0, raw. by rewrite app_nil_r.
Qed.

(** What [unassign_floating_ip] has done when it returns. *)
Lemma unassign_floating_ip_Return self w r w' tr :
  unassign_floating_ip self w = (Return r, w', tr) ->
  match r with
  | None => Forall (fun e => is_detach e = false) tr /\ detached tr = [] /\ released tr = []
  | Some fip =>
      exists raw0 addr rest server tr1 raw1,
        _raw self = Some server
        /\ tr = [Ev (ServersGet (id self)) (Ok raw0);
              Ev (FloatingIpsFindall (ByIp addr)) (Ok (fip :: rest));
              Logged INFO "Detaching floating IP %s/%s from %s"
                [LArg (AStr (FloatingIP.id fip)); LArg (AStr (FloatingIP.ip fip));
                 LArg (AStr (Server.name server))];
              Ev (ServerRemoveFloatingIp (id self) fip) (Ok tt)]
             ++ tr1 ++ [Ev (ServersGet (id self)) (Ok raw1)]
        /\ floating_addr (Server.addresses raw0) = Some addr
        /\ floating_addr (Server.addresses raw1) = None
        /\ Forall (fun e => is_detach e = false) tr1
  end.
Proof.
  unfold unassign_floating_ip. intros E.
  apply bind_Return_inv in E as (ip_addr & w1 & t1 & t2 & Ei & E & ->).
  apply ip_Return in Ei as (raw0 & -> & Hraw0).
  destruct ip_addr as [addr |]; [| injection E as <- <- <-; by repeat constructor].
  apply bind_Return_inv in E as (floating_ips & w2 & t3 & t4 & Ef & E & ->).
  apply call_Return in Ef as ->.
  destruct floating_ips as [|fip rest]; [injection E as <- <- <-; by repeat constructor |].
  apply bind_Return_inv in E as (floating_ip & w3 & t5 & t6 & [= <- <- <-] & E & ->).
  apply bind_Return_inv in E as ([] & w4 & t7 & t8 & El & E & ->).
  destruct (_raw self) as [server |] eqn:Eraw; [| discriminate].
  injection El as <- <-.
  apply bind_Return_inv in E as ([] & w5 & t9 & t10 & Er & E & ->).
  apply call_Return in Er as ->.
  apply bind_Return_inv in E as ([] & w6 & t11 & t12 & Ew & [= <- <- <-] & ->).
  apply wait_for_no_address in Ew as (tr0 & raw1 & -> & Hraw1 & Hd).
  exists raw0, addr, rest, server, tr0, raw1.
  rewrite app_nil_r. split; [done |]. split; [done |]. split; [done |]. split; [done |].
  by apply Forall_app in Hd as [Hd _].
Qed.

(** X6: [unassign_floating_ip] returns a floating IP only when the backend has
    listed it first for the address of the instance, has acknowledged the
    request to detach it from the instance, and a later lookup, the last
    thing done, showed the instance without a floating address; when it
    returns [None], no request to detach anything was sent. *)
Theorem unassign_floating_ip_detaches_what_it_returns self w r w' tr :
  unassign_floating_ip self w = (Return r, w', tr) ->
  match r with
  | None => Forall (fun e => is_detach e = false) tr
  | Some fip =>
      exists raw0 addr rest server tr1 raw1,
        _raw self = Some server
        /\ tr = [Ev (ServersGet (id self)) (Ok raw0);
              Ev (FloatingIpsFindall (ByIp addr)) (Ok (fip :: rest));
              Logged INFO "Detaching floating IP %s/%s from %s"
                [LArg (AStr (FloatingIP.id fip)); LArg (AStr (FloatingIP.ip fip));
                 LArg (AStr (Server.name server))];
              Ev (ServerRemoveFloatingIp (id self) fip) (Ok tt)]
             ++ tr1 ++ [Ev (ServersGet (id self)) (Ok raw1)]
        /\ floating_addr (Server.addresses raw0) = Some addr
        /\ floating_addr (Server.addresses raw1) = None
        /\ Forall (fun e => is_detach e = false) tr1
  end.
Proof.
  intros E. apply unassign_floating_ip_Return in E. destruct r; [done | by destruct E].
Qed.

(** X7: On an instance that was built from its identifier alone, so that
    [_raw] is [None] when the method is entered, [assign_floating_ip] and
    [unassign_floating_ip] raise AttributeError: the first once it has
    settled on an address, reserved or created, and before it attaches it;
    the second once the backend has listed the floating IP, and before it
    detaches it. *)
Theorem floating_ip_methods_need_raw self pool safety_timer fuel w :
  _raw self = None ->
  (forall w0 t0 w1 t1 fip w2 t2,
     ip self w = (Return None, w0, t0) ->
     ip self w0 = (Return None, w1, t1) ->
     choose_floating_ip self pool w1 = (Return fip, w2, t2) ->
     assign_floating_ip (S fuel) self pool safety_timer w
     = (Raise AttributeError, w2, t0 ++ t1 ++ t2))
  /\ (forall addr w0 t0 fip rest w1,
        ip self w = (Return (Some addr), w0, t0) ->
        handle _ (FloatingIpsFindall (ByIp addr)) w0 = (Ok (fip :: rest), w1) ->
        unassign_floating_ip self w
        = (Raise AttributeError, w1,
           t0 ++ [Ev (FloatingIpsFindall (ByIp addr)) (Ok (fip :: rest))])).
Proof.
  intros Hraw. split.
  - intros w0 t0 w1 t1 fip w2 t2 E0 E1 Ec.
    unfold assign_floating_ip. rewrite (bind_Return _ _ _ _ _ _ E0).
    cbn [assign_floating_ip_loop]. rewrite Hraw.
    unfold mbind at 1, M_bind at 1, bind at 1.
    rewrite (bind_Return _ _ _ _ _ _ E1).
    unfold assign_floating_ip_round.
    unfold mbind at 1, M_bind at 1, bind at 1.
    rewrite (bind_Return _ _ _ _ _ _ Ec). unfold on_instance, mbind, M_bind, bind, raise.
    cbn. by rewrite !app_nil_r.
  - intros addr w0 t0 fip rest w1 E0 Ef.
    unfold unassign_floating_ip. rewrite (bind_Return _ _ _ _ _ _ E0), Hraw.
    unfold call, mbind, M_bind, bind. rewrite Ef. cbn. done.
Qed.

(** X8: On an instance that shows a floating address at the first lookup,
    [assign_floating_ip] sends nothing but lookups of the instance: it
    neither scans the pool nor creates or attaches an address; what it
    returns is the address its last lookup showed. *)
Theorem assign_floating_ip_keeps_the_address self pool safety_timer fuel w a w0 t0 :
  ip self w = (Return (Some a), w0, t0) ->
  forall r w' tr,
    assign_floating_ip fuel self pool safety_timer w = (r, w', tr) ->
    Forall (fun e => is_read e = true) tr
    /\ r <> OutOfFuel
    /\ forall x, r = Return x ->
        exists tr0 raw,
          tr = tr0 ++ [Ev (ServersGet (id self)) (Ok raw)]
          /\ floating_addr (Server.addresses raw) = x.
Proof.
  intros E0 r w' tr. unfold assign_floating_ip.
  rewrite (bind_Return _ _ _ _ _ _ E0).
  destruct ((n ← name self;
             log INFO "Instance %s already has a floating IP" [LArg (AStr n)];;
             ip self) w0) as [[r1 w1] t1] eqn:E1.
  intros [= <- <- <-].
  assert (Forall (fun e => is_read e = true) t1) as Ht1.
  { revert E1. apply emits_bind; [apply emits_name |]. intros n.
    apply emits_bind; [by apply emits_log | intros; apply emits_ip]. }
  split; [| split].
  - apply Forall_app_2; [by eapply emits_ip | done].
  - intros ->. revert E1. pose proof (ends_bind (name self)
      (fun n => log INFO "Instance %s already has a floating IP" [LArg (AStr n)];; ip self)
      (ends_name self)) as He.
    intros E1. eapply He; [| by rewrite E1].
    intros n w2. apply ends_bind; [done | intros; apply ends_ip].
  - intros x ->.
    apply bind_Return_inv in E1 as (n & w2 & t2 & t3 & _ & E1 & ->).
    apply bind_Return_inv in E1 as ([] & w3 & t4 & t5 & _ & E1 & ->).
    apply ip_Return in E1 as (raw & -> & Hr).
    exists (t0 ++ t2 ++ t4), raw. by rewrite <- !app_assoc.
Qed.

(** X9: When the instance shows no floating address at the first lookup and
    shows one at the next, the test of the loop, the loop body never runs
    and the variable [ip] is unbound at the log line after the loop:
    [assign_floating_ip] raises UnboundLocalError, having sent nothing but
    lookups, instead of returning the address. *)
Theorem assign_floating_ip_raises_when_address_appears
    self pool safety_timer fuel w w0 t0 a w1 t1 n w2 t2 :
  ip self w = (Return None, w0, t0) ->
  ip self w0 = (Return (Some a), w1, t1) ->
  name self w1 = (Return n, w2, t2) ->
  assign_floating_ip (S fuel) self pool safety_timer w
  = (Raise UnboundLocalError, w2, t0 ++ t1 ++ t2)
  /\ Forall (fun e => is_read e = true) (t0 ++ t1 ++ t2).
Proof.
  intros E0 E1 En. split.
  - unfold assign_floating_ip. rewrite (bind_Return _ _ _ _ _ _ E0).
    cbn [assign_floating_ip_loop].
    unfold mbind at 1, M_bind at 1, bind at 1.
    rewrite (bind_Return _ _ _ _ _ _ E1). cbn [ret].
    unfold assign_floating_ip_end. rewrite (bind_Return _ _ _ _ _ _ En).
    cbn. by rewrite !app_nil_r.
  - repeat apply Forall_app_2; [by eapply emits_ip | by eapply emits_ip | by eapply emits_name].
Qed.


End Addresses.

Section Addresses_examples.
Import Scenario Cases.

(** The backend lists 10.0.0.2 before 10.0.0.1. *)
Lemma free_fips_sorted_witness :
  exists free_ips,
    @free_fips _ Sim.env sys0 "ext-net" cloud_two_free
    = (Return free_ips, Sim.tick cloud_two_free,
       [Ev (FloatingIpsFindall (FreeInPool "ext-net")) (Ok [fip2; fip1])])
    /\ free_ips ≡ₚ [fip2; fip1]
    /\ StronglySorted (key_le FloatingIP.ip) free_ips.
Proof.
  exact (@free_fips_sorted _ Sim.env sys0 "ext-net" cloud_two_free (Ok [fip2; fip1])
           (Sim.tick cloud_two_free) eq_refl).
Defined.

Lemma unassign_floating_ip_detaches_what_it_returns_witness :
  (@unassign_floating_ip _ Sim.env (instance_of vm_public) cloud_with_attached_address).1.1
  = Return (Some fip5)
  /\ exists raw0 addr rest server tr1 raw1,
       OpenstackInstance._raw (instance_of vm_public) = Some server
       /\ (@unassign_floating_ip _ Sim.env (instance_of vm_public)
             cloud_with_attached_address).2
          = [Ev (ServersGet "id-7") (Ok raw0);
             Ev (FloatingIpsFindall (ByIp addr)) (Ok (fip5 :: rest));
             Logged INFO "Detaching floating IP %s/%s from %s"
               [LArg (AStr "fip-5"); LArg (AStr "10.0.0.5"); LArg (AStr (Server.name server))];
             Ev (ServerRemoveFloatingIp "id-7" fip5) (Ok tt)]
            ++ tr1 ++ [Ev (ServersGet "id-7") (Ok raw1)]
       /\ floating_addr (Server.addresses raw0) = Some addr
       /\ floating_addr (Server.addresses raw1) = None
       /\ Forall (fun e => is_detach e = false) tr1.
Proof.
  split; [vm_compute; reflexivity |].
  exact (@unassign_floating_ip_detaches_what_it_returns _ Sim.env (instance_of vm_public)
           cloud_with_attached_address (Some fip5)
           (@unassign_floating_ip _ Sim.env (instance_of vm_public)
              cloud_with_attached_address).1.2
           (@unassign_floating_ip _ Sim.env (instance_of vm_public)
              cloud_with_attached_address).2
           ltac:(vm_compute; reflexivity)).
Defined.

(** The address 10.0.0.3 has been created for the instance when the call
    fails, and it stays in the pool; nothing has been detached from the
    other instance. *)
Lemma floating_ip_methods_need_raw_witness :
  ((@assign_floating_ip _ Sim.env 1 (bare "id-2") "ext-net" 5 cloud_with_spare).1.1
   = Raise AttributeError
   /\ FloatingIP.ip <$>
        Sim.floating_ips
          (@assign_floating_ip _ Sim.env 1 (bare "id-2") "ext-net" 5 cloud_with_spare).1.2
      = ["10.0.0.3"])
  /\ (@unassign_floating_ip _ Sim.env (bare "id-7") cloud_with_attached_address).1.1
     = Raise AttributeError
  /\ detached (@unassign_floating_ip _ Sim.env (bare "id-7") cloud_with_attached_address).2
     = [].
Proof.
  split; [split | split].
  - erewrite (proj1 (@floating_ip_methods_need_raw _ Sim.env (bare "id-2") "ext-net" 5 0
                       cloud_with_spare eq_refl));
      [reflexivity | reflexivity | reflexivity | reflexivity].
  - vm_compute. reflexivity.
  - erewrite (proj2 (@floating_ip_methods_need_raw _ Sim.env (bare "id-7") "ext-net" 5 0
                       cloud_with_attached_address eq_refl));
      [reflexivity | reflexivity | reflexivity].
  - vm_compute. reflexivity.
Defined.

Lemma assign_floating_ip_keeps_the_address_witness :
  Forall (fun e => is_read e = true)
    (@assign_floating_ip _ Sim.env 1 (instance_of vm_public) "ext-net" 5
       cloud_with_attached_address).2
  /\ (@assign_floating_ip _ Sim.env 1 (instance_of vm_public) "ext-net" 5
        cloud_with_attached_address).1.1 = Return (Some "10.0.0.5").
Proof.
  split; [| vm_compute; reflexivity].
  exact (proj1 (@assign_floating_ip_keeps_the_address _ Sim.env (instance_of vm_public)
                  "ext-net" 5 1 cloud_with_attached_address "10.0.0.5"
                  (Sim.tick cloud_with_attached_address)
                  [Ev (ServersGet "id-7") (Ok vm_public)] eq_refl _ _ _ eq_refl)).
Defined.

Lemma assign_floating_ip_raises_when_address_appears_witness :
  @assign_floating_ip _ Script.env 1 (instance_of vm7_private) "ext-net" 5 address_appears
  = (Raise UnboundLocalError, Script.mk [] [] (Err (NotFound 404)),
     [Ev (ServersGet "id-7") (Ok vm7_private); Ev (ServersGet "id-7") (Ok vm_public);
      Ev (ServersGet "id-7") (Ok vm_public)]).
Proof.
  exact (proj1 (@assign_floating_ip_raises_when_address_appears _ Script.env
                  (instance_of vm7_private) "ext-net" 5 0 address_appears
                  (Script.mk [Ok vm_public; Ok vm_public] [] (Err (NotFound 404)))
                  [Ev (ServersGet "id-7") (Ok vm7_private)]
                  "10.0.0.5"
                  (Script.mk [Ok vm_public] [] (Err (NotFound 404)))
                  [Ev (ServersGet "id-7") (Ok vm_public)]
                  "vm7"
                  (Script.mk [] [] (Err (NotFound 404)))
                  [Ev (ServersGet "id-7") (Ok vm_public)]
                  eq_refl eq_refl eq_refl)).
Defined.

End Addresses_examples.

(** ** delete and cleanup *)

Section Deletion.
Context {W : Type} `{Env W}.
Import OpenstackInstance.

Lemma emits_weaken {A} (P Q : Event -> Prop) (m : M W A) :
  emits P m -> (forall e, P e -> Q e) -> emits Q m.
Proof. intros Hm HPQ w r w' tr E. eapply Forall_impl; [by eapply Hm | done]. Qed.

Lemma read_keeps_addresses e : is_read e = true -> keeps_addresses e.
Proof. destruct e as [T c r |]; [by destruct c | done]. Qed.

Lemma keeps_addresses_all tr :
  Forall keeps_addresses tr -> released tr = [] /\ detached tr = [].
Proof.
  induction 1 as [|e tr [Hr Hd] _ [IHr IHd]]; [done |].
  change (e :: tr) with ([e] ++ tr). unfold released, detached in *.
  rewrite !omap_app. by rewrite Hr, Hd, IHr, IHd.
Qed.

Lemma detached_app t1 t2 : detached (t1 ++ t2) = detached t1 ++ detached t2.
Proof. apply omap_app. Qed.

Lemma released_app t1 t2 : released (t1 ++ t2) = released t1 ++ released t2.
Proof. apply omap_app. Qed.

Lemma emits_exists_ self : emits (fun e => is_read e = true) (exists_ self).
Proof.
  apply emits_catch.
  - apply emits_bind; [apply emits_get_myself_at | intros; apply emits_ret].
  - intros []; first [apply emits_ret | apply emits_raise].
Qed.

Lemma call_fails {T} (c : Call T) w r w' tr :
  call c w = (r, w', tr) -> (forall a, r <> Return a) -> exists e, tr = [Ev c (Err e)].
Proof.
  unfold call. destruct (handle T c w) as [[a | e] w1]; intros [= <- <- <-] Hr.
  - by destruct (Hr a).
  - by exists e.
Qed.

(** The end of [delete]: the instance is deleted and waited for. *)
Lemma emits_delete_end self :
  emits keeps_addresses
    (n ← name self;
     log INFO " Delete in progress instance %s" [LArg (AStr n)];;
     call (ServerDelete (id self));;
     wait_for (Lambda (e ← exists_ self; ret (negb e))) 180 5;;
     ret true).
Proof.
  apply emits_bind; [eapply emits_weaken; [apply emits_name | apply read_keeps_addresses] |].
  intros n. apply emits_bind; [by apply emits_log |]. intros _.
  apply emits_bind; [by apply emits_call |]. intros _.
  apply emits_bind; [| intros; apply emits_ret].
  apply emits_wait_for_tries; [| done].
  apply emits_bind; [| intros; apply emits_ret].
  eapply emits_weaken; [apply emits_exists_ | apply read_keeps_addresses].
Qed.

(** [unassign_floating_ip] deletes no address. *)
Lemma emits_unassign_floating_ip self :
  emits (fun e => released [e] = []) (unassign_floating_ip self).
Proof.
  unfold unassign_floating_ip.
  assert (emits (fun e => released [e] = []) (ip self)) as Hip.
  { eapply emits_weaken; [apply emits_ip |]. intros e He. by apply read_keeps_addresses. }
  apply emits_bind; [done |]. intros [addr |]; [| apply emits_ret].
  apply emits_bind; [by apply emits_call |]. intros [|fip rest]; [apply emits_ret |].
  apply emits_bind; [apply emits_ret |]. intros floating_ip.
  apply emits_bind.
  { destruct (_raw self); [by apply emits_log | apply emits_raise]. }
  intros _. apply emits_bind.
  { destruct (_raw self); [by apply emits_call | apply emits_raise]. }
  intros _. apply emits_bind; [| intros; apply emits_ret].
  apply emits_wait_for_tries; [| done].
  apply emits_bind; [done | intros; apply emits_ret].
Qed.

(** A run of [unassign_floating_ip] has detached nothing, or it has
    detached one floating IP, the one it returns if it returns. *)
Lemma unassign_floating_ip_detached self w r w' tr :
  unassign_floating_ip self w = (r, w', tr) ->
  (detached tr = [] /\ forall fip, r <> Return (Some fip))
  \/ exists fip, detached tr = [fip] /\ forall x, r = Return x -> x = Some fip.
Proof.
  unfold unassign_floating_ip. intros E.
  assert (forall t, Forall (fun e => is_read e = true) t -> detached t = []) as Hreads.
  { intros t Ht. apply keeps_addresses_all. eapply Forall_impl; [exact Ht |].
    apply read_keeps_addresses. }
  apply bind_inv in E as [(ip_addr & w1 & t1 & t2 & Ei & E & ->) | [(e & Ei & ->) | [Ei ->]]];
    [| left; split; [apply Hreads; by eapply emits_ip | done] ..].
  assert (detached t1 = []) as Ht1 by (apply Hreads; by eapply emits_ip).
  rewrite detached_app, Ht1. cbn [app].
  destruct ip_addr as [addr |]; [| injection E as <- <- <-; by left].
  apply bind_inv in E as [(fips & w2 & t3 & t4 & Ef & E & ->) | [(e & Ef & ->) | [Ef ->]]];
    [| left; by apply call_fails in Ef as (? & ->) ..].
  apply call_Return in Ef as ->. rewrite detached_app. cbn [app].
  change (detached [Ev (FloatingIpsFindall (ByIp addr)) (Ok fips)]) with (@nil FloatingIP.t).
  cbn [app].
  destruct fips as [|fip rest]; [injection E as <- <- <-; by left |].
  apply bind_inv in E as [(fip' & w3 & t5 & t6 & [= <- <- <-] & E & ->) | [(e & [=] & _) | [[=] _]]].
  cbn [app].
  destruct (_raw self) as [server |]; [| injection E as <- <- <-; by left].
  apply bind_inv in E as [([] & w4 & t7 & t8 & [= <- <-] & E & ->) | [(e & [=] & _) | [[=] _]]].
  rewrite detached_app.
  change (detached [Logged _ _ _]) with (@nil FloatingIP.t). cbn [app].
  apply bind_inv in E as [([] & w5 & t9 & t10 & Er & E & ->) | [(e & Er & ->) | [Er ->]]];
    [| left; by apply call_fails in Er as (? & ->) ..].
  apply call_Return in Er as ->. rewrite detached_app.
  change (detached [Ev (ServerRemoveFloatingIp (id self) fip) (Ok tt)]) with [fip].
  right. exists fip.
  assert (detached t10 = []) as ->.
  { apply keeps_addresses_all.
    revert E. apply emits_bind; [| intros; apply emits_ret].
    apply emits_wait_for_tries; [| done].
    apply emits_bind; [| intros; apply emits_ret].
    eapply emits_weaken; [apply emits_ip | apply read_keeps_addresses]. }
  split; [done |].
  intros x ->. by apply bind_Return_inv in E as (? & ? & ? & ? & _ & [= <- _ _] & _).
Qed.

Lemma call_trace {T} (c : Call T) w r w' tr :
  call c w = (r, w', tr) -> exists res, tr = [Ev c res].
Proof.
  unfold call. destruct (handle T c w) as [res w1]. intros [= <- <- <-]. by exists res.
Qed.

Lemma released_all tr : Forall (fun e => released [e] = []) tr -> released tr = [].
Proof.
  induction 1 as [|e tr He _ IH]; [done |].
  change (e :: tr) with ([e] ++ tr). by rewrite released_app, He, IH.
Qed.

(** Given a FloatingIP object, [delete_floating_ip] asks the backend to
    delete it, and no other. *)
Lemma delete_floating_ip_object_released sys fip w r w' tr :
  delete_floating_ip sys (FipObject fip) w = (r, w', tr) ->
  released tr = [fip] /\ detached tr = [].
Proof.
  unfold delete_floating_ip. intros E.
  apply bind_inv in E as [(x & w1 & t1 & t2 & [= <- <- <-] & E & ->) | [(e & [=] & _) | [[=] _]]].
  apply bind_inv in E as [([] & w2 & t3 & t4 & [= <- <-] & E & ->) | [(e & [=] & _) | [[=] _]]].
  cbn [app].
  assert (forall t, Forall keeps_addresses t ->
            released (Logged INFO "Deleting floating IP %s/%s"
                        [LArg (AStr (FloatingIP.id fip)); LArg (AStr (FloatingIP.ip fip))]
                      :: Ev (FloatingIpDelete fip) (Ok tt) :: t) = [fip]
            /\ detached (Logged INFO "Deleting floating IP %s/%s"
                           [LArg (AStr (FloatingIP.id fip)); LArg (AStr (FloatingIP.ip fip))]
                         :: Ev (FloatingIpDelete fip) (Ok tt) :: t) = []) as Hrest.
  { intros t [Hr Hd]%keeps_addresses_all.
    change (?a :: ?b :: t) with ([a; b] ++ t). by rewrite released_app, detached_app, Hr, Hd. }
  apply bind_inv in E as [([] & w3 & t5 & t6 & Ed & E & ->) | [(e & Ed & ->) | [Ed ->]]];
    [| by apply call_fails in Ed as (? & ->) ..].
  apply call_Return in Ed as ->. apply Hrest.
  revert E. apply emits_bind; [| intros; apply emits_ret].
  apply emits_wait_for_tries; [| done].
  apply emits_bind; [by apply emits_call | intros; apply emits_ret].
Qed.

(** The part of [cleanup] that deals with the floating address. *)
Lemma cleanup_address self w r w' tr :
  (fip ← unassign_floating_ip self;
   delete_floating_ip (system self)
     (match fip with Some fip => FipObject fip | None => FipNone end);;
   ret tt) w = (r, w', tr) ->
  (released tr = [] /\ detached tr = [])
  \/ (exists fip, released tr = [] /\ detached tr = [fip] /\ forall u, r <> Return u)
  \/ exists fip, released tr = [fip] /\ detached tr = [fip].
Proof.
  intros E.
  apply bind_inv in E as [(x & w1 & t1 & t2 & Eu & E & ->) | [(e & Eu & ->) | [Eu ->]]].
  - pose proof (emits_unassign_floating_ip self _ _ _ _ Eu) as Hrel%released_all.
    rewrite released_app, detached_app, Hrel.
    apply unassign_floating_ip_detached in Eu as [[-> Hx] | (fip & -> & Hx)].
    + destruct x as [fip |]; [by destruct (Hx fip) |].
      left. apply bind_inv in E as [(b & w2 & t3 & t4 & [= <- <- <-] & [= <- <- <-] & ->)
                                    | [(e & [=] & _) | [[=] _]]].
      done.
    + rewrite (Hx x eq_refl) in E.
      apply bind_inv in E as [(b & w2 & t3 & t4 & Ed & [= <- <- <-] & ->)
                              | [(e & Ed & ->) | [Ed ->]]];
        apply delete_floating_ip_object_released in Ed as [Hr Hd];
        right; right; exists fip; by rewrite ?app_nil_r, Hr, Hd.
  - pose proof (emits_unassign_floating_ip self _ _ _ _ Eu) as Hrel%released_all.
    apply unassign_floating_ip_detached in Eu as [[Hd _] | (fip & Hd & _)];
      [by left | right; left; by exists fip].
  - pose proof (emits_unassign_floating_ip self _ _ _ _ Eu) as Hrel%released_all.
    apply unassign_floating_ip_detached in Eu as [[Hd _] | (fip & Hd & _)];
      [by left | right; left; by exists fip].
Qed.

(** X11: [delete] asks the backend to delete a floating address only when it is
    called as [cleanup], with [delete_fip] set; [cleanup] deletes at most
    one, and only the floating IP that the backend has detached from the
    instance on its own request just before. *)
Theorem cleanup_releases_only_what_it_detached self w :
  (forall r w' tr, delete self false w = (r, w', tr) -> released tr = [])
  /\ (forall r w' tr,
        cleanup self w = (r, w', tr) ->
        released tr = [] \/ exists fip, released tr = [fip] /\ detached tr = [fip]).
Proof.
  assert (emits keeps_addresses (name self)) as Hname.
  { eapply emits_weaken; [apply emits_name | apply read_keeps_addresses]. }
  split.
  - intros r w' tr E. apply released_all. revert E. unfold delete.
    assert (forall e, keeps_addresses e -> released [e] = []) as Hk by (by intros e []).
    apply emits_bind; [by eapply emits_weaken |]. intros n.
    apply emits_bind; [by apply emits_log |]. intros _.
    apply emits_bind; [by eapply emits_weaken |]. intros n'.
    apply emits_bind; [by apply emits_log |]. intros _.
    apply emits_bind.
    { apply emits_bind; [apply emits_unassign_floating_ip | intros; apply emits_ret]. }
    intros _. eapply emits_weaken; [apply emits_delete_end | done].
  - intros r w' tr E. unfold cleanup, delete in E.
    assert (forall t, Forall keeps_addresses t -> released t = []) as Hkeeps.
    { intros t Ht. by apply keeps_addresses_all. }
    apply bind_inv in E as [(n & w1 & t1 & t2 & En & E & ->) | [(e & En & ->) | [En ->]]];
      [| left; apply Hkeeps; by eapply Hname ..].
    apply Hname, keeps_addresses_all in En as [Hr1 Hd1].
    rewrite released_app, detached_app, Hr1, Hd1. cbn [app].
    apply bind_inv in E as [([] & w2 & t3 & t4 & [= <- <-] & E & ->) | [(e & [=] & _) | [[=] _]]].
    rewrite released_app, detached_app.
    change (released [Logged _ _ _]) with (@nil FloatingIP.t).
    change (detached [Logged _ _ _]) with (@nil FloatingIP.t). cbn [app].
    apply bind_inv in E as [(n' & w3 & t5 & t6 & En & E & ->) | [(e & En & ->) | [En ->]]];
      [| left; apply Hkeeps; by eapply Hname ..].
    apply Hname, keeps_addresses_all in En as [Hr2 Hd2].
    rewrite released_app, detached_app, Hr2, Hd2. cbn [app].
    apply bind_inv in E as [([] & w4 & t7 & t8 & [= <- <-] & E & ->) | [(e & [=] & _) | [[=] _]]].
    rewrite released_app, detached_app.
    change (released [Logged _ _ _]) with (@nil FloatingIP.t).
    change (detached [Logged _ _ _]) with (@nil FloatingIP.t). cbn [app].
    apply bind_inv in E as [([] & w5 & t9 & t10 & Ea & E & ->) | [(e & Ea & ->) | [Ea ->]]].
    + apply emits_delete_end, keeps_addresses_all in E as [Hr3 Hd3].
      rewrite released_app, detached_app, Hr3, Hd3, !app_nil_r.
      apply cleanup_address in Ea as [[-> _] | [(fip & _ & _ & Hu) | Hfip]];
        [by left | by destruct (Hu tt) | by right].
    + apply cleanup_address in Ea as [[-> _] | [(fip & -> & _) | Hfip]];
        [by left | by left | by right].
    + apply cleanup_address in Ea as [[-> _] | [(fip & -> & _) | Hfip]];
        [by left | by left | by right].
Qed.

(** What [delete] has done when it returns. *)
Lemma delete_Return self delete_fip w b w' tr :
  delete self delete_fip w = (Return b, w', tr) ->
  b = true
  /\ exists tr0 tr1,
       (exists raw,
          tr = tr0 ++ Ev (ServerDelete (id self)) (Ok tt)
                 :: tr1 ++ [Ev (ServersGet (id self)) (Err (NotFound 404));
                            Ev (ServersGet (id self)) (Ok raw)])
       \/ (exists m,
             tr = tr0 ++ Ev (ServerDelete (id self)) (Ok tt)
                    :: tr1 ++ [Ev (ServersGet (id self)) (Err (VMInstanceNotFound m))])
       \/ (exists m,
             tr = tr0 ++ Ev (ServerDelete (id self)) (Ok tt)
                    :: tr1 ++ [Ev (ServersGet (id self)) (Err (AssertionError m))]).
Proof.
  unfold delete. intros E.
  apply bind_Return_inv in E as (n1 & w1 & t1 & t1' & _ & E & ->).
  apply bind_Return_inv in E as ([] & w2 & t2 & t2' & _ & E & ->).
  apply bind_Return_inv in E as (n2 & w3 & t3 & t3' & _ & E & ->).
  apply bind_Return_inv in E as ([] & w4 & t4 & t4' & _ & E & ->).
  apply bind_Return_inv in E as ([] & w5 & t5 & t5' & _ & E & ->).
  apply bind_Return_inv in E as (n3 & w6 & t6 & t6' & _ & E & ->).
  apply bind_Return_inv in E as ([] & w7 & t7 & t7' & _ & E & ->).
  apply bind_Return_inv in E as ([] & w8 & t8 & t8' & Ed & E & ->).
  apply call_Return in Ed as ->.
  apply bind_Return_inv in E as ([] & w9 & t9 & t9' & Ew & [= <- <- <-] & ->).
  split; [done |].
  apply wait_for_tries_Return in Ew as (w0 & tr0 & t & Eb & ->).
  apply bind_Return_inv in Eb as (e & w10 & t10 & t10' & Ee & [= He <- <-] & ->).
  destruct e; [discriminate |].
  apply exists_False in Ee as (tr1 & Hshape).
  exists (t1 ++ t2 ++ t3 ++ t4 ++ t5 ++ t6 ++ t7), (tr0 ++ tr1).
  destruct Hshape as [(raw & ->) | [(m & ->) | (m & ->)]];
    [left; exists raw | right; left; exists m | right; right; exists m];
    rewrite ?app_nil_r; repeat (rewrite <- ?app_assoc; cbn [app]); done.
Qed.

(** X12: [delete] answers [True] only after the backend has acknowledged the
    request to delete the instance and [exists] has answered [False]: the
    last lookup found the server again, right after one that answered 404,
    or the backend itself raised VMInstanceNotFound or AssertionError. *)
Theorem delete_answers_True_only_after_a_found_server self delete_fip w b w' tr :
  delete self delete_fip w = (Return b, w', tr) ->
  b = true
  /\ exists tr0 tr1,
       (exists raw,
          tr = tr0 ++ Ev (ServerDelete (id self)) (Ok tt)
                 :: tr1 ++ [Ev (ServersGet (id self)) (Err (NotFound 404));
                            Ev (ServersGet (id self)) (Ok raw)])
       \/ (exists m,
             tr = tr0 ++ Ev (ServerDelete (id self)) (Ok tt)
                    :: tr1 ++ [Ev (ServersGet (id self)) (Err (VMInstanceNotFound m))])
       \/ (exists m,
             tr = tr0 ++ Ev (ServerDelete (id self)) (Ok tt)
                    :: tr1 ++ [Ev (ServersGet (id self)) (Err (AssertionError m))]).
Proof. apply delete_Return. Qed.

End Deletion.

Section Deletion_examples.
Import Scenario Cases.

(** With [delete_fip] unset the address of the instance is detached and
    stays in the pool; [cleanup] deletes it after it has detached it. *)
Lemma cleanup_releases_only_what_it_detached_witness :
  released (@delete _ Sim.env (instance_of vm_public) false cloud_with_attached_address).2 = []
  /\ (released (@cleanup _ Sim.env (instance_of vm_public) cloud_with_attached_address).2 = []
      \/ exists fip,
           released (@cleanup _ Sim.env (instance_of vm_public) cloud_with_attached_address).2
           = [fip]
           /\ detached (@cleanup _ Sim.env (instance_of vm_public) cloud_with_attached_address).2
              = [fip]).
Proof.
  split.
  - exact (proj1 (@cleanup_releases_only_what_it_detached _ Sim.env (instance_of vm_public)
                    cloud_with_attached_address)
             (@delete _ Sim.env (instance_of vm_public) false cloud_with_attached_address).1.1
             (@delete _ Sim.env (instance_of vm_public) false cloud_with_attached_address).1.2
             (@delete _ Sim.env (instance_of vm_public) false cloud_with_attached_address).2
             ltac:(vm_compute; reflexivity)).
  - exact (proj2 (@cleanup_releases_only_what_it_detached _ Sim.env (instance_of vm_public)
                    cloud_with_attached_address)
             (@cleanup _ Sim.env (instance_of vm_public) cloud_with_attached_address).1.1
             (@cleanup _ Sim.env (instance_of vm_public) cloud_with_attached_address).1.2
             (@cleanup _ Sim.env (instance_of vm_public) cloud_with_attached_address).2
             ltac:(vm_compute; reflexivity)).
Defined.

(** On that cloud [cleanup] deletes the address 10.0.0.5, which it has
    detached before. *)
Example cleanup_releases_the_address :
  released (@cleanup _ Sim.env (instance_of vm_public) cloud_with_attached_address).2 = [fip5]
  /\ detached (@cleanup _ Sim.env (instance_of vm_public) cloud_with_attached_address).2
     = [fip5].
Proof. split; vm_compute; reflexivity. Qed.

(** The backend goes on showing the server, apart from one lookup that it
    answers with 404: [delete] answers [True]. *)
Lemma delete_answers_True_only_after_a_found_server_witness :
  (@delete _ Script.env (instance_of vm1) false lingering).1.1 = Return true
  /\ exists tr0 tr1,
       (exists raw,
          (@delete _ Script.env (instance_of vm1) false lingering).2
          = tr0 ++ Ev (ServerDelete "id-1") (Ok tt)
              :: tr1 ++ [Ev (ServersGet "id-1") (Err (NotFound 404));
                         Ev (ServersGet "id-1") (Ok raw)])
       \/ (exists m,
             (@delete _ Script.env (instance_of vm1) false lingering).2
             = tr0 ++ Ev (ServerDelete "id-1") (Ok tt)
                 :: tr1 ++ [Ev (ServersGet "id-1") (Err (VMInstanceNotFound m))])
       \/ (exists m,
             (@delete _ Script.env (instance_of vm1) false lingering).2
             = tr0 ++ Ev (ServerDelete "id-1") (Ok tt)
                 :: tr1 ++ [Ev (ServersGet "id-1") (Err (AssertionError m))]).
Proof.
  split; [vm_compute; reflexivity |].
  exact (proj2 (@delete_answers_True_only_after_a_found_server _ Script.env
                  (instance_of vm1) false lingering true
                  (@delete _ Script.env (instance_of vm1) false lingering).1.2
                  (@delete _ Script.env (instance_of vm1) false lingering).2
                  ltac:(vm_compute; reflexivity))).
Defined.

End Deletion_examples.

(** ** mark_as_template, when it succeeds *)

Section Snapshot.
Context {W : Type} `{Env W}.
Import OpenstackInstance.







End Snapshot.

Section Snapshot_examples.
Import Scenario Cases.


End Snapshot_examples.

(** ** Listing a collection that stays as it is *)

Section Static.
Variable page_size : nat.
Hypothesis page_size_positive : (0 < page_size)%nat.

Local Abbreviation quiet := (Listing.env page_size (fun _ => [])).
Local Abbreviation list_quiet := (fun marker => @call _ quiet _ (ServersList marker)).

Lemma survivors_quiet n l : Listing.survivors (fun _ : nat => []) n l = l.
Proof. apply filter_all. intros s _. apply not_elem_of_nil. Qed.

Lemma list_quiet_keeps marker b r b' t :
  list_quiet marker b = (r, b', t) -> Listing.collection b' = Listing.collection b.
Proof.
  destruct (list_page_answer page_size (fun _ => []) marker b) as (t1 & E1).
  rewrite E1. intros [= <- <- <-]. apply survivors_quiet.
Qed.

Lemma try_markers_quiet_keeps markers b r b' t :
  try_markers list_quiet markers b = (r, b', t) ->
  Listing.collection b' = Listing.collection b.
Proof.
  revert b t. induction markers as [|m markers IH]; intros b t; cbn [try_markers].
  - by intros [= <- <- <-].
  - destruct (list_page_answer page_size (fun _ => []) (Some m) b) as (t1 & E1).
    unfold catch, mbind at 1 2, M_bind, bind. rewrite E1.
    case_bool_decide as Hm; cbn.
    + intros [= <- <- <-]. apply survivors_quiet.
    + destruct (try_markers list_quiet markers
                  (Listing.mk (Listing.survivors (fun _ => []) (Listing.requests b)
                                 (Listing.collection b))
                     (S (Listing.requests b)))) as [[r2 b2] t2] eqn:E2.
      intros [= <- <- <-]. apply IH in E2. rewrite E2. apply survivors_quiet.
Qed.

(** On a collection that stays as it is, the next page is always found. *)
Lemma next_page_quiet servers b lists unseen :
  Listing.collection b = servers ->
  consistent servers servers lists unseen ->
  exists page b' t,
    next_page list_quiet lists b = (Return page, b', t)
    /\ Listing.collection b' = servers.
Proof.
  intros Hb Hc. destruct lists as [|s lists]; cbn [next_page].
  - destruct (list_page_answer page_size (fun _ => []) None b) as (t1 & E1).
    rewrite E1. eexists _, _, _. split; [done |]. cbn. by rewrite survivors_quiet.
  - destruct (try_markers list_quiet (last_markers (s :: lists)) b) as [[r b1] t1] eqn:E.
    pose proof (try_markers_quiet_keeps _ _ _ _ _ E) as Hb1.
    pose proof (try_markers_listing page_size (fun _ => []) _ _ _ _ _ E)
      as (dead & _ & [[-> Hall] | (ms1 & m & ms2 & _ & _ & _ & ->)]).
    + exfalso.
      destruct (last_markers (s :: lists)) as [|m ms] eqn:Em.
      { apply (f_equal length) in Em. unfold last_markers in Em.
        rewrite length_fmap, length_take, length_reverse in Em. cbn in Em. lia. }
      apply (Hall m); [left |]. rewrite Hb1, Hb.
      assert (m ∈ last_markers (s :: lists)) as Hm by (rewrite Em; left).
      unfold last_markers in Hm. apply list_elem_of_fmap in Hm as (x & -> & Hx).
      apply list_elem_of_fmap_2. destruct Hc as (_ & _ & _ & _ & _ & Hls). apply Hls.
      apply elem_of_reverse. by eapply subseteq_take.
    + unfold mbind, M_bind, bind. rewrite E. eexists _, _, _. split; [done |].
      by rewrite Hb1.
Qed.

Lemma paginator_quiet servers fuel :
  forall b lists unseen,
    Listing.collection b = servers ->
    consistent servers servers lists unseen ->
    (length unseen < fuel)%nat ->
    exists b' tr,
      _generic_paginator_from fuel list_quiet lists b = (Return servers, b', tr).
Proof.
  induction fuel as [|n IH]; intros b lists unseen Hb Hc Hfuel; [lia |].
  destruct (next_page_quiet _ _ _ _ Hb Hc) as (page & b1 & t1 & Enext & Hb1).
  pose proof Hc as Hc0. rewrite <- Hb in Hc0 at 2.
  destruct (next_page_listing page_size (fun _ => []) _ _ _ _ _ _ _ Hc0 Enext)
    as (unseen' & Hc' & Hpage & Hlen).
  rewrite Hb1 in Hc'.
  cbn [_generic_paginator_from]. rewrite (bind_Return _ _ _ _ _ _ Enext).
  destruct page as [|x temp_list].
  - exists b1, (t1 ++ []). cbn. f_equal. f_equal. f_equal.
    destruct Hc' as (_ & _ & Hs & _ & _ & Hls).
    symmetry in Hpage. apply take_nil_inv in Hpage as [? | ->]; [lia |].
    rewrite app_nil_r in Hs. rewrite Hs at 1. symmetry. apply filter_all.
    intros s Hin. by apply list_elem_of_fmap_2, Hls.
  - pose proof (consistent_page _ _ _ _ page_size Hc') as Hc''. rewrite <- Hpage in Hc''.
    destruct (IH b1 (lists ++ x :: temp_list) (drop page_size unseen') Hb1 Hc'')
      as (b' & tr & ->).
    + rewrite length_drop. destruct unseen'; [by rewrite take_nil in Hpage |]. cbn in *. lia.
    + by exists b', (t1 ++ tr).
Qed.

End Static.

(** X14: On a listing service whose servers have distinct identifiers and from
    which nothing is deleted while it is read, [_generic_paginator] returns
    the collection of the service: every server once, in the order of the
    service, whatever the length of the pages, as long as it is not
    zero. *)
Theorem _generic_paginator_returns_the_collection page_size servers n :
  (0 < page_size)%nat ->
  NoDup (Server.id <$> servers) ->
  exists b tr,
    _generic_paginator (S (length servers))
      (fun marker => @call _ (Listing.env page_size (fun _ => [])) _ (ServersList marker))
      (Listing.mk servers n)
    = (Return servers, b, tr).
Proof.
  intros Hp Hnd.
  apply (paginator_quiet page_size Hp servers _ _ _ servers); [done | | cbn; lia].
  split; [constructor |]. split; [done |]. split; [done |].
  split; [intros s _; apply not_elem_of_nil |].
  split; [done |]. intros s Hs. by apply elem_of_nil in Hs.
Qed.

Section Static_examples.
Import Scenario.

Lemma _generic_paginator_returns_the_collection_witness :
  exists b tr,
    _generic_paginator 12
      (fun marker => @call _ (Listing.env 3 (fun _ => [])) _ (ServersList marker))
      (Listing.mk eleven_servers 0)
    = (Return eleven_servers, b, tr).
Proof.
  apply (_generic_paginator_returns_the_collection 3 eleven_servers 0).
  - lia.
  - apply (bool_decide_unpack _). by vm_compute.
Defined.

End Static_examples.

(** ** Tenants and lookups *)

Section Tenants.
Context {W : Type} `{Env W}.

Lemma memberships_app t1 t2 : memberships (t1 ++ t2) = memberships t1 ++ memberships t2.
Proof. apply omap_app. Qed.

(** The tenants kept are those whose users, as the backend listed them,
    include the user. *)
Lemma real_tenants_Return sys tenants w kept w' tr :
  real_tenants sys tenants w = (Return kept, w', tr) ->
  fst <$> memberships tr = tenants
  /\ kept = fst <$> filter (fun m => OpenstackSystem.username sys ∈ m.2) (memberships tr)
  /\ Forall (fun e => is_query e = true) tr.
Proof.
  revert w kept tr. induction tenants as [|tenant rest IH]; intros w kept tr;
    cbn [real_tenants].
  - by intros [= <- <- <-].
  - intros E.
    apply bind_Return_inv in E as (users & w1 & t1 & t2 & Eu & E & ->).
    apply call_Return in Eu as ->.
    apply bind_Return_inv in E as (others & w2 & t3 & t4 & Eo & [= <- <- <-] & ->).
    apply IH in Eo as (Hasked & -> & Hq). rewrite app_nil_r.
    change ([Ev (TenantListUsers tenant) (Ok users)] ++ t3)
      with (Ev (TenantListUsers tenant) (Ok users) :: t3).
    change (memberships (Ev (TenantListUsers tenant) (Ok users) :: t3))
      with ((tenant, User.name <$> users) :: memberships t3).
    split; [by rewrite fmap_cons, Hasked |]. split; [| by constructor].
    rewrite filter_cons. cbn [snd]. by case_bool_decide; case_decide.
Qed.

(** X15: Under version 2 of the identity API [_get_tenants] lists the tenants,
    then the users of each tenant listed, once and in that order, and
    returns the tenants among whose users, as the backend named them, the
    user of the system is, in the order of the listing; under version 3 it
    returns every project listed, and asks for no users. *)
Theorem _get_tenants_of_the_user sys w tenants w' tr :
  _get_tenants sys w = (Return tenants, w', tr) ->
  exists listed tr1,
    tr = Ev TenantsList (Ok listed) :: tr1
    /\ if bool_decide (OpenstackSystem.keystone_version sys = 3)
       then tenants = listed /\ tr1 = []
       else fst <$> memberships tr1 = listed
            /\ tenants
               = fst <$> filter (fun m => OpenstackSystem.username sys ∈ m.2) (memberships tr1).
Proof.
  unfold _get_tenants. case_bool_decide as Hv.
  - intros E. pose proof (call_Return _ _ _ _ _ E) as ->. by exists tenants, [].
  - intros E. apply bind_Return_inv in E as (listed & w1 & t1 & t2 & El & E & ->).
    apply call_Return in El as ->.
    apply real_tenants_Return in E as (Hasked & Hkept & _).
    by exists listed, t2.
Qed.

End Tenants.

Section Tenants_examples.
Import Scenario Cases.

Lemma _get_tenants_of_the_user_witness :
  (exists listed tr1,
     (@_get_tenants _ Sim.env sys0 cloud_two_tenants).2 = Ev TenantsList (Ok listed) :: tr1
     /\ fst <$> memberships tr1 = listed
     /\ [tenant1]
        = fst <$> filter (fun m => "admin" ∈ m.2) (memberships tr1))
  /\ exists listed tr1,
       (@_get_tenants _ Sim.env sys3 cloud_two_tenants).2 = Ev TenantsList (Ok listed) :: tr1
       /\ [tenant1; tenant2] = listed /\ tr1 = [].
Proof.
  split.
  - exact (@_get_tenants_of_the_user _ Sim.env sys0 cloud_two_tenants [tenant1]
             (@_get_tenants _ Sim.env sys0 cloud_two_tenants).1.2
             (@_get_tenants _ Sim.env sys0 cloud_two_tenants).2
             ltac:(vm_compute; reflexivity)).
  - exact (@_get_tenants_of_the_user _ Sim.env sys3 cloud_two_tenants [tenant1; tenant2]
             (@_get_tenants _ Sim.env sys3 cloud_two_tenants).1.2
             (@_get_tenants _ Sim.env sys3 cloud_two_tenants).2
             ltac:(vm_compute; reflexivity)).
Defined.

End Tenants_examples.

Section Lookups.
Context {W : Type} `{Env W}.
Import OpenstackInstance.

Lemma read_is_query e : is_read e = true -> is_query e = true.
Proof. destruct e as [T c r |]; [by destruct c | done]. Qed.

Lemma emits_try_markers P (f : option string -> M W (list Server.t)) markers :
  (forall marker, emits P (f marker)) -> emits P (try_markers f markers).
Proof.
  intros Hf. induction markers as [|m markers IH]; cbn [try_markers]; [apply emits_ret |].
  apply emits_bind.
  - apply emits_catch.
    + apply emits_bind; [done | intros; apply emits_ret].
    + intros []; first [apply emits_ret | apply emits_raise].
  - intros [temp_list |]; [apply emits_ret | done].
Qed.

Lemma emits_generic_paginator_from P (f : option string -> M W (list Server.t)) fuel :
  (forall marker, emits P (f marker)) ->
  forall lists, emits P (_generic_paginator_from fuel f lists).
Proof.
  intros Hf. induction fuel as [|n IH]; intros lists; cbn [_generic_paginator_from].
  - by intros w r w' tr [= <- <- <-].
  - apply emits_bind.
    + unfold next_page. destruct lists; [done |].
      apply emits_bind; [by apply emits_try_markers |].
      intros [temp_list |]; [apply emits_ret | apply emits_raise].
    + intros [|x temp_list]; [apply emits_ret | apply IH].
Qed.

Lemma emits_real_tenants sys tenants :
  emits (fun e => is_query e = true) (real_tenants sys tenants).
Proof.
  induction tenants as [|tenant rest IH]; cbn [real_tenants]; [apply emits_ret |].
  apply emits_bind; [by apply emits_call |]. intros users.
  apply emits_bind; [done | intros; apply emits_ret].
Qed.

Lemma emits_list_vms fuel sys filter_tenants :
  emits (fun e => is_query e = true) (list_vms fuel sys filter_tenants).
Proof.
  unfold list_vms. apply emits_bind.
  { apply emits_generic_paginator_from. intros marker. by apply emits_call. }
  intros instances. apply emits_bind; [| intros; apply emits_ret].
  destruct filter_tenants; [| apply emits_ret].
  apply emits_bind; [| intros; apply emits_ret].
  unfold _get_tenants. case_bool_decide; [by apply emits_call |].
  apply emits_bind; [by apply emits_call | intros; apply emits_real_tenants].
Qed.

Lemma emits_vm_matches name_ id_ ip_ instance :
  emits (fun e => is_query e = true) (vm_matches name_ id_ ip_ instance).
Proof.
  unfold vm_matches. apply emits_bind.
  - destruct (truthy name_); [| apply emits_ret].
    apply emits_bind; [| intros; apply emits_ret].
    eapply emits_weaken; [apply emits_name | apply read_is_query].
  - intros [|]; [apply emits_ret |]. apply emits_bind.
    + destruct (truthy ip_); [| apply emits_ret].
      apply emits_bind; [| intros; apply emits_ret].
      eapply emits_weaken; [apply emits_ip | apply read_is_query].
    + intros [|]; apply emits_ret.
Qed.

Lemma emits_find_vms fuel sys name_ id_ ip_ :
  emits (fun e => is_query e = true) (find_vms fuel sys name_ id_ ip_).
Proof.
  unfold find_vms. destruct (_ && _); [apply emits_raise |].
  apply emits_bind; [apply emits_list_vms |]. intros instances.
  induction instances as [|instance rest IH]; cbn [find_matches]; [apply emits_ret |].
  apply emits_bind; [apply emits_vm_matches |]. intros m.
  apply emits_bind; [done | intros; apply emits_ret].
Qed.

(** X16: [list_vms], [find_vms] and [get_vm] change nothing: whatever the
    backend answers and however they end, the requests they send are
    listings of the servers, lookups of a server, and listings of the
    tenants and of their users. *)
Theorem lookups_send_queries_only fuel sys filter_tenants name_ id_ ip_ :
  emits (fun e => is_query e = true) (list_vms fuel sys filter_tenants)
  /\ emits (fun e => is_query e = true) (find_vms fuel sys name_ id_ ip_)
  /\ emits (fun e => is_query e = true) (get_vm fuel sys name_ id_ ip_).
Proof.
  split; [apply emits_list_vms |]. split; [apply emits_find_vms |].
  unfold get_vm. apply emits_bind; [apply emits_find_vms |].
  intros [|? [|? ?]]; first [apply emits_ret | apply emits_raise].
Qed.

(** What finding one instance a match says of it. *)
Lemma vm_matches_true name_ id_ ip_ instance w w' tr :
  vm_matches name_ id_ ip_ instance w = (Return true, w', tr) ->
  (truthy name_ = true
   /\ exists raw, Ev (ServersGet (id instance)) (Ok raw) ∈ tr
                  /\ Some (Server.name raw) = name_)
  \/ (truthy ip_ = true
      /\ exists raw, Ev (ServersGet (id instance)) (Ok raw) ∈ tr
                     /\ floating_addr (Server.addresses raw) = ip_)
  \/ (truthy id_ = true /\ Some (id instance) = id_).
Proof.
  unfold vm_matches. intros E.
  apply bind_Return_inv in E as (by_name & w1 & t1 & t2 & En & E & ->).
  destruct by_name.
  - left. destruct (truthy name_); [| discriminate]. split; [done |].
    apply bind_Return_inv in En as (n & w2 & t3 & t4 & En & [= Hn <- <-] & ->).
    apply bool_decide_eq_true in Hn.
    apply bind_Return_inv in En as (raw & w3 & t5 & t6 & Er & [= <- <- <-] & ->).
    apply refresh_Return in Er as [_ ->]. exists raw. split; [| done].
    apply elem_of_app. left. apply elem_of_app. left. apply elem_of_app. left. left.
  - apply bind_Return_inv in E as (by_ip & w2 & t3 & t4 & Ei & E & ->).
    destruct by_ip.
    + right; left. destruct (truthy ip_); [| discriminate]. split; [done |].
      apply bind_Return_inv in Ei as (a & w3 & t5 & t6 & Ei & [= Ha <- <-] & ->).
      apply bool_decide_eq_true in Ha.
      apply ip_Return in Ei as (raw & -> & Hraw). exists raw. split; [| by rewrite Hraw].
      apply elem_of_app. right. apply elem_of_app. left. apply elem_of_app. left. left.
    + right; right. injection E as Hid _ _.
      apply andb_true_iff in Hid as [Hid Heq]. by apply bool_decide_eq_true in Heq.
Qed.

Lemma find_matches_Return name_ id_ ip_ instances :
  forall w ms w' tr,
    find_matches name_ id_ ip_ instances w = (Return ms, w', tr) ->
    sublist ms instances
    /\ Forall (fun m =>
                 (truthy name_ = true
                  /\ exists raw, Ev (ServersGet (id m)) (Ok raw) ∈ tr
                                 /\ Some (Server.name raw) = name_)
                 \/ (truthy ip_ = true
                     /\ exists raw, Ev (ServersGet (id m)) (Ok raw) ∈ tr
                                    /\ floating_addr (Server.addresses raw) = ip_)
                 \/ (truthy id_ = true /\ Some (id m) = id_)) ms.
Proof.
  induction instances as [|instance rest IH]; intros w ms w' tr; cbn [find_matches].
  - intros [= <- <- <-]. split; constructor.
  - intros E.
    apply bind_Return_inv in E as (m & w1 & t1 & t2 & Em & E & ->).
    apply bind_Return_inv in E as (matches & w2 & t3 & t4 & Er & [= <- <- <-] & ->).
    apply IH in Er as [Hsub Hall].
    assert (Forall (fun m =>
                      (truthy name_ = true
                       /\ exists raw, Ev (ServersGet (id m)) (Ok raw) ∈ t1 ++ t3 ++ []
                                      /\ Some (Server.name raw) = name_)
                      \/ (truthy ip_ = true
                          /\ exists raw, Ev (ServersGet (id m)) (Ok raw) ∈ t1 ++ t3 ++ []
                                         /\ floating_addr (Server.addresses raw) = ip_)
                      \/ (truthy id_ = true /\ Some (id m) = id_)) matches) as Hall'.
    { eapply Forall_impl; [exact Hall |]. intros x [(Ht & raw & Hin & Hn) | [(Ht & raw & Hin & Hn) | Hid]].
      - left. split; [done |]. exists raw. split; [| done].
        apply elem_of_app. right. apply elem_of_app. by left.
      - right; left. split; [done |]. exists raw. split; [| done].
        apply elem_of_app. right. apply elem_of_app. by left.
      - by right; right. }
    destruct m.
    + split; [by apply sublist_skip |]. constructor; [| done].
      apply vm_matches_true in Em as [(Ht & raw & Hin & Hn) | [(Ht & raw & Hin & Hn) | Hid]].
      * left. split; [done |]. exists raw. split; [| done]. apply elem_of_app. by left.
      * right; left. split; [done |]. exists raw. split; [| done]. apply elem_of_app. by left.
      * by right; right.
    + split; [by apply sublist_cons | done].
Qed.

(** X17: The instances [find_vms] returns are instances that [list_vms] has
    listed just before, in the order of the listing and none twice as often
    as listed; and for each of them a lookup made since showed the name
    asked for, or the floating address asked for, or its identifier is the
    one asked for. *)
Theorem find_vms_returns_listed_matches fuel sys name_ id_ ip_ w ms w' tr :
  find_vms fuel sys name_ id_ ip_ w = (Return ms, w', tr) ->
  exists instances w0 t0,
    list_vms fuel sys true w = (Return instances, w0, t0)
    /\ sublist ms instances
    /\ Forall (fun m =>
                 (truthy name_ = true
                  /\ exists raw, Ev (ServersGet (id m)) (Ok raw) ∈ tr
                                 /\ Some (Server.name raw) = name_)
                 \/ (truthy ip_ = true
                     /\ exists raw, Ev (ServersGet (id m)) (Ok raw) ∈ tr
                                    /\ floating_addr (Server.addresses raw) = ip_)
                 \/ (truthy id_ = true /\ Some (id m) = id_)) ms.
Proof.
  unfold find_vms. destruct (_ && _); [discriminate |]. intros E.
  apply bind_Return_inv in E as (instances & w0 & t0 & t1 & El & E & ->).
  apply find_matches_Return in E as [Hsub Hall].
  exists instances, w0, t0. split; [done |]. split; [done |].
  eapply Forall_impl; [exact Hall |].
  intros x [(Ht & raw & Hin & Hn) | [(Ht & raw & Hin & Hn) | Hid]].
  - left. split; [done |]. exists raw. split; [| done]. apply elem_of_app. by right.
  - right; left. split; [done |]. exists raw. split; [| done]. apply elem_of_app. by right.
  - by right; right.
Qed.

End Lookups.

Section Lookups_examples.
Import Scenario Cases.

Lemma find_vms_returns_listed_matches_witness :
  exists instances w0 t0,
    @list_vms _ Sim.env 3 sys0 true cloud_two_vms = (Return instances, w0, t0)
    /\ sublist [instance_of vm1] instances
    /\ Forall (fun m =>
                 (truthy (Some "vm1") = true
                  /\ exists raw,
                       Ev (ServersGet (OpenstackInstance.id m)) (Ok raw)
                       ∈ (@find_vms _ Sim.env 3 sys0 (Some "vm1") None None cloud_two_vms).2
                       /\ Some (Server.name raw) = Some "vm1")
                 \/ (truthy None = true
                     /\ exists raw,
                          Ev (ServersGet (OpenstackInstance.id m)) (Ok raw)
                          ∈ (@find_vms _ Sim.env 3 sys0 (Some "vm1") None None cloud_two_vms).2
                          /\ floating_addr (Server.addresses raw) = None)
                 \/ (truthy None = true /\ Some (OpenstackInstance.id m) = None))
         [instance_of vm1].
Proof.
  exact (@find_vms_returns_listed_matches _ Sim.env 3 sys0 (Some "vm1") None None
           cloud_two_vms [instance_of vm1]
           (@find_vms _ Sim.env 3 sys0 (Some "vm1") None None cloud_two_vms).1.2
           (@find_vms _ Sim.env 3 sys0 (Some "vm1") None None cloud_two_vms).2
           ltac:(vm_compute; reflexivity)).
Defined.

End Lookups_examples.

(** ** _request_timeout_handler *)

Section Retry.
Context {W : Type} `{Env W}.

(** A call of the handler with enough fuel: some attempts time out and are
    tried again, and the last attempt gives the result, unless it times
    out too when three retries or more are behind it. *)
Lemma _request_timeout_handler_run {T} (c : Call T) fuel :
  forall retry_count w r w' tr,
    (Z.to_nat (3 - retry_count) < fuel)%nat ->
    _request_timeout_handler fuel c retry_count w = (r, w', tr) ->
    exists n last,
      (n <= Z.to_nat (3 - retry_count))%nat
      /\ ((last <> Err RequestsTimeout
           /\ tr = retried c retry_count n ++ [Ev c last]
           /\ r = match last with Ok a => Return a | Err e => Raise e end)
          \/ (n = Z.to_nat (3 - retry_count)
              /\ last = Err RequestsTimeout
              /\ tr = retried c retry_count n
                      ++ [Ev c (Err RequestsTimeout);
                          Logged ERROR_ "nova request timed out after {} retries"
                            [LArg (AInt (retry_count + Z.of_nat n))]]
              /\ r = Raise RequestsTimeout)).
Proof.
  induction fuel as [|fuel IH]; intros rc w r w' tr Hfuel; [lia |].
  cbn [_request_timeout_handler]. unfold catch, call.
  destruct (handle T c w) as [[a | e] w1] eqn:E.
  - intros [= <- <- <-]. exists 0%nat, (Ok a). split; [lia |]. left. by split.
  - assert (e = RequestsTimeout \/ e <> RequestsTimeout) as [-> | Hne]
      by (destruct e; first [by left | by right]).
    + case_bool_decide as Hrc.
      * cbn. intros [= <- <- <-]. exists 0%nat, (Err RequestsTimeout). split; [lia |].
        right. split; [lia |]. split; [done |]. split; [| done].
        cbn. by rewrite Z.add_0_r.
      * unfold log, mbind, M_bind, bind.
        destruct (_request_timeout_handler fuel c (rc + 1) w1) as [[r2 w2] t2] eqn:E2.
        intros [= <- <- <-].
        apply IH in E2 as (n & last & Hn & Hcases); [| lia].
        exists (S n), last. split; [lia |].
        destruct Hcases as [(Hlast & -> & ->) | (Hn' & -> & -> & ->)].
        -- left. split; [done |]. split; [done |]. by destruct last.
        -- right. split; [lia |]. split; [done |]. split; [| done].
           replace (rc + Z.of_nat (S n))%Z with (rc + 1 + Z.of_nat n)%Z by lia. done.
    + assert ((match e with
               | RequestsTimeout =>
                   if bool_decide (3 <= rc)%Z
                   then log ERROR_ "nova request timed out after {} retries" [LArg (AInt rc)];;
                        raise e
                   else log INFO "nova request timed out; retry {}" [LArg (AInt (rc + 1))];;
                        _request_timeout_handler fuel c (rc + 1)
               | _ => raise e
               end) = (raise e : M W T)) as -> by (by destruct e).
      intros [= <- <- <-]. exists 0%nat, (Err e). split; [lia |]. left.
      split; [congruence |]. by split.
Qed.

(** X18: Entered without retries behind it, as the client calls it,
    [_request_timeout_handler] sends the request four times at most: an
    attempt that times out is logged and tried again, up to three times;
    the answer of the first attempt that does not time out, a result or
    another exception, is the outcome, at once and without a log line; and
    when the fourth attempt times out as well, the error is logged and the
    timeout is raised. *)
Theorem _request_timeout_handler_retries_three_times {T} (c : Call T) fuel w r w' tr :
  (4 <= fuel)%nat ->
  _request_timeout_handler fuel c 0 w = (r, w', tr) ->
  exists n last,
    (n <= 3)%nat
    /\ ((last <> Err RequestsTimeout
         /\ tr = retried c 0 n ++ [Ev c last]
         /\ r = match last with Ok a => Return a | Err e => Raise e end)
        \/ (n = 3%nat
            /\ last = Err RequestsTimeout
            /\ tr = retried c 0 3
                    ++ [Ev c (Err RequestsTimeout);
                        Logged ERROR_ "nova request timed out after {} retries"
                          [LArg (AInt 3)]]
            /\ r = Raise RequestsTimeout)).
Proof.
  intros Hfuel E.
  apply _request_timeout_handler_run in E as (n & last & Hn & Hcases);
    [| change (Z.to_nat (3 - 0)) with 3%nat; lia].
  change (Z.to_nat (3 - 0)) with 3%nat in *.
  exists n, last. split; [done |].
  destruct Hcases as [Hok | (-> & -> & -> & ->)]; [by left | by right].
Qed.

End Retry.

Section Retry_examples.
Import Scenario Cases.

(** The lookup times out twice and is answered at the third attempt. *)
Example _request_timeout_handler_tries_again :
  @_request_timeout_handler _ Sim.env 4 _ (ServersGet "id-1") 0 cloud_slow
  = (Return vm1, Sim.tick (Sim.tick (Sim.tick cloud_slow)),
     retried (ServersGet "id-1") 0 2 ++ [Ev (ServersGet "id-1") (Ok vm1)]).
Proof. vm_compute. reflexivity. Qed.

(** Four timeouts: the fourth is raised. *)
Example _request_timeout_handler_gives_up :
  @_request_timeout_handler _ Sim.env 4 _ (ServersGet "id-1") 0 cloud_stuck
  = (Raise RequestsTimeout, Sim.tick (Sim.tick (Sim.tick (Sim.tick cloud_stuck))),
     retried (ServersGet "id-1") 0 3
     ++ [Ev (ServersGet "id-1") (Err RequestsTimeout);
         Logged ERROR_ "nova request timed out after {} retries" [LArg (AInt 3)]]).
Proof. vm_compute. reflexivity. Qed.

Lemma _request_timeout_handler_retries_three_times_witness :
  exists n last,
    (n <= 3)%nat
    /\ ((last <> Err RequestsTimeout
         /\ (@_request_timeout_handler _ Sim.env 4 _ (ServersGet "id-1") 0 cloud_slow).2
            = retried (ServersGet "id-1") 0 n ++ [Ev (ServersGet "id-1") last]
         /\ Return vm1 = match last with Ok a => Return a | Err e => Raise e end)
        \/ (n = 3%nat
            /\ last = Err RequestsTimeout
            /\ (@_request_timeout_handler _ Sim.env 4 _ (ServersGet "id-1") 0 cloud_slow).2
               = retried (ServersGet "id-1") 0 3
                 ++ [Ev (ServersGet "id-1") (Err RequestsTimeout);
                     Logged ERROR_ "nova request timed out after {} retries"
                       [LArg (AInt 3)]]
            /\ Return vm1 = Raise RequestsTimeout)).
Proof.
  exact (@_request_timeout_handler_retries_three_times _ Sim.env _ (ServersGet "id-1") 4
           cloud_slow (Return vm1)
           (@_request_timeout_handler _ Sim.env 4 _ (ServersGet "id-1") 0 cloud_slow).1.2
           (@_request_timeout_handler _ Sim.env 4 _ (ServersGet "id-1") 0 cloud_slow).2
           ltac:(lia) ltac:(vm_compute; reflexivity)).
Defined.

End Retry_examples.

